(** * hft_cpp: connection and message dispatch engine

    A shallow embedding of the parts of [message.h], [hft_server.{h,cpp}]
    and [ultra_hft_server.{h,cpp}] that the specification talks about,
    with the properties of the specification stated and proved over it.

    Conventions.
    - Unsigned machine integers are [Z] with the wrap-around written out
      ([u64], [size_t_add], ...); [size_t] is 64 bits wide.
    - [std::array] and [std::vector] are lists, indexed with stdpp's
      lookup and insert; [std::unordered_map] is a [gmap].
    - The kernel (file descriptors, the epoll interest list) is an explicit
      part of the server state; what the environment decides (the result of
      [accept], [recv], [send], the clock) is an argument of the routine that
      asks for it.
    - Every routine is one step, an atomic read-modify-write at its
      sequential meaning; the workers of the low-latency server interleave
      at the level of whole routines (see [Ultra.step]). *)

From Stdlib Require Import ZArith QArith Lia.
From stdpp Require Import gmap list strings.

#[local] Open Scope Z_scope.
#[local] Set Warnings "-clear-no-such-hyp".

(** ** Machine integers *)

Definition two64 : Z := 2 ^ 64.

(** Value of an unsigned 64-bit expression ([uint64_t], [size_t]). *)
Definition u64 (x : Z) : Z := x mod two64.

Definition size_t_add (a b : Z) : Z := u64 (a + b).
Definition size_t_sub (a b : Z) : Z := u64 (a - b).

Lemma u64_range x : 0 <= u64 x < two64.
Proof. unfold u64, two64. apply Z.mod_pos_bound. lia. Qed.

Lemma u64_small x : 0 <= x < two64 -> u64 x = x.
Proof. intros H. unfold u64. apply Z.mod_small. exact H. Qed.

(** ** The lock-free ring buffer ([ultra_hft_server.h], [LockFreeRingBuffer]) *)

Module Ring.

(** [static_assert(SIZE > 0 && ((SIZE & (SIZE - 1)) == 0))] *)
Definition static_assert_pow2 (SIZE : Z) : Prop :=
  0 < SIZE /\ Z.land SIZE (SIZE - 1) = 0.

Section ring.

Context {T : Type}.
Variable SIZE : Z.

Definition MASK : Z := SIZE - 1.

Record t : Type := mk {
  buffer_ : list T;
  head_ : Z;
  tail_ : Z
}.

(** [bool push(const T& item)] *)
Definition push (item : T) (r : t) : bool * t :=
  let current_tail := tail_ r in
  let next_tail := Z.land (size_t_add current_tail 1) MASK in
  if next_tail =? head_ r then (false, r)
  else (true, {| buffer_ := <[Z.to_nat current_tail := item]> (buffer_ r);
                 head_ := head_ r;
                 tail_ := next_tail |}).

(** [bool pop(T& item)]: the second component is the value of [item] after
    the call. *)
Definition pop (item : T) (r : t) : bool * T * t :=
  let current_head := head_ r in
  if current_head =? tail_ r then (false, item, r)
  else (true,
        default item (buffer_ r !! Z.to_nat current_head),
        {| buffer_ := buffer_ r;
           head_ := Z.land (size_t_add current_head 1) MASK;
           tail_ := tail_ r |}).

Definition empty (r : t) : bool := head_ r =? tail_ r.

Definition full (r : t) : bool :=
  let next_tail := Z.land (size_t_add (tail_ r) 1) MASK in
  next_tail =? head_ r.

Definition size (r : t) : Z :=
  Z.land (size_t_sub (tail_ r) (head_ r)) MASK.

Definition capacity : Z := SIZE - 1.

(** A ring as the class keeps it: [SIZE] slots, both indices masked. *)
Definition wf (r : t) : Prop :=
  Z.of_nat (length (buffer_ r)) = SIZE /\
  0 <= head_ r < SIZE /\ 0 <= tail_ r < SIZE.

(** *** Sequences of operations *)

Inductive op : Type :=
| Push (item : T)
| Pop.

(** Items handed to [push], in call order. *)
Fixpoint pushed (ops : list op) : list T :=
  match ops with
  | [] => []
  | Push x :: ops' => x :: pushed ops'
  | Pop :: ops' => pushed ops'
  end.

Fixpoint pops (ops : list op) : nat :=
  match ops with
  | [] => 0%nat
  | Push _ :: ops' => pops ops'
  | Pop :: ops' => S (pops ops')
  end.

(** The outcome of running a sequence of calls on a ring: the items whose
    [push] returned true, the items the successful [pop]s produced, and the
    ring at the end. *)
Record outcome : Type := mkOutcome {
  accepted : list T;
  popped : list T;
  final : t
}.

Fixpoint run (dummy : T) (ops : list op) (r : t) : outcome :=
  match ops with
  | [] => mkOutcome [] [] r
  | Push x :: ops' =>
      let '(ok, r') := push x r in
      let o := run dummy ops' r' in
      mkOutcome (if ok then x :: accepted o else accepted o) (popped o) (final o)
  | Pop :: ops' =>
      let '(ok, item, r') := pop dummy r in
      let o := run dummy ops' r' in
      mkOutcome (accepted o) (if ok then item :: popped o else popped o) (final o)
  end.

(** No [pop] is issued while the ring holds nothing: with [n] items stored
    at the start, every prefix of [ops] has at most [n] more pops than
    pushes. *)
Fixpoint never_pops_empty (n : nat) (ops : list op) : bool :=
  match ops with
  | [] => true
  | Push _ :: ops' => never_pops_empty (S n) ops'
  | Pop :: ops' =>
      match n with
      | O => false
      | S m => never_pops_empty m ops'
      end
  end.

(** The stored items, oldest first: the [size r] slots from [head_] on,
    going round the array. *)
Fixpoint read (buf : list T) (i : Z) (n : nat) : list T :=
  match n with
  | O => []
  | S n' =>
      match buf !! Z.to_nat i with
      | Some x => x :: read buf ((i + 1) mod SIZE) n'
      | None => []
      end
  end.

Definition contents (r : t) : list T :=
  read (buffer_ r) (head_ r) (Z.to_nat (size r)).

(** *** Masking is reduction modulo [SIZE] *)

Lemma pow2_of_static_assert :
  static_assert_pow2 SIZE -> SIZE = 2 ^ Z.log2 SIZE.
Proof.
  intros [Hpos Hland].
  destruct (Z.log2_spec SIZE Hpos) as [Hlo Hhi].
  destruct (Z.eq_dec SIZE (2 ^ Z.log2 SIZE)) as [|Hne]; [assumption|].
  exfalso.
  assert (Hp : 0 < 2 ^ Z.log2 SIZE)
    by (apply Z.pow_pos_nonneg; [lia | apply Z.log2_nonneg]).
  assert (Hk : Z.log2 (SIZE - 1) = Z.log2 SIZE).
  { apply Z.log2_unique; [apply Z.log2_nonneg|].
    replace (Z.succ (Z.log2 SIZE)) with (Z.log2 SIZE + 1) in * by lia. lia. }
  assert (Hb : Z.testbit (Z.land SIZE (SIZE - 1)) (Z.log2 SIZE) = true).
  { assert (Hb1 : Z.testbit (SIZE - 1) (Z.log2 SIZE) = true)
      by (rewrite <- Hk; apply Z.bit_log2; lia).
    rewrite Z.land_spec, Hb1, Z.bit_log2 by lia. reflexivity. }
  rewrite Hland, Z.bits_0 in Hb. discriminate.
Qed.

Section facts.

Hypothesis SIZE_pow2 : static_assert_pow2 SIZE.
Hypothesis SIZE_size_t : SIZE < two64.

Lemma SIZE_pos : 0 < SIZE.
Proof. exact (proj1 SIZE_pow2). Qed.

Lemma land_MASK x : Z.land x MASK = x mod SIZE.
Proof.
  unfold MASK. rewrite (pow2_of_static_assert SIZE_pow2) at 1 2.
  replace (2 ^ Z.log2 SIZE - 1) with (Z.ones (Z.log2 SIZE))
    by (rewrite Z.ones_equiv; lia).
  apply Z.land_ones, Z.log2_nonneg.
Qed.

Lemma SIZE_divides_two64 : (SIZE | two64).
Proof.
  pose proof SIZE_pos as Hpos.
  assert (Hk : Z.log2 SIZE < 64).
  { apply Z.log2_lt_pow2; [exact Hpos | exact SIZE_size_t]. }
  pose proof (Z.log2_nonneg SIZE) as Hk0.
  exists (2 ^ (64 - Z.log2 SIZE)).
  transitivity (2 ^ (64 - Z.log2 SIZE) * 2 ^ Z.log2 SIZE).
  - unfold two64. rewrite <- Z.pow_add_r by lia. f_equal. lia.
  - f_equal. symmetry. exact (pow2_of_static_assert SIZE_pow2).
Qed.

Lemma u64_mod_SIZE x : u64 x mod SIZE = x mod SIZE.
Proof.
  unfold u64. apply Z.mod_mod_divide, SIZE_divides_two64.
Qed.

Lemma next_index a : Z.land (size_t_add a 1) MASK = (a + 1) mod SIZE.
Proof. rewrite land_MASK. unfold size_t_add. apply u64_mod_SIZE. Qed.

Lemma size_mod r : size r = (tail_ r - head_ r) mod SIZE.
Proof. unfold size, size_t_sub. rewrite land_MASK. apply u64_mod_SIZE. Qed.

(** Reduction of a value that is less than one lap away. *)
Lemma mod_lap a : 0 <= a < 2 * SIZE ->
  a mod SIZE = if a <? SIZE then a else a - SIZE.
Proof.
  intros Ha. destruct (Z.ltb_spec a SIZE).
  - apply Z.mod_small. lia.
  - symmetry. apply (Z.mod_unique_pos a SIZE 1). lia. lia.
Qed.

Lemma mod_back a : - SIZE < a < SIZE ->
  a mod SIZE = if a <? 0 then a + SIZE else a.
Proof.
  intros Ha. destruct (Z.ltb_spec a 0).
  - symmetry. apply (Z.mod_unique_pos a SIZE (-1)). lia. lia.
  - apply Z.mod_small. lia.
Qed.

(** Distance from [h] forward to [t] on the circle. *)
Lemma dist_zero h t : 0 <= h < SIZE -> 0 <= t < SIZE ->
  (t - h) mod SIZE = 0 <-> h = t.
Proof.
  intros Hh Ht. rewrite mod_back by lia.
  destruct (Z.ltb_spec (t - h) 0); lia.
Qed.

Lemma dist_range h t : 0 <= (t - h) mod SIZE < SIZE.
Proof. apply Z.mod_pos_bound, SIZE_pos. Qed.

Lemma next_range a : 0 <= (a + 1) mod SIZE < SIZE.
Proof. apply Z.mod_pos_bound, SIZE_pos. Qed.

Lemma dist_after_head h t : 0 <= h < SIZE -> 0 <= t < SIZE -> h <> t ->
  (t - (h + 1) mod SIZE) mod SIZE = (t - h) mod SIZE - 1.
Proof.
  intros Hh Ht Hne. rewrite (mod_lap (h + 1)) by lia.
  destruct (Z.ltb_spec (h + 1) SIZE).
  - rewrite !mod_back by lia.
    destruct (Z.ltb_spec (t - (h + 1)) 0), (Z.ltb_spec (t - h) 0); lia.
  - rewrite !mod_back by lia.
    destruct (Z.ltb_spec (t - (h + 1 - SIZE)) 0), (Z.ltb_spec (t - h) 0); lia.
Qed.

Lemma dist_after_tail h t : 0 <= h < SIZE -> 0 <= t < SIZE ->
  (t + 1) mod SIZE <> h ->
  ((t + 1) mod SIZE - h) mod SIZE = (t - h) mod SIZE + 1.
Proof.
  intros Hh Ht. rewrite (mod_lap (t + 1)) by lia.
  destruct (Z.ltb_spec (t + 1) SIZE); intros Hne.
  - rewrite !mod_back by lia.
    destruct (Z.ltb_spec (t + 1 - h) 0), (Z.ltb_spec (t - h) 0); lia.
  - rewrite !mod_back by lia.
    destruct (Z.ltb_spec (t + 1 - SIZE - h) 0), (Z.ltb_spec (t - h) 0); lia.
Qed.

Lemma dist_full h t : 0 <= h < SIZE -> 0 <= t < SIZE ->
  (t + 1) mod SIZE = h <-> (t - h) mod SIZE = SIZE - 1.
Proof.
  intros Hh Ht. rewrite (mod_lap (t + 1)), mod_back by lia.
  destruct (Z.ltb_spec (t + 1) SIZE), (Z.ltb_spec (t - h) 0); lia.
Qed.

(** *** What [push] and [pop] return *)

Lemma push_full item r :
  fst (push item r) = false <-> full r = true.
Proof. unfold push, full. destruct (_ =? _); simpl; split; congruence. Qed.

Lemma push_unchanged item r :
  fst (push item r) = false -> snd (push item r) = r.
Proof. unfold push. destruct (_ =? _); simpl; congruence. Qed.

Lemma pop_empty item r :
  fst (fst (pop item r)) = false <-> empty r = true.
Proof. unfold pop, empty. destruct (_ =? _); simpl; split; congruence. Qed.

Lemma empty_iff r : empty r = true <-> head_ r = tail_ r.
Proof. unfold empty. apply Z.eqb_eq. Qed.

Lemma full_iff r : full r = true <-> (tail_ r + 1) mod SIZE = head_ r.
Proof. unfold full. rewrite next_index. apply Z.eqb_eq. Qed.

Lemma full_size r : wf r -> full r = true <-> size r = capacity.
Proof.
  intros (_ & Hh & Ht). rewrite full_iff, size_mod. unfold capacity.
  apply dist_full; assumption.
Qed.

Lemma empty_size r : wf r -> empty r = true <-> size r = 0.
Proof.
  intros (_ & Hh & Ht). rewrite empty_iff, size_mod.
  symmetry. apply dist_zero; assumption.
Qed.

Lemma size_range r : 0 <= size r < SIZE.
Proof. rewrite size_mod. apply dist_range. Qed.

(** *** The stored items under [push] and [pop] *)

Lemma wf_push item r : wf r -> wf (snd (push item r)).
Proof.
  intros (Hl & Hh & Ht). unfold push.
  destruct (_ =? _); simpl; [repeat split; lia|].
  unfold wf; simpl. rewrite length_insert, next_index.
  pose proof (next_range (tail_ r)). repeat split; lia.
Qed.

Lemma wf_pop item r : wf r -> wf (snd (pop item r)).
Proof.
  intros (Hl & Hh & Ht). unfold pop.
  destruct (_ =? _); simpl; [repeat split; lia|].
  unfold wf; simpl. rewrite next_index.
  pose proof (next_range (head_ r)). repeat split; lia.
Qed.

Lemma read_length buf h n :
  Z.of_nat (length buf) = SIZE -> 0 <= h < SIZE ->
  length (read buf h n) = n.
Proof.
  intros Hl. revert h. induction n as [|n IH]; intros h Hh; [reflexivity|].
  simpl. destruct (buf !! Z.to_nat h) as [x|] eqn:Hx.
  - simpl. rewrite IH; [reflexivity | apply next_range].
  - apply lookup_ge_None in Hx. lia.
Qed.

Lemma read_insert buf item h t n :
  Z.of_nat (length buf) = SIZE -> 0 <= h < SIZE -> 0 <= t < SIZE ->
  (t - h) mod SIZE = Z.of_nat n ->
  read (<[Z.to_nat t := item]> buf) h (S n) = read buf h n ++ [item].
Proof.
  intros Hl. revert h. induction n as [|n IH]; intros h Hh Ht Hd.
  - assert (h = t) as -> by (apply dist_zero; [assumption.. | exact Hd]).
    simpl. rewrite list_lookup_insert_eq by lia. reflexivity.
  - assert (Hne : h <> t).
    { intros ->. rewrite Z.sub_diag, Z.mod_0_l in Hd by lia. lia. }
    change (read (<[Z.to_nat t:=item]> buf) h (S (S n)))
      with (match <[Z.to_nat t:=item]> buf !! Z.to_nat h with
            | Some x => x :: read (<[Z.to_nat t:=item]> buf) ((h + 1) mod SIZE) (S n)
            | None => []
            end).
    rewrite list_lookup_insert_ne by lia.
    change (read buf h (S n))
      with (match buf !! Z.to_nat h with
            | Some x => x :: read buf ((h + 1) mod SIZE) n
            | None => []
            end).
    destruct (buf !! Z.to_nat h) as [x|] eqn:Hx.
    + rewrite IH; [reflexivity | apply next_range | assumption |].
      rewrite dist_after_head by assumption. lia.
    + apply lookup_ge_None in Hx. lia.
Qed.

Lemma contents_length r : wf r -> Z.of_nat (length (contents r)) = size r.
Proof.
  intros (Hl & Hh & Ht). unfold contents.
  rewrite read_length by assumption. pose proof (size_range r). lia.
Qed.

Lemma contents_push item r : wf r -> full r = false ->
  fst (push item r) = true /\
  contents (snd (push item r)) = contents r ++ [item].
Proof.
  intros (Hl & Hh & Ht) Hfull. unfold push. fold (full r). rewrite Hfull. simpl.
  split; [reflexivity|].
  assert (Hnf : (tail_ r + 1) mod SIZE <> head_ r).
  { intros H. apply full_iff in H. congruence. }
  unfold contents. rewrite !size_mod. simpl. rewrite next_index.
  rewrite dist_after_tail by assumption.
  pose proof (dist_range (head_ r) (tail_ r)) as Hd.
  replace (Z.to_nat ((tail_ r - head_ r) mod SIZE + 1))
    with (S (Z.to_nat ((tail_ r - head_ r) mod SIZE))) by lia.
  apply read_insert; try assumption. lia.
Qed.

Lemma contents_pop dummy r : wf r -> empty r = false ->
  exists item,
    pop dummy r = (true, item, snd (pop dummy r)) /\
    contents r = item :: contents (snd (pop dummy r)).
Proof.
  intros (Hl & Hh & Ht) Hempty. unfold pop. fold (empty r). rewrite Hempty. simpl.
  assert (Hne : head_ r <> tail_ r).
  { intros H. apply empty_iff in H. congruence. }
  destruct (buffer_ r !! Z.to_nat (head_ r)) as [x|] eqn:Hx;
    [|apply lookup_ge_None in Hx; lia].
  exists x. split; [reflexivity|].
  unfold contents. rewrite !size_mod. simpl. rewrite next_index.
  rewrite dist_after_head by assumption.
  pose proof (dist_range (head_ r) (tail_ r)) as Hd.
  assert (Hd0 : (tail_ r - head_ r) mod SIZE <> 0).
  { intros H. apply Hne. apply dist_zero; [assumption.. | exact H]. }
  replace (Z.to_nat ((tail_ r - head_ r) mod SIZE))
    with (S (Z.to_nat ((tail_ r - head_ r) mod SIZE - 1))) at 1 by lia.
  simpl. rewrite Hx. reflexivity.
Qed.

(** *** Sequences of calls *)

(** Whatever the calls are, the ring hands items out in the order in which
    it took them in. *)
Lemma run_fifo dummy ops : forall r, wf r ->
  wf (final (run dummy ops r)) /\
  contents r ++ accepted (run dummy ops r)
  = popped (run dummy ops r) ++ contents (final (run dummy ops r)).
Proof.
  induction ops as [|[x|] ops IH]; intros r Hwf.
  - simpl. rewrite app_nil_r. auto.
  - simpl. destruct (full r) eqn:Hfull.
    + assert (Hp : push x r = (false, r)).
      { unfold push. fold (full r). rewrite Hfull. reflexivity. }
      rewrite Hp. simpl. apply IH, Hwf.
    + destruct (contents_push x r Hwf Hfull) as [Hok Hc].
      pose proof (wf_push x r Hwf) as Hwf'.
      destruct (push x r) as [ok r']. simpl in Hok, Hc, Hwf'. subst ok. simpl.
      destruct (IH r' Hwf') as [Hw He]. split; [exact Hw|].
      rewrite <- He, Hc, <- app_assoc. reflexivity.
  - simpl. destruct (empty r) eqn:Hempty.
    + assert (Hp : pop dummy r = (false, dummy, r)).
      { unfold pop. fold (empty r). rewrite Hempty. reflexivity. }
      rewrite Hp. simpl. apply IH, Hwf.
    + destruct (contents_pop dummy r Hwf Hempty) as (item & Hp & Hc).
      pose proof (wf_pop dummy r Hwf) as Hwf'.
      rewrite Hp. simpl.
      destruct (IH _ Hwf') as [Hw He]. split; [exact Hw|].
      rewrite Hc. simpl. rewrite He. reflexivity.
Qed.

(** When no [pop] meets an empty ring and the pushes fit, every call
    succeeds. *)
Lemma run_all_succeed dummy ops : forall r, wf r ->
  never_pops_empty (length (contents r)) ops = true ->
  Z.of_nat (length (contents r)) + Z.of_nat (length (pushed ops)) <= capacity ->
  accepted (run dummy ops r) = pushed ops /\
  length (popped (run dummy ops r)) = pops ops.
Proof.
  induction ops as [|[x|] ops IH]; intros r Hwf Hnp Hcap.
  - simpl. auto.
  - simpl in Hnp, Hcap |- *.
    assert (Hfull : full r = false).
    { destruct (full r) eqn:Hf; [|reflexivity].
      apply full_size in Hf; [|exact Hwf].
      rewrite <- contents_length in Hf by exact Hwf. lia. }
    destruct (contents_push x r Hwf Hfull) as [Hok Hc].
    pose proof (wf_push x r Hwf) as Hwf'.
    destruct (push x r) as [ok r']. simpl in Hok, Hc, Hwf'. subst ok. simpl.
    assert (Hlen : length (contents r') = S (length (contents r))).
    { rewrite Hc, length_app. simpl. lia. }
    destruct (IH r' Hwf') as [Ha Hp].
    + rewrite Hlen. exact Hnp.
    + rewrite Hlen. lia.
    + split; [f_equal; exact Ha | exact Hp].
  - simpl in Hnp, Hcap |- *.
    destruct (length (contents r)) as [|n] eqn:Hn; [discriminate|].
    assert (Hempty : empty r = false).
    { destruct (empty r) eqn:He; [|reflexivity].
      apply empty_size in He; [|exact Hwf].
      rewrite <- contents_length, Hn in He by exact Hwf. lia. }
    destruct (contents_pop dummy r Hwf Hempty) as (item & Hp & Hc).
    pose proof (wf_pop dummy r Hwf) as Hwf'.
    rewrite Hp. simpl.
    assert (Hlen : length (contents (snd (pop dummy r))) = n).
    { rewrite Hc in Hn. simpl in Hn. lia. }
    destruct (IH _ Hwf') as [Ha Hq].
    + rewrite Hlen. exact Hnp.
    + rewrite Hlen. lia.
    + split; [exact Ha | f_equal; exact Hq].
Qed.

(** C1 (as amended). On a ring whose [SIZE] is a power of two: [push]
    returns false exactly when the ring is full, that is when
    [(tail + 1) mod SIZE = head], that is when [SIZE - 1] items are stored,
    and then leaves the ring as it was; [pop] returns false exactly when the
    ring is empty, that is when [head = tail]; and every sequence of [M]
    pushes and [M] pops with [M <= capacity()] that starts on an empty ring
    and never issues a [pop] while the ring is empty has all its calls
    succeed, pops the pushed items in the order in which they were pushed,
    and leaves the ring empty.  (Whatever the calls are, the items popped
    are, in order, the first of the items whose push succeeded; when as many
    pops as pushes succeeded they are all of them and the ring is empty.) *)
Theorem ring_contract_and_fifo (dummy : T) (r : t) :
  wf r ->
  (forall item,
      (fst (push item r) = false <-> full r = true) /\
      (fst (push item r) = false -> snd (push item r) = r)) /\
  (full r = true <-> (tail_ r + 1) mod SIZE = head_ r) /\
  (full r = true <-> size r = SIZE - 1) /\
  Z.of_nat (length (contents r)) = size r /\
  (forall item, fst (fst (pop item r)) = false <-> empty r = true) /\
  (empty r = true <-> head_ r = tail_ r) /\
  (forall ops,
      empty r = true ->
      length (pushed ops) = pops ops ->
      Z.of_nat (pops ops) <= capacity ->
      never_pops_empty 0 ops = true ->
      accepted (run dummy ops r) = pushed ops /\
      popped (run dummy ops r) = pushed ops /\
      empty (final (run dummy ops r)) = true) /\
  (forall ops,
      empty r = true ->
      accepted (run dummy ops r)
      = popped (run dummy ops r) ++ contents (final (run dummy ops r)) /\
      (length (accepted (run dummy ops r)) = length (popped (run dummy ops r)) ->
       popped (run dummy ops r) = accepted (run dummy ops r) /\
       empty (final (run dummy ops r)) = true)).
Proof.
  intros Hwf.
  split; [intros item; split; [apply push_full | apply push_unchanged]|].
  split; [apply full_iff|].
  split; [apply full_size, Hwf|].
  split; [apply contents_length, Hwf|].
  split; [intros item; apply pop_empty|].
  split; [apply empty_iff|].
  assert (Hnil : forall r', wf r' -> (contents r' = [] <-> empty r' = true)).
  { intros r' Hwf'. rewrite (empty_size r' Hwf'), <- (contents_length r' Hwf').
    destruct (contents r'); simpl; split; intros; (discriminate || lia || reflexivity). }
  split; cycle 1.
  { intros ops Hempty. apply Hnil in Hempty; [|exact Hwf].
    destruct (run_fifo dummy ops r Hwf) as [Hwf' Hfifo].
    rewrite Hempty in Hfifo. simpl in Hfifo. split; [exact Hfifo|].
    intros Hlen. rewrite Hfifo, length_app in Hlen.
    assert (Hfin : contents (final (run dummy ops r)) = []).
    { destruct (contents (final (run dummy ops r)));
        [reflexivity | simpl in Hlen; lia]. }
    rewrite Hfin, app_nil_r in Hfifo. split; [by symmetry|].
    by apply Hnil. }
  intros ops Hempty HM Hcap Hnp.
  assert (Hc0 : contents r = []).
  { apply empty_size in Hempty; [|exact Hwf].
    pose proof (contents_length r Hwf) as Hl. rewrite Hempty in Hl.
    destruct (contents r); [reflexivity | simpl in Hl; lia]. }
  destruct (run_all_succeed dummy ops r Hwf) as [Hacc Hpop].
  { rewrite Hc0. exact Hnp. }
  { rewrite Hc0. simpl. lia. }
  destruct (run_fifo dummy ops r Hwf) as [Hwf' Hfifo].
  rewrite Hc0, Hacc in Hfifo. simpl in Hfifo.
  assert (Hfin : contents (final (run dummy ops r)) = []).
  { apply (f_equal length) in Hfifo. rewrite length_app, Hpop, HM in Hfifo.
    destruct (contents (final (run dummy ops r))); [reflexivity | simpl in Hfifo; lia]. }
  rewrite Hfin, app_nil_r in Hfifo.
  split; [exact Hacc|]. split; [symmetry; exact Hfifo|].
  apply empty_size; [exact Hwf'|].
  rewrite <- contents_length, Hfin by exact Hwf'. reflexivity.
Qed.

End facts.

End ring.

(** A freshly constructed ring of four slots of integers. *)
Definition ring4 : t (T := Z) := mk [0; 0; 0; 0] 0 0.

(** A freshly constructed ring of two slots (capacity one). *)
Definition ring2 : t (T := Z) := mk [0; 0] 0 0.

Lemma ring_contract_and_fifo_witness :
  static_assert_pow2 4 /\ 4 < two64 /\ wf 4 ring4 /\
  let ops := [Push 11; Push 12; Pop; Push 13; Pop; Pop] in
  accepted (run 4 0 ops ring4) = pushed ops /\
  popped (run 4 0 ops ring4) = pushed ops /\
  empty (final (run 4 0 ops ring4)) = true.
Proof.
  assert (Hpow : static_assert_pow2 4) by (split; [lia | reflexivity]).
  assert (Hsz : 4 < two64) by (vm_compute; reflexivity).
  assert (Hwf : wf 4 ring4) by (unfold wf; simpl; lia).
  split; [exact Hpow|]. split; [exact Hsz|]. split; [exact Hwf|].
  destruct (ring_contract_and_fifo 4 Hpow Hsz 0 ring4 Hwf)
    as (_ & _ & _ & _ & _ & _ & H & _).
  apply H.
  - reflexivity.
  - reflexivity.
  - vm_compute. discriminate.
  - reflexivity.
Defined.

(** C1, as the specification states it, fails: the interleaving
    "pop, then push 7" has one push and one pop and fits a ring of capacity
    one, yet the pop finds the ring empty and returns false, so nothing is
    popped and the ring still holds 7 at the end.  (Nor can "capacity" be
    read as the number of slots: two pushes followed by two pops on the ring
    of two slots lose the second item, the ring being full after the
    first.) *)
Lemma fifo_any_interleaving_counterexample :
  let ops := [Pop; Push 7] in
  let ops' := [Push 7; Push 8; Pop; Pop] in
  static_assert_pow2 2 /\ wf 2 ring2 /\ empty ring2 = true /\
  length (pushed ops) = pops ops /\
  Z.of_nat (pops ops) <= capacity 2 /\
  popped (run 2 0 ops ring2) = [] /\
  pushed ops = [7] /\
  empty (final (run 2 0 ops ring2)) = false /\
  ~ (popped (run 2 0 ops ring2) = pushed ops /\
     empty (final (run 2 0 ops ring2)) = true) /\
  length (pushed ops') = pops ops' /\ Z.of_nat (pops ops') <= 2 /\
  popped (run 2 0 ops' ring2) = [7] /\ pushed ops' = [7; 8].
Proof.
  cbv zeta.
  split; [split; [lia | reflexivity]|].
  split; [unfold wf; simpl; lia|].
  split; [reflexivity|]. split; [reflexivity|].
  split; [vm_compute; discriminate|].
  split; [reflexivity|]. split; [reflexivity|]. split; [reflexivity|].
  split; [intros [H _]; vm_compute in H; discriminate|].
  split; [reflexivity|]. split; [vm_compute; discriminate|].
  split; reflexivity.
Qed.

End Ring.


(** ** Wire records ([message.h]) *)

(** [enum class MessageType : uint8_t].  A record that arrives from the
    wire carries whatever byte the peer put there, so the tag is kept as the
    value of the underlying [uint8_t]. *)
Module MessageType.
Definition ORDER_NEW : Z := 0x01.
Definition ORDER_CANCEL : Z := 0x02.
Definition ORDER_REPLACE : Z := 0x03.
Definition ORDER_FILL : Z := 0x04.
Definition ORDER_REJECT : Z := 0x05.
Definition MARKET_DATA : Z := 0x06.
Definition HEARTBEAT : Z := 0x07.
Definition LOGIN : Z := 0x08.
Definition LOGOUT : Z := 0x09.
Definition ERROR : Z := 0xFF.

(** The tags the enumeration names. *)
Definition enumerated (tag : Z) : bool :=
  ((1 <=? tag) && (tag <=? 9)) || (tag =? 0xFF).
End MessageType.

(** [enum class MessageStatus : uint8_t] *)
Module MessageStatus.
Definition PENDING : Z := 0x01.
Definition PROCESSED : Z := 0x02.
Definition COMPLETED : Z := 0x03.
Definition FAILED : Z := 0x04.
End MessageStatus.

(** [std::array<uint8_t, N>::fill] *)
Definition array_fill {A : Type} (v : A) (a : list A) : list A :=
  replicate (length a) v.

(** [sizeof] of the record types.  The values are fixed by the compiler's
    layout rules, not by the sources, so they are kept as parameters. *)
Class Layout : Type := {
  sizeof_Message : Z;
  sizeof_OrderMessage : Z;
  sizeof_MarketDataMessage : Z;
  sizeof_UltraMessage : Z
}.

(** The sizes an LP64 build produces (40-byte header and 1024 bytes of
    payload for the base record); used in the worked examples only. *)
Definition lp64 : Layout :=
  {| sizeof_Message := 1064;
     sizeof_OrderMessage := 1120;
     sizeof_MarketDataMessage := 1152;
     sizeof_UltraMessage := 1088 |}.

Module Message.

Record t : Type := mk {
  message_id : Z;
  timestamp : Z;
  sequence_number : Z;
  message_type : Z;
  status : Z;
  source_id : Z;
  destination_id : Z;
  payload_size : Z;
  payload : list Z
}.

Definition payload_capacity : Z := 1024.

(** The type of [payload] is [std::array<uint8_t, 1024>]. *)
Definition wf (m : t) : Prop :=
  Z.of_nat (length (payload m)) = payload_capacity.

(** [Message()] *)
Definition ctor : t :=
  {| message_id := 0;
     timestamp := 0;
     sequence_number := 0;
     message_type := MessageType.HEARTBEAT;
     status := MessageStatus.PENDING;
     source_id := 0;
     destination_id := 0;
     payload_size := 0;
     payload := replicate (Z.to_nat payload_capacity) 0 |}.

(** [bool is_valid() const] *)
Definition is_valid (m : t) : bool :=
  negb (message_id m =? 0) && negb (timestamp m =? 0)
  && (payload_size m <=? Z.of_nat (length (payload m))).

(** [void clear()] *)
Definition clear (m : t) : t :=
  {| message_id := 0;
     timestamp := 0;
     sequence_number := 0;
     message_type := MessageType.HEARTBEAT;
     status := MessageStatus.PENDING;
     source_id := 0;
     destination_id := 0;
     payload_size := 0;
     payload := array_fill 0 (payload m) |}.

Lemma wf_ctor : wf ctor.
Proof. vm_compute. reflexivity. Qed.

Lemma wf_clear m : wf m -> wf (clear m).
Proof.
  unfold wf, clear, array_fill. cbn [payload]. rewrite length_replicate. trivial.
Qed.

Lemma is_valid_payload_size m :
  wf m -> is_valid m = true -> payload_size m <= payload_capacity.
Proof.
  unfold wf, is_valid. intros Hl H.
  apply andb_true_iff in H as [_ H]. apply Z.leb_le in H. lia.
Qed.

(** C9. For every message [m], [m.clear()] leaves a message equal to a
    default-constructed one: the six numeric header fields are 0,
    [message_type] is HEARTBEAT, [status] is PENDING and each of the 1024
    payload bytes is 0; clearing a second time changes nothing. *)
Theorem clear_is_default (m : t) :
  wf m ->
  clear m = ctor /\
  message_id (clear m) = 0 /\ timestamp (clear m) = 0 /\
  sequence_number (clear m) = 0 /\ source_id (clear m) = 0 /\
  destination_id (clear m) = 0 /\ payload_size (clear m) = 0 /\
  message_type (clear m) = MessageType.HEARTBEAT /\
  status (clear m) = MessageStatus.PENDING /\
  length (payload (clear m)) = 1024%nat /\
  (forall i b, payload (clear m) !! i = Some b -> b = 0) /\
  clear (clear m) = clear m.
Proof.
  intros Hwf. unfold wf, payload_capacity in Hwf.
  assert (Hp : array_fill 0 (payload m) = replicate 1024 0).
  { unfold array_fill. f_equal. lia. }
  assert (Hc : clear m = ctor).
  { unfold clear, ctor. rewrite Hp. reflexivity. }
  split; [exact Hc|].
  repeat (split; [reflexivity|]).
  split; [simpl; rewrite Hp; apply length_replicate|].
  split.
  - intros i b Hb. simpl in Hb. rewrite Hp in Hb.
    apply lookup_replicate in Hb. tauto.
  - unfold clear at 1 3. simpl. unfold array_fill at 1.
    unfold array_fill. rewrite length_replicate. reflexivity.
Qed.

(** An order as a client would fill it in. *)
Definition sample : t :=
  {| message_id := 42;
     timestamp := 1700000000;
     sequence_number := 7;
     message_type := MessageType.ORDER_NEW;
     status := MessageStatus.PROCESSED;
     source_id := 3;
     destination_id := 9;
     payload_size := 16;
     payload := replicate 1024 65 |}.

Lemma clear_is_default_witness :
  wf sample /\ clear sample = ctor /\ clear (clear sample) = clear sample.
Proof.
  assert (Hwf : wf sample) by (unfold wf, sample; simpl; reflexivity).
  destruct (clear_is_default sample Hwf) as (H1 & H2).
  split; [exact Hwf|]. split; [exact H1|].
  do 10 (destruct H2 as [_ H2]). exact H2.
Defined.

End Message.

(** ** The process and the kernel it talks to

    File descriptors, epoll instances with their interest lists, and the
    threads of the process.  [P] is what an [epoll_event.data.ptr] refers
    to; [None] is [nullptr], the mark both servers put on the listener. *)

Module Sys.

Definition EINTR : Z := 4.
Definition EBADF : Z := 9.
Definition EAGAIN : Z := 11.
Definition EWOULDBLOCK : Z := 11.
Definition EMFILE : Z := 24.
Definition EPIPE : Z := 32.
Definition ECONNABORTED : Z := 103.
Definition ECONNRESET : Z := 104.

(** What the servers write to [std::cerr], what they hand to a handler and
    what they send; the lines written to [std::cout] are not recorded. *)
Inductive event : Type :=
| Ecerr (line : string)
| Edeliver (m : Message.t) (conn : Z)
| Esend (fd : Z) (message_id : Z) (message_type : Z).

(** One entry of the listener's queue: what the next [accept] returns and
    what the system calls that follow it on the new socket answer. *)
Record accepted : Type := mkAccepted {
  a_fd : Z;
  a_addr : Z;
  a_sockopts_ok : bool;
  a_nonblock_ok : bool;
  a_epoll_ok : bool;
  a_now : Z;
  a_ptr : Z
}.

Inductive accept_result : Type :=
| AcceptOk (a : accepted)
| AcceptErr (errno : Z).

Section kernel.

Context {P : Type}.

Record t : Type := mk {
  fds : gset Z;
  epolls : gmap Z (gmap Z (option P));
  threads : gset nat;
  next_tid : nat
}.

(** A descriptor handed out by [socket] or [accept]. *)
Definition open_fd (fd : Z) (k : t) : t :=
  mk ({[fd]} ∪ fds k) (epolls k) (threads k) (next_tid k).

(** [epoll_create1] returning [fd]. *)
Definition epoll_create (fd : Z) (k : t) : t :=
  mk ({[fd]} ∪ fds k) (<[fd := ∅]> (epolls k)) (threads k) (next_tid k).

(** [close(fd)]: the descriptor goes away, with the epoll instance it
    names, if any, and with its entry in every interest list. *)
Definition close (fd : Z) (k : t) : t :=
  if decide (fd ∈ fds k)
  then mk (fds k ∖ {[fd]}) (delete fd <$> delete fd (epolls k))
          (threads k) (next_tid k)
  else k.

(** [epoll_ctl(ep, EPOLL_CTL_ADD, fd, &ev)] with [ev.data.ptr = tag];
    [None] when the call fails.  [env_ok] is false when the kernel refuses
    for a reason of its own. *)
Definition epoll_ctl_add (env_ok : bool) (ep fd : Z) (tag : option P) (k : t)
  : option t :=
  match epolls k !! ep with
  | Some interest =>
      if env_ok && bool_decide (fd ∈ fds k) && bool_decide (interest !! fd = None)
      then Some (mk (fds k) (<[ep := <[fd := tag]> interest]> (epolls k))
                    (threads k) (next_tid k))
      else None
  | None => None
  end.

(** [epoll_ctl(ep, EPOLL_CTL_DEL, fd, nullptr)] *)
Definition epoll_ctl_del (ep fd : Z) (k : t) : t :=
  mk (fds k) (alter (delete fd) ep (epolls k)) (threads k) (next_tid k).

(** [std::thread] construction; the new thread's identifier is returned. *)
Definition spawn (k : t) : nat * t :=
  (next_tid k,
   mk (fds k) (epolls k) ({[next_tid k]} ∪ threads k) (S (next_tid k))).

(** [thread.join()] *)
Definition join (tid : nat) (k : t) : t :=
  mk (fds k) (epolls k) (threads k ∖ {[tid]}) (next_tid k).

Definition close_all (l : list Z) (k : t) : t := foldl (fun k fd => close fd k) k l.
Definition join_all (l : list nat) (k : t) : t := foldl (fun k tid => join tid k) k l.

(** The interest list of the epoll instance [ep]; empty when there is no
    such instance. *)
Definition interest_of (ep : Z) (k : t) : gmap Z (option P) :=
  default ∅ (epolls k !! ep).

(** [fd] is registered with [ep]. *)
Definition registered (ep fd : Z) (k : t) : Prop :=
  is_Some (interest_of ep k !! fd).

Lemma close_open fd k :
  fd ∈ fds k ->
  fds (close fd k) = fds k ∖ {[fd]} /\
  epolls (close fd k) = delete fd <$> delete fd (epolls k).
Proof. intros H. unfold close. rewrite decide_True by done. auto. Qed.

Lemma close_not_open fd k : fd ∉ fds k -> close fd k = k.
Proof. intros H. unfold close. by rewrite decide_False. Qed.

Lemma close_closed fd k : fd ∉ fds (close fd k).
Proof. unfold close. case_decide; simpl; set_solver. Qed.

Lemma close_fds_subseteq fd k : fds (close fd k) ⊆ fds k.
Proof. unfold close. case_decide; simpl; set_solver. Qed.

Lemma close_all_fds_subseteq l : forall k, fds (close_all l k) ⊆ fds k.
Proof.
  induction l as [|fd l IH]; intros k; simpl; [set_solver|].
  etrans; [apply IH | apply close_fds_subseteq].
Qed.

Lemma close_all_closed l : forall k fd, fd ∈ l -> fd ∉ fds (close_all l k).
Proof.
  induction l as [|x l IH]; intros k fd Hin; [by apply elem_of_nil in Hin|].
  apply elem_of_cons in Hin as [->|Hin]; simpl.
  - intros H. apply close_all_fds_subseteq in H. by apply close_closed in H.
  - by apply IH.
Qed.

Lemma close_threads fd k : threads (close fd k) = threads k.
Proof. unfold close. case_decide; reflexivity. Qed.

Lemma close_all_threads l : forall k, threads (close_all l k) = threads k.
Proof.
  induction l as [|x l IH]; intros k; simpl; [reflexivity|].
  rewrite IH. apply close_threads.
Qed.

Lemma close_no_instance fd k : epolls (close fd k) !! fd = None \/ fd ∉ fds k.
Proof.
  unfold close. case_decide; simpl; [left | right; assumption].
  rewrite lookup_fmap, lookup_delete_eq. reflexivity.
Qed.

Lemma close_deregisters ep fd k : fd ∈ fds k -> ~ registered ep fd (close fd k).
Proof.
  intros Hin. unfold registered, interest_of, close.
  rewrite decide_True by assumption. simpl. rewrite lookup_fmap.
  destruct (delete fd (epolls k) !! ep) as [i|]; simpl.
  - rewrite lookup_delete_eq. by intros [? ?].
  - rewrite lookup_empty. by intros [? ?].
Qed.

Lemma del_deregisters ep fd k : ~ registered ep fd (epoll_ctl_del ep fd k).
Proof.
  unfold registered, interest_of, epoll_ctl_del. simpl. rewrite lookup_alter_eq.
  destruct (epolls k !! ep) as [i|]; simpl.
  - rewrite lookup_delete_eq. by intros [? ?].
  - rewrite lookup_empty. by intros [? ?].
Qed.

Lemma join_all_threads l : forall k tid,
  tid ∈ threads (join_all l k) <-> tid ∈ threads k /\ tid ∉ l.
Proof.
  induction l as [|x l IH]; intros k tid; simpl.
  - set_solver.
  - rewrite IH. simpl. set_solver.
Qed.

Lemma join_all_fds l : forall k, fds (join_all l k) = fds k.
Proof. induction l as [|x l IH]; intros k; simpl; [reflexivity|]. by rewrite IH. Qed.

Lemma join_all_epolls l : forall k, epolls (join_all l k) = epolls k.
Proof. induction l as [|x l IH]; intros k; simpl; [reflexivity|]. by rewrite IH. Qed.

(** Closing a descriptor and [EPOLL_CTL_DEL] only ever take entries out of
    interest lists. *)
Lemma close_interest ep fd k x tag :
  interest_of ep (close fd k) !! x = Some tag -> interest_of ep k !! x = Some tag.
Proof.
  unfold interest_of, close. case_decide; [|trivial]. simpl.
  rewrite lookup_fmap.
  destruct (decide (ep = fd)) as [->|Hne].
  - rewrite lookup_delete_eq. simpl. by rewrite lookup_empty.
  - rewrite lookup_delete_ne by done.
    destruct (epolls k !! ep) as [i|]; simpl; [|by rewrite lookup_empty].
    destruct (decide (x = fd)) as [->|Hx].
    + by rewrite lookup_delete_eq.
    + by rewrite lookup_delete_ne.
Qed.

Lemma del_interest ep ep' fd k x tag :
  interest_of ep (epoll_ctl_del ep' fd k) !! x = Some tag ->
  interest_of ep k !! x = Some tag.
Proof.
  unfold interest_of, epoll_ctl_del. simpl.
  destruct (decide (ep' = ep)) as [->|Hne].
  - rewrite lookup_alter_eq.
    destruct (epolls k !! ep) as [i|]; simpl; [|trivial].
    destruct (decide (x = fd)) as [->|Hx].
    + by rewrite lookup_delete_eq.
    + by rewrite lookup_delete_ne.
  - by rewrite lookup_alter_ne.
Qed.

Lemma close_all_interest ep l : forall k x tag,
  interest_of ep (close_all l k) !! x = Some tag -> interest_of ep k !! x = Some tag.
Proof.
  induction l as [|fd l IH]; intros k x tag; simpl; [trivial|].
  intros H. apply IH in H. by apply close_interest in H.
Qed.

Lemma close_keeps_unregistered ep fd fd' k :
  ~ registered ep fd k -> ~ registered ep fd (close fd' k).
Proof.
  unfold registered. intros Hn [tag Ht]. apply Hn.
  apply close_interest in Ht. by exists tag.
Qed.

End kernel.

Arguments t : clear implicits.

End Sys.

(** ** The baseline server ([hft_server.h], [hft_server.cpp]) *)

Module HFT.

(** [struct Connection].  A [Connection*] is modelled by the key under
    which the table owns the record. *)
Record Connection : Type := mkConnection {
  fd : Z;
  addr : Z;
  last_heartbeat : Z;
  client_id : Z;
  is_authenticated : bool
}.

(** [IMessageService::process_message(const Message&, Connection&)]: the
    handler reads the record and may update the connection it is given. *)
Record IMessageService : Type := mkService {
  process_message : Message.t -> Connection -> Connection
}.

(** [OrderService::process_message] and
    [MarketDataService::process_message] write to [std::cout] and leave the
    connection alone. *)
Definition OrderService : IMessageService := mkService (fun _ conn => conn).
Definition MarketDataService : IMessageService := mkService (fun _ conn => conn).

(** [struct ServerStats].  [avg_latency_us] is a [double] in the source;
    it is kept as an exact rational here, so its rounding is not modelled. *)
Record ServerStats : Type := mkStats {
  total_messages_processed : Z;
  total_connections : Z;
  avg_latency_us : Q;
  peak_connections : Z
}.

Record server : Type := mkServer {
  server_ip_ : string;
  server_port_ : Z;
  thread_count_ : nat;
  running_ : bool;
  server_socket_ : Z;
  epoll_fd_ : Z;
  worker_threads_ : list nat;
  connections_ : gmap Z Connection;
  services_ : gmap Z IMessageService;
  stats_ : ServerStats;
  kernel : Sys.t Z;
  trace : list Sys.event
}.

(** The server as its constructor leaves it, in a process whose kernel
    state is [k]. *)
Definition initial (k : Sys.t Z) : server :=
  {| server_ip_ := ""; server_port_ := 0; thread_count_ := 0;
     running_ := false; server_socket_ := -1; epoll_fd_ := -1;
     worker_threads_ := []; connections_ := ∅; services_ := ∅;
     stats_ := mkStats 0 0 0%Q 0;
     kernel := k; trace := [] |}.

Definition set_config (ip : string) (port : Z) (n : nat) (s : server) : server :=
  mkServer ip port n (running_ s) (server_socket_ s) (epoll_fd_ s)
    (worker_threads_ s) (connections_ s) (services_ s) (stats_ s) (kernel s) (trace s).
Definition set_running (b : bool) (s : server) : server :=
  mkServer (server_ip_ s) (server_port_ s) (thread_count_ s) b (server_socket_ s)
    (epoll_fd_ s) (worker_threads_ s) (connections_ s) (services_ s) (stats_ s)
    (kernel s) (trace s).
Definition set_server_socket (x : Z) (s : server) : server :=
  mkServer (server_ip_ s) (server_port_ s) (thread_count_ s) (running_ s) x
    (epoll_fd_ s) (worker_threads_ s) (connections_ s) (services_ s) (stats_ s)
    (kernel s) (trace s).
Definition set_epoll_fd (x : Z) (s : server) : server :=
  mkServer (server_ip_ s) (server_port_ s) (thread_count_ s) (running_ s)
    (server_socket_ s) x (worker_threads_ s) (connections_ s) (services_ s)
    (stats_ s) (kernel s) (trace s).
Definition set_worker_threads (x : list nat) (s : server) : server :=
  mkServer (server_ip_ s) (server_port_ s) (thread_count_ s) (running_ s)
    (server_socket_ s) (epoll_fd_ s) x (connections_ s) (services_ s) (stats_ s)
    (kernel s) (trace s).
Definition set_connections (x : gmap Z Connection) (s : server) : server :=
  mkServer (server_ip_ s) (server_port_ s) (thread_count_ s) (running_ s)
    (server_socket_ s) (epoll_fd_ s) (worker_threads_ s) x (services_ s) (stats_ s)
    (kernel s) (trace s).
Definition set_services (x : gmap Z IMessageService) (s : server) : server :=
  mkServer (server_ip_ s) (server_port_ s) (thread_count_ s) (running_ s)
    (server_socket_ s) (epoll_fd_ s) (worker_threads_ s) (connections_ s) x
    (stats_ s) (kernel s) (trace s).
Definition set_stats (x : ServerStats) (s : server) : server :=
  mkServer (server_ip_ s) (server_port_ s) (thread_count_ s) (running_ s)
    (server_socket_ s) (epoll_fd_ s) (worker_threads_ s) (connections_ s)
    (services_ s) x (kernel s) (trace s).
Definition set_kernel (x : Sys.t Z) (s : server) : server :=
  mkServer (server_ip_ s) (server_port_ s) (thread_count_ s) (running_ s)
    (server_socket_ s) (epoll_fd_ s) (worker_threads_ s) (connections_ s)
    (services_ s) (stats_ s) x (trace s).
Definition emit (e : Sys.event) (s : server) : server :=
  mkServer (server_ip_ s) (server_port_ s) (thread_count_ s) (running_ s)
    (server_socket_ s) (epoll_fd_ s) (worker_threads_ s) (connections_ s)
    (services_ s) (stats_ s) (kernel s) (trace s ++ [e]).

(** A system call that only changes the kernel. *)
Definition sys (f : Sys.t Z -> Sys.t Z) (s : server) : server :=
  set_kernel (f (kernel s)) s.

(** What the system calls of [initialize] answer. *)
Record init_env : Type := mkInitEnv {
  i_socket : Z;
  i_bind : Z;
  i_listen : Z;
  i_epoll_create : Z;
  i_epoll_ctl_ok : bool
}.

(** [bool HFTServer::initialize(ip, port, thread_count)] *)
Definition initialize (env : init_env) (ip : string) (port : Z) (n : nat)
    (s : server) : bool * server :=
  let s := set_config ip port n s in
  let s := set_server_socket (i_socket env) s in
  if server_socket_ s =? -1 then (false, emit (Sys.Ecerr "Failed to create server socket") s)
  else
    let s := sys (Sys.open_fd (server_socket_ s)) s in
    if i_bind env =? -1 then
      (false, sys (Sys.close (server_socket_ s)) (emit (Sys.Ecerr "Failed to bind socket") s))
    else if i_listen env =? -1 then
      (false, sys (Sys.close (server_socket_ s)) (emit (Sys.Ecerr "Failed to listen") s))
    else
      let s := set_epoll_fd (i_epoll_create env) s in
      if epoll_fd_ s =? -1 then
        (false, sys (Sys.close (server_socket_ s)) (emit (Sys.Ecerr "Failed to create epoll") s))
      else
        let s := sys (Sys.epoll_create (epoll_fd_ s)) s in
        match Sys.epoll_ctl_add (i_epoll_ctl_ok env) (epoll_fd_ s) (server_socket_ s)
                None (kernel s) with
        | None =>
            let s := emit (Sys.Ecerr "Failed to add server socket to epoll") s in
            let s := sys (Sys.close (epoll_fd_ s)) s in
            (false, sys (Sys.close (server_socket_ s)) s)
        | Some k => (true, set_kernel k s)
        end.

(** [worker_threads_.emplace_back(&HFTServer::worker_thread, this, i)],
    [n] times. *)
Fixpoint spawn_workers (n : nat) (s : server) : server :=
  match n with
  | O => s
  | S n' =>
      let '(tid, k) := Sys.spawn (kernel s) in
      spawn_workers n' (set_worker_threads (worker_threads_ s ++ [tid]) (set_kernel k s))
  end.

(** [void HFTServer::start()] *)
Definition start (s : server) : server :=
  if running_ s then s
  else spawn_workers (thread_count_ s) (set_running true s).

(** [void HFTServer::stop()] *)
Definition stop (s : server) : server :=
  if negb (running_ s) then s
  else
    let s := set_running false s in
    let s :=
      if negb (server_socket_ s =? -1)
      then set_server_socket (-1) (sys (Sys.close (server_socket_ s)) s)
      else s in
    let s := sys (Sys.join_all (worker_threads_ s)) s in
    let s := set_worker_threads [] s in
    let s :=
      if negb (epoll_fd_ s =? -1)
      then set_epoll_fd (-1) (sys (Sys.close (epoll_fd_ s)) s)
      else s in
    let s := sys (Sys.close_all (fd <$> (map_to_list (connections_ s)).*2)) s in
    set_connections ∅ s.

(** [void HFTServer::accept_connections()]: [backlog] is the queue of the
    listener, an empty queue making [accept] fail with [EAGAIN]; the queue
    that is left is returned with the server. *)
Definition accept_connections (backlog : list Sys.accept_result) (s : server)
  : server * list Sys.accept_result :=
  match backlog with
  | [] => (s, [])
  | Sys.AcceptErr errno :: rest =>
      if (errno =? Sys.EAGAIN) || (errno =? Sys.EWOULDBLOCK) then (s, rest)
      else (emit (Sys.Ecerr "Accept failed") s, rest)
  | Sys.AcceptOk a :: rest =>
      let client_fd := Sys.a_fd a in
      let s := sys (Sys.open_fd client_fd) s in
      let conn := {| fd := client_fd; addr := Sys.a_addr a;
                     last_heartbeat := Sys.a_now a; client_id := Sys.a_ptr a;
                     is_authenticated := false |} in
      match Sys.epoll_ctl_add (Sys.a_epoll_ok a) (epoll_fd_ s) client_fd
              (Some client_fd) (kernel s) with
      | None =>
          (sys (Sys.close client_fd) (emit (Sys.Ecerr "Failed to add client to epoll") s),
           rest)
      | Some k =>
          let s := set_kernel k s in
          let s := set_connections (<[client_fd := conn]> (connections_ s)) s in
          let st := stats_ s in
          (set_stats
             (mkStats (total_messages_processed st)
                      (u64 (total_connections st + 1))
                      (avg_latency_us st)
                      (Z.max (peak_connections st)
                             (Z.of_nat (size (connections_ s))))) s,
           rest)
      end
  end.

(** [void HFTServer::close_connection(Connection& conn)] *)
Definition close_connection (conn : Z) (s : server) : server :=
  match connections_ s !! conn with
  | None => s
  | Some c =>
      let s := sys (Sys.epoll_ctl_del (epoll_fd_ s) (fd c)) s in
      let s := sys (Sys.close (fd c)) s in
      set_connections (delete (fd c) (connections_ s)) s
  end.

(** The exponential moving average of [process_client_message], with
    [alpha = 0.01] and the latency converted from nanoseconds. *)
Definition ema (latency_ns : Z) (avg : Q) : Q :=
  ((1 # 100) * (latency_ns # 1000) + (1 - (1 # 100)) * avg)%Q.

(** [void HFTServer::process_client_message(const Message&, Connection&)],
    and with the same body (but for the line it prints) the overloads for
    [OrderMessage] and [MarketDataMessage].  [latency_ns] is the time the
    clock measured around the handler call. *)
Definition process_client_message (msg : Message.t) (latency_ns : Z) (conn : Z)
    (s : server) : server :=
  let s :=
    match services_ s !! Message.message_type msg with
    | Some service =>
        emit (Sys.Edeliver msg conn)
          (set_connections
             (alter (process_message service msg) conn (connections_ s)) s)
    | None => s
    end in
  let st := stats_ s in
  set_stats (mkStats (u64 (total_messages_processed st + 1))
                     (total_connections st)
                     (ema latency_ns (avg_latency_us st))
                     (peak_connections st)) s.

(** What one [recv] on a client socket returns: [n > 0] bytes that the
    buffer then shows as the record [m] (with the latency the clock will
    measure if the record is dispatched), 0 for end of file, or -1 with an
    [errno]. *)
Inductive recv_result : Type :=
| RecvData (n : Z) (m : Message.t) (latency_ns : Z)
| RecvEOF
| RecvErr (errno : Z).

Section dispatch.

Context {layout : Layout}.

(** The body of the receive loop for [bytes_read > 0]. *)
Definition dispatch (bytes_read : Z) (msg : Message.t) (latency_ns : Z) (conn : Z)
    (s : server) : server :=
  if sizeof_Message <=? bytes_read then
    let ty := Message.message_type msg in
    if (ty =? MessageType.ORDER_NEW) || (ty =? MessageType.ORDER_CANCEL)
       || (ty =? MessageType.ORDER_REPLACE) then
      if sizeof_OrderMessage <=? bytes_read
      then process_client_message msg latency_ns conn s
      else s
    else if ty =? MessageType.MARKET_DATA then
      if sizeof_MarketDataMessage <=? bytes_read
      then process_client_message msg latency_ns conn s
      else s
    else process_client_message msg latency_ns conn s
  else s.

(** The [while (true)] loop of [handle_client_events]: [script] is what the
    successive calls of [recv] return; when it runs out nothing is left to
    read and [recv] fails with [EAGAIN]. *)
Fixpoint recv_loop (script : list recv_result) (conn : Z) (s : server) : server :=
  match script with
  | [] => s
  | RecvErr errno :: _ =>
      if (errno =? Sys.EAGAIN) || (errno =? Sys.EWOULDBLOCK) then s
      else emit (Sys.Ecerr "Recv failed") s
  | RecvEOF :: _ => close_connection conn s
  | RecvData n m latency_ns :: script' =>
      recv_loop script' conn (dispatch n m latency_ns conn s)
  end.

(** [void HFTServer::handle_client_events(int client_fd)] *)
Definition handle_client_events (client_fd : Z) (script : list recv_result)
    (s : server) : server :=
  match connections_ s !! client_fd with
  | None => s
  | Some _ => recv_loop script client_fd s
  end.

End dispatch.

(** [void HFTServer::register_service(MessageType, shared_ptr<IMessageService>)] *)
Definition register_service (type : Z) (service : IMessageService) (s : server)
  : server :=
  set_services (<[type := service]> (services_ s)) s.

(** The services [main] registers. *)
Definition register_main_services (s : server) : server :=
  register_service MessageType.MARKET_DATA MarketDataService
    (register_service MessageType.ORDER_REPLACE OrderService
       (register_service MessageType.ORDER_CANCEL OrderService
          (register_service MessageType.ORDER_NEW OrderService s))).

(** *** The dispatcher *)

Lemma process_client_message_counts msg latency_ns conn s :
  total_messages_processed (stats_ (process_client_message msg latency_ns conn s))
  = u64 (total_messages_processed (stats_ s) + 1).
Proof.
  unfold process_client_message.
  destruct (services_ s !! Message.message_type msg); reflexivity.
Qed.

Lemma process_client_message_absent msg latency_ns conn s :
  services_ s !! Message.message_type msg = None ->
  process_client_message msg latency_ns conn s
  = set_stats (mkStats (u64 (total_messages_processed (stats_ s) + 1))
                       (total_connections (stats_ s))
                       (ema latency_ns (avg_latency_us (stats_ s)))
                       (peak_connections (stats_ s))) s.
Proof. intros H. unfold process_client_message. rewrite H. reflexivity. Qed.

Lemma process_client_message_present msg latency_ns conn s service :
  services_ s !! Message.message_type msg = Some service ->
  trace (process_client_message msg latency_ns conn s)
  = trace s ++ [Sys.Edeliver msg conn].
Proof. intros H. unfold process_client_message. rewrite H. reflexivity. Qed.

(** *** Closing a connection *)

Lemma close_connection_spec conn c s :
  connections_ s !! conn = Some c ->
  let s' := close_connection conn s in
  (fd c ∉ Sys.fds (kernel s')) /\
  ~ Sys.registered (epoll_fd_ s') (fd c) (kernel s') /\
  connections_ s' !! fd c = None /\
  connections_ s' = delete (fd c) (connections_ s) /\
  stats_ s' = stats_ s /\ trace s' = trace s.
Proof.
  intros Hc. unfold close_connection. rewrite Hc. simpl.
  split; [apply Sys.close_closed|].
  split; [apply Sys.close_keeps_unregistered, Sys.del_deregisters|].
  split; [apply lookup_delete_eq|]. auto.
Qed.

(** *** The per-connection routine *)

Section service_facts.

Context {layout : Layout}.

(** The record that [recv] returned is long enough for the type its tag
    announces: the condition under which the loop hands it on. *)
Definition complete (bytes_read : Z) (msg : Message.t) : bool :=
  let ty := Message.message_type msg in
  (sizeof_Message <=? bytes_read) &&
  (if (ty =? MessageType.ORDER_NEW) || (ty =? MessageType.ORDER_CANCEL)
      || (ty =? MessageType.ORDER_REPLACE)
   then sizeof_OrderMessage <=? bytes_read
   else if ty =? MessageType.MARKET_DATA
        then sizeof_MarketDataMessage <=? bytes_read
        else true).

Lemma dispatch_complete n m latency_ns conn s :
  dispatch n m latency_ns conn s
  = if complete n m then process_client_message m latency_ns conn s else s.
Proof.
  unfold dispatch, complete.
  destruct (sizeof_Message <=? n); [|reflexivity]. cbn [andb].
  destruct (_ || _); [reflexivity|].
  destruct (_ =? MessageType.MARKET_DATA); [reflexivity|]. reflexivity.
Qed.

Lemma recv_loop_would_block errno rest conn s :
  errno = Sys.EAGAIN \/ errno = Sys.EWOULDBLOCK ->
  recv_loop (RecvErr errno :: rest) conn s = s.
Proof. intros [-> | ->]; reflexivity. Qed.

Lemma recv_loop_error errno rest conn s :
  errno <> Sys.EAGAIN -> errno <> Sys.EWOULDBLOCK ->
  recv_loop (RecvErr errno :: rest) conn s = emit (Sys.Ecerr "Recv failed") s.
Proof.
  intros H1 H2. simpl.
  destruct (Z.eqb_spec errno Sys.EAGAIN); [contradiction|].
  destruct (Z.eqb_spec errno Sys.EWOULDBLOCK); [contradiction|]. reflexivity.
Qed.

Lemma close_connection_services conn s :
  services_ (close_connection conn s) = services_ s /\
  trace (close_connection conn s) = trace s.
Proof. unfold close_connection. destruct (connections_ s !! conn); auto. Qed.

Lemma process_client_message_services m latency_ns conn s :
  services_ (process_client_message m latency_ns conn s) = services_ s.
Proof.
  unfold process_client_message.
  destruct (services_ s !! Message.message_type m); reflexivity.
Qed.

(** What a run of the loop adds to the trace, and that every record in it
    that reached a handler has a tag with a registered handler. *)
Lemma recv_loop_deliveries script : forall conn s,
  services_ (recv_loop script conn s) = services_ s /\
  exists new,
    trace (recv_loop script conn s) = trace s ++ new /\
    forall m c, Sys.Edeliver m c ∈ new ->
                is_Some (services_ s !! Message.message_type m).
Proof.
  induction script as [|r script IH]; intros conn s.
  - split; [reflexivity|]. exists []. rewrite app_nil_r.
    split; [reflexivity|]. intros m c H. by apply elem_of_nil in H.
  - destruct r as [n m latency_ns| |errno].
    + cbn [recv_loop]. rewrite dispatch_complete.
      destruct (complete n m); [|apply IH].
      destruct (IH conn (process_client_message m latency_ns conn s))
        as (Hs & new & Ht & Hn).
      rewrite process_client_message_services in Hs, Hn.
      split; [exact Hs|].
      destruct (services_ s !! Message.message_type m) as [service|] eqn:Hsvc.
      * exists (Sys.Edeliver m conn :: new).
        rewrite Ht, (process_client_message_present _ _ _ _ _ Hsvc).
        rewrite <- app_assoc. split; [reflexivity|].
        intros m' c' Hin. apply elem_of_cons in Hin as [Heq|Hin].
        -- injection Heq as -> _. rewrite Hsvc. by eexists.
        -- by apply (Hn m' c').
      * exists new. rewrite Ht, (process_client_message_absent _ _ _ _ Hsvc).
        split; [reflexivity | exact Hn].
    + cbn [recv_loop]. destruct (close_connection_services conn s) as [H1 H2].
      split; [exact H1|]. exists []. rewrite app_nil_r.
      split; [exact H2|]. intros m c H. by apply elem_of_nil in H.
    + cbn [recv_loop]. destruct (_ || _).
      * split; [reflexivity|]. exists []. rewrite app_nil_r.
        split; [reflexivity|]. intros m c H. by apply elem_of_nil in H.
      * split; [reflexivity|]. exists [Sys.Ecerr "Recv failed"].
        split; [reflexivity|]. intros m c H.
        apply list_elem_of_singleton in H. discriminate.
Qed.

(** The records of [script] that the loop hands to the dispatcher: the
    complete ones among those read before the loop ends. *)
Fixpoint fed (script : list recv_result) : Z :=
  match script with
  | RecvData n m _ :: script' => (if complete n m then 1 else 0) + fed script'
  | _ => 0
  end.

Lemma fed_nonneg script : 0 <= fed script.
Proof.
  induction script as [|[n m l| |e] script IH]; simpl; try lia.
  destruct (complete n m); lia.
Qed.

Lemma recv_loop_counts script : forall conn s,
  0 <= total_messages_processed (stats_ s) < two64 ->
  total_messages_processed (stats_ (recv_loop script conn s))
  = u64 (total_messages_processed (stats_ s) + fed script).
Proof.
  induction script as [|r script IH]; intros conn s Hr.
  - simpl. rewrite Z.add_0_r. symmetry. by apply u64_small.
  - destruct r as [n m latency_ns| |errno]; cbn [recv_loop fed].
    + rewrite dispatch_complete. destruct (complete n m).
      * rewrite IH; rewrite process_client_message_counts; [|apply u64_range].
        unfold u64. rewrite Zplus_mod_idemp_l. f_equal. lia.
      * rewrite IH by exact Hr. f_equal.
    + rewrite Z.add_0_r, u64_small by exact Hr.
      unfold close_connection. destruct (connections_ s !! conn); reflexivity.
    + rewrite Z.add_0_r, u64_small by exact Hr.
      destruct (_ || _); reflexivity.
Qed.

Lemma handle_client_events_deliveries client_fd script s :
  exists new,
    trace (handle_client_events client_fd script s) = trace s ++ new /\
    forall m c, Sys.Edeliver m c ∈ new ->
                is_Some (services_ s !! Message.message_type m).
Proof.
  unfold handle_client_events. destruct (connections_ s !! client_fd).
  - apply recv_loop_deliveries.
  - exists []. rewrite app_nil_r. split; [reflexivity|].
    intros m c H. by apply elem_of_nil in H.
Qed.

End service_facts.

(** *** Accepting *)

Lemma accept_connections_once backlog s :
  snd (accept_connections backlog s) = tail backlog /\
  (connections_ (fst (accept_connections backlog s)) = connections_ s \/
   exists a conn, head backlog = Some (Sys.AcceptOk a) /\
     fd conn = Sys.a_fd a /\
     connections_ (fst (accept_connections backlog s))
     = <[Sys.a_fd a := conn]> (connections_ s)).
Proof.
  destruct backlog as [|[a|errno] rest]; simpl.
  - auto.
  - destruct (Sys.epoll_ctl_add _ _ _ _ _); simpl; [|auto].
    split; [reflexivity|]. right. eexists a, _. repeat split; reflexivity.
  - destruct (_ || _); simpl; auto.
Qed.

(** *** Stopping *)

(** A descriptor is not open once it was closed, whatever was closed or
    joined afterwards. *)
Ltac not_open :=
  repeat first
    [ apply Sys.close_closed
    | let H := fresh in
      intros H; apply Sys.close_all_fds_subseteq in H; revert H
    | let H := fresh in
      intros H; apply Sys.close_fds_subseteq in H; revert H
    | rewrite Sys.join_all_fds ].

Lemma stop_not_running s : running_ s = false -> stop s = s.
Proof. intros H. unfold stop. rewrite H. reflexivity. Qed.

Lemma stop_running s :
  running_ s = true ->
  let s' := stop s in
  running_ s' = false /\
  server_socket_ s' = -1 /\ epoll_fd_ s' = -1 /\
  (server_socket_ s <> -1 -> server_socket_ s ∉ Sys.fds (kernel s')) /\
  (epoll_fd_ s <> -1 -> epoll_fd_ s ∉ Sys.fds (kernel s')) /\
  worker_threads_ s' = [] /\
  (forall tid, tid ∈ worker_threads_ s -> tid ∉ Sys.threads (kernel s')) /\
  connections_ s' = ∅ /\
  (forall key c, connections_ s !! key = Some c -> fd c ∉ Sys.fds (kernel s')).
Proof.
  intros Hrun. unfold stop. rewrite Hrun. cbn [negb].
  cbn -[Sys.close Sys.close_all Sys.join_all Z.eqb].
  destruct (Z.eqb_spec (server_socket_ s) (-1)) as [Hl|Hl];
    cbn -[Sys.close Sys.close_all Sys.join_all Z.eqb];
    destruct (Z.eqb_spec (epoll_fd_ s) (-1)) as [He|He];
    cbn -[Sys.close Sys.close_all Sys.join_all Z.eqb].
  all: split; [reflexivity|].
  all: split; [first [reflexivity | assumption]|].
  all: split; [first [reflexivity | assumption]|].
  all: split; [intros ?; try contradiction; not_open|].
  all: split; [intros ?; try contradiction; not_open|].
  all: split; [reflexivity|].
  all: split;
    [intros tid Htid; rewrite Sys.close_all_threads, ?Sys.close_threads;
     rewrite Sys.join_all_threads; tauto|].
  all: split; [reflexivity|].
  all: intros key c Hc; apply Sys.close_all_closed;
    apply list_elem_of_fmap; exists c; (split; [reflexivity|]);
    apply list_elem_of_fmap; exists (key, c); (split; [reflexivity|]);
    by apply elem_of_map_to_list.
Qed.

Lemma stop_idempotent s : stop (stop s) = stop s.
Proof.
  destruct (running_ s) eqn:Hrun.
  - apply stop_not_running. by destruct (stop_running s Hrun) as [H _].
  - by rewrite !(stop_not_running s Hrun).
Qed.

(** *** The states the server reaches *)

Section reach.

Context {layout : Layout}.

(** One call of a routine of the server, with whatever the environment
    answers. *)
Inductive step : server -> server -> Prop :=
| step_initialize env ip port n s :
    step s (snd (initialize env ip port n s))
| step_register type service s :
    step s (register_service type service s)
| step_start s :
    step s (start s)
| step_stop s :
    step s (stop s)
| step_accept backlog s :
    step s (fst (accept_connections backlog s))
| step_client client_fd script s :
    step s (handle_client_events client_fd script s).

Definition reachable (s : server) : Prop :=
  exists k, rtc step (initial k) s.

(** The peak is at least the number of connections in the table. *)
Definition peak_covers (s : server) : Prop :=
  Z.of_nat (size (connections_ s)) <= peak_connections (stats_ s).

Lemma initialize_keeps env ip port n s :
  connections_ (snd (initialize env ip port n s)) = connections_ s /\
  stats_ (snd (initialize env ip port n s)) = stats_ s.
Proof.
  unfold initialize. cbn -[Sys.close Sys.open_fd Sys.epoll_create Sys.epoll_ctl_add Z.eqb].
  destruct (i_socket env =? -1); [auto|].
  destruct (i_bind env =? -1); [auto|].
  destruct (i_listen env =? -1); [auto|].
  cbn -[Sys.close Sys.open_fd Sys.epoll_create Sys.epoll_ctl_add Z.eqb].
  destruct (i_epoll_create env =? -1); [auto|].
  cbn -[Sys.close Sys.open_fd Sys.epoll_create Sys.epoll_ctl_add Z.eqb].
  destruct (Sys.epoll_ctl_add _ _ _ _ _); auto.
Qed.

Lemma spawn_workers_keeps n : forall s,
  connections_ (spawn_workers n s) = connections_ s /\
  stats_ (spawn_workers n s) = stats_ s.
Proof.
  induction n as [|n IH]; intros s; [auto|]. simpl.
  destruct (IH (set_worker_threads (worker_threads_ s ++ [Sys.next_tid (kernel s)])
                  (set_kernel (Sys.mk (Sys.fds (kernel s)) (Sys.epolls (kernel s))
                                 ({[Sys.next_tid (kernel s)]} ∪ Sys.threads (kernel s))
                                 (S (Sys.next_tid (kernel s)))) s))) as [H1 H2].
  split; [exact H1 | exact H2].
Qed.

Lemma start_keeps s :
  connections_ (start s) = connections_ s /\ stats_ (start s) = stats_ s.
Proof.
  unfold start. destruct (running_ s); [auto|].
  apply (spawn_workers_keeps _ (set_running true s)).
Qed.

Lemma stop_table s :
  (connections_ (stop s) = connections_ s \/ connections_ (stop s) = ∅) /\
  stats_ (stop s) = stats_ s.
Proof.
  unfold stop. destruct (running_ s); cbn [negb]; [|auto].
  cbn -[Sys.close Sys.close_all Sys.join_all Z.eqb].
  destruct (server_socket_ s =? -1);
    cbn -[Sys.close Sys.close_all Sys.join_all Z.eqb];
    destruct (epoll_fd_ s =? -1);
    cbn -[Sys.close Sys.close_all Sys.join_all Z.eqb]; auto.
Qed.

Lemma size_alter (f : Connection -> Connection) (i : Z) (m : gmap Z Connection) :
  size (alter f i m) = size m.
Proof. rewrite <- !size_dom, dom_alter_L. reflexivity. Qed.

Lemma size_delete_le (i : Z) (m : gmap Z Connection) :
  (size (delete i m) <= size m)%nat.
Proof. rewrite map_size_delete. destruct (m !! i); simpl; lia. Qed.

Lemma process_client_message_table m latency_ns conn s :
  size (connections_ (process_client_message m latency_ns conn s))
  = size (connections_ s) /\
  peak_connections (stats_ (process_client_message m latency_ns conn s))
  = peak_connections (stats_ s).
Proof.
  unfold process_client_message.
  destruct (services_ s !! Message.message_type m); simpl; [|auto].
  split; [apply size_alter | reflexivity].
Qed.

Lemma recv_loop_table script : forall conn s,
  (size (connections_ (recv_loop script conn s)) <= size (connections_ s))%nat /\
  peak_connections (stats_ (recv_loop script conn s))
  = peak_connections (stats_ s).
Proof.
  induction script as [|r script IH]; intros conn s; [simpl; auto|].
  destruct r as [n m latency_ns| |errno]; cbn [recv_loop].
  - rewrite dispatch_complete. destruct (complete n m); [|apply IH].
    destruct (IH conn (process_client_message m latency_ns conn s)) as [H1 H2].
    destruct (process_client_message_table m latency_ns conn s) as [H3 H4].
    split; [lia | congruence].
  - unfold close_connection. destruct (connections_ s !! conn); simpl; [|auto].
    split; [apply size_delete_le | reflexivity].
  - destruct (_ || _); simpl; auto.
Qed.

Lemma step_peak_covers s s' : step s s' -> peak_covers s -> peak_covers s'.
Proof.
  unfold peak_covers. intros Hstep Hinv. destruct Hstep.
  - destruct (initialize_keeps env ip port n s) as [-> ->]. exact Hinv.
  - exact Hinv.
  - destruct (start_keeps s) as [-> ->]. exact Hinv.
  - destruct (stop_table s) as [[-> | ->] ->]; [exact Hinv|].
    rewrite map_size_empty. lia.
  - destruct backlog as [|[a|errno] rest]; simpl; [exact Hinv| |].
    + destruct (Sys.epoll_ctl_add _ _ _ _ _); simpl; [lia | exact Hinv].
    + destruct (_ || _); exact Hinv.
  - unfold handle_client_events. destruct (connections_ s !! client_fd); [|exact Hinv].
    destruct (recv_loop_table script client_fd s) as [H1 H2]. lia.
Qed.

Lemma step_peak_monotone s s' :
  step s s' -> peak_connections (stats_ s) <= peak_connections (stats_ s').
Proof.
  intros Hstep. destruct Hstep.
  - destruct (initialize_keeps env ip port n s) as [_ ->]. lia.
  - simpl. lia.
  - destruct (start_keeps s) as [_ ->]. lia.
  - destruct (stop_table s) as [_ ->]. lia.
  - destruct backlog as [|[a|errno] rest]; simpl; [lia| |].
    + destruct (Sys.epoll_ctl_add _ _ _ _ _); simpl; lia.
    + destruct (_ || _); simpl; lia.
  - unfold handle_client_events. destruct (connections_ s !! client_fd); [|lia].
    destruct (recv_loop_table script client_fd s) as [_ ->]. lia.
Qed.

Lemma reachable_peak_covers s : reachable s -> peak_covers s.
Proof.
  intros [k Hk]. revert s Hk. apply rtc_ind_r.
  - unfold peak_covers. simpl. rewrite map_size_empty. lia.
  - intros y z _ Hstep Hy. eapply step_peak_covers; eauto.
Qed.

Lemma rtc_peak_monotone s s' :
  rtc step s s' -> peak_connections (stats_ s) <= peak_connections (stats_ s').
Proof.
  induction 1 as [|s1 s2 s3 Hstep _ IH]; [lia|].
  apply step_peak_monotone in Hstep. lia.
Qed.

End reach.

End HFT.

(** ** The low-latency server ([ultra_hft_server.h], [ultra_hft_server.cpp]) *)

Module Ultra.

(** [struct UltraMessage] *)
Record UltraMessage : Type := mkMessage {
  message_id : Z;
  timestamp : Z;
  message_type : Z;
  payload_size : Z;
  payload : list Z
}.

(** [struct UltraConnection].  An [UltraConnection*] is modelled by the
    position of the record in [connections_], which never loses an element. *)
Record UltraConnection : Type := mkConnection {
  fd : Z;
  addr : Z;
  last_heartbeat : Z;
  client_id : Z;
  is_authenticated : bool;
  is_active : bool
}.

(** [struct UltraServerStats] *)
Record UltraServerStats : Type := mkStats {
  total_messages : Z;
  active_connections : Z;
  peak_connections : Z;
  total_latency : Z;
  message_count : Z
}.

(** A [double] that is the zero constant or the quotient of two converted
    64-bit counters. *)
Inductive double : Type :=
| DZero
| DQuot (numerator denominator : Z).

(** [operator/] on [double]: the quotient, provided the divisor is not
    zero. *)
Definition double_div (a b : Z) : option double :=
  if b =? 0 then None else Some (DQuot a b).

(** The rational a [double] of the model stands for (conversions and the
    division taken as exact). *)
Definition value (d : double) : Q :=
  match d with
  | DZero => 0%Q
  | DQuot a b => (inject_Z a / inject_Z b)%Q
  end.

(** [double UltraServerStats::get_average_latency() const]; [None] would be
    a division by zero. *)
Definition get_average_latency (st : UltraServerStats) : option double :=
  let count := message_count st in
  if count =? 0 then Some DZero
  else double_div (total_latency st) count.

(** The server but for [message_queue_] and [connection_queue_], which
    nothing ever pushes to. *)
Record server : Type := mkServer {
  server_ip_ : string;
  server_port_ : Z;
  thread_count_ : nat;
  running_ : bool;
  server_socket_ : Z;
  epoll_fd_ : Z;
  worker_threads_ : list nat;
  connections_ : list UltraConnection;
  connection_count_ : Z;
  stats_ : UltraServerStats;
  send_buffer_ : list UltraMessage;
  recv_buffer_ : list UltraMessage;
  send_buffer_index_ : Z;
  recv_buffer_index_ : Z;
  kernel : Sys.t nat;
  trace : list Sys.event
}.

Definition set_running (x : bool) (s : server) : server :=
  mkServer (server_ip_ s) (server_port_ s) (thread_count_ s) x
    (server_socket_ s) (epoll_fd_ s) (worker_threads_ s) (connections_ s)
    (connection_count_ s) (stats_ s) (send_buffer_ s) (recv_buffer_ s)
    (send_buffer_index_ s) (recv_buffer_index_ s) (kernel s) (trace s).
Definition set_server_socket (x : Z) (s : server) : server :=
  mkServer (server_ip_ s) (server_port_ s) (thread_count_ s) (running_ s) x
    (epoll_fd_ s) (worker_threads_ s) (connections_ s) (connection_count_ s)
    (stats_ s) (send_buffer_ s) (recv_buffer_ s) (send_buffer_index_ s)
    (recv_buffer_index_ s) (kernel s) (trace s).
Definition set_epoll_fd (x : Z) (s : server) : server :=
  mkServer (server_ip_ s) (server_port_ s) (thread_count_ s) (running_ s)
    (server_socket_ s) x (worker_threads_ s) (connections_ s)
    (connection_count_ s) (stats_ s) (send_buffer_ s) (recv_buffer_ s)
    (send_buffer_index_ s) (recv_buffer_index_ s) (kernel s) (trace s).
Definition set_worker_threads (x : list nat) (s : server) : server :=
  mkServer (server_ip_ s) (server_port_ s) (thread_count_ s) (running_ s)
    (server_socket_ s) (epoll_fd_ s) x (connections_ s) (connection_count_ s)
    (stats_ s) (send_buffer_ s) (recv_buffer_ s) (send_buffer_index_ s)
    (recv_buffer_index_ s) (kernel s) (trace s).
Definition set_connections (x : list UltraConnection) (s : server) : server :=
  mkServer (server_ip_ s) (server_port_ s) (thread_count_ s) (running_ s)
    (server_socket_ s) (epoll_fd_ s) (worker_threads_ s) x
    (connection_count_ s) (stats_ s) (send_buffer_ s) (recv_buffer_ s)
    (send_buffer_index_ s) (recv_buffer_index_ s) (kernel s) (trace s).
Definition set_connection_count (x : Z) (s : server) : server :=
  mkServer (server_ip_ s) (server_port_ s) (thread_count_ s) (running_ s)
    (server_socket_ s) (epoll_fd_ s) (worker_threads_ s) (connections_ s) x
    (stats_ s) (send_buffer_ s) (recv_buffer_ s) (send_buffer_index_ s)
    (recv_buffer_index_ s) (kernel s) (trace s).
Definition set_stats (x : UltraServerStats) (s : server) : server :=
  mkServer (server_ip_ s) (server_port_ s) (thread_count_ s) (running_ s)
    (server_socket_ s) (epoll_fd_ s) (worker_threads_ s) (connections_ s)
    (connection_count_ s) x (send_buffer_ s) (recv_buffer_ s)
    (send_buffer_index_ s) (recv_buffer_index_ s) (kernel s) (trace s).
Definition set_send_buffer (x : list UltraMessage) (s : server) : server :=
  mkServer (server_ip_ s) (server_port_ s) (thread_count_ s) (running_ s)
    (server_socket_ s) (epoll_fd_ s) (worker_threads_ s) (connections_ s)
    (connection_count_ s) (stats_ s) x (recv_buffer_ s) (send_buffer_index_ s)
    (recv_buffer_index_ s) (kernel s) (trace s).
Definition set_recv_buffer (x : list UltraMessage) (s : server) : server :=
  mkServer (server_ip_ s) (server_port_ s) (thread_count_ s) (running_ s)
    (server_socket_ s) (epoll_fd_ s) (worker_threads_ s) (connections_ s)
    (connection_count_ s) (stats_ s) (send_buffer_ s) x (send_buffer_index_ s)
    (recv_buffer_index_ s) (kernel s) (trace s).
Definition set_send_buffer_index (x : Z) (s : server) : server :=
  mkServer (server_ip_ s) (server_port_ s) (thread_count_ s) (running_ s)
    (server_socket_ s) (epoll_fd_ s) (worker_threads_ s) (connections_ s)
    (connection_count_ s) (stats_ s) (send_buffer_ s) (recv_buffer_ s) x
    (recv_buffer_index_ s) (kernel s) (trace s).
Definition set_recv_buffer_index (x : Z) (s : server) : server :=
  mkServer (server_ip_ s) (server_port_ s) (thread_count_ s) (running_ s)
    (server_socket_ s) (epoll_fd_ s) (worker_threads_ s) (connections_ s)
    (connection_count_ s) (stats_ s) (send_buffer_ s) (recv_buffer_ s)
    (send_buffer_index_ s) x (kernel s) (trace s).
Definition set_kernel (x : Sys.t nat) (s : server) : server :=
  mkServer (server_ip_ s) (server_port_ s) (thread_count_ s) (running_ s)
    (server_socket_ s) (epoll_fd_ s) (worker_threads_ s) (connections_ s)
    (connection_count_ s) (stats_ s) (send_buffer_ s) (recv_buffer_ s)
    (send_buffer_index_ s) (recv_buffer_index_ s) x (trace s).
Definition emit (e : Sys.event) (s : server) : server :=
  mkServer (server_ip_ s) (server_port_ s) (thread_count_ s) (running_ s)
    (server_socket_ s) (epoll_fd_ s) (worker_threads_ s) (connections_ s)
    (connection_count_ s) (stats_ s) (send_buffer_ s) (recv_buffer_ s)
    (send_buffer_index_ s) (recv_buffer_index_ s) (kernel s) (trace s ++ [e]).

Definition sys (f : Sys.t nat -> Sys.t nat) (s : server) : server :=
  set_kernel (f (kernel s)) s.

(** [UltraMessage()] leaves the payload as it finds it. *)
Definition UltraMessage_ctor (payload : list Z) : UltraMessage :=
  mkMessage 0 0 0 0 payload.

(** The server as [UltraHFTServer(ip, port, threads)] leaves it; the two
    descriptors are not initialised by the constructor and hold [sock] and
    [ep], and the buffers hold [send] and [recv]. *)
Definition initial (ip : string) (port : Z) (threads : nat) (sock ep : Z)
    (send recv : list UltraMessage) (k : Sys.t nat) : server :=
  {| server_ip_ := ip; server_port_ := port; thread_count_ := threads;
     running_ := false; server_socket_ := sock; epoll_fd_ := ep;
     worker_threads_ := []; connections_ := []; connection_count_ := 0;
     stats_ := mkStats 0 0 0 0 0;
     send_buffer_ := send; recv_buffer_ := recv;
     send_buffer_index_ := 0; recv_buffer_index_ := 0;
     kernel := k; trace := [] |}.

(** The buffers as their type has them: [std::array<UltraMessage, 1024>],
    with counters that are [size_t]. *)
Definition pool_wf (s : server) : Prop :=
  length (send_buffer_ s) = 1024%nat /\ length (recv_buffer_ s) = 1024%nat /\
  0 <= send_buffer_index_ s < two64 /\ 0 <= recv_buffer_index_ s < two64.

(** [UltraHFTServer::get_next_send_buffer()]: the slot is
    returned as its position in [send_buffer_]. *)
Definition get_next_send_buffer (s : server) : nat * server :=
  let previous := send_buffer_index_ s in
  let s := set_send_buffer_index (size_t_add previous 1) s in
  let index := previous mod Z.of_nat (length (send_buffer_ s)) in
  (Z.to_nat index, s).

(** [UltraHFTServer::get_next_recv_buffer()] *)
Definition get_next_recv_buffer (s : server) : nat * server :=
  let previous := recv_buffer_index_ s in
  let s := set_recv_buffer_index (size_t_add previous 1) s in
  let index := previous mod Z.of_nat (length (recv_buffer_ s)) in
  (Z.to_nat index, s).

(** [n] calls of [get_next_send_buffer] in a row: the slots they return. *)
Fixpoint send_slots (n : nat) (s : server) : list nat :=
  match n with
  | O => []
  | S n' => let '(slot, s') := get_next_send_buffer s in slot :: send_slots n' s'
  end.

Fixpoint recv_slots (n : nat) (s : server) : list nat :=
  match n with
  | O => []
  | S n' => let '(slot, s') := get_next_recv_buffer s in slot :: recv_slots n' s'
  end.

(** [void UltraHFTServer::update_stats(uint64_t latency)] *)
Definition update_stats (latency : Z) (s : server) : server :=
  let st := stats_ s in
  set_stats (mkStats (total_messages st) (active_connections st)
                     (peak_connections st)
                     (u64 (total_latency st + latency))
                     (u64 (message_count st + 1))) s.

(** What the system calls of [initialize] answer. *)
Record init_env : Type := mkInitEnv {
  i_socket : Z;
  i_sockopts_ok : bool;
  i_nonblock_ok : bool;
  i_bind : Z;
  i_listen : Z;
  i_epoll_create : Z;
  i_epoll_ctl_ok : bool
}.

(** [bool UltraHFTServer::initialize()] *)
Definition initialize (env : init_env) (s : server) : bool * server :=
  let s := set_server_socket (i_socket env) s in
  if server_socket_ s <? 0 then (false, emit (Sys.Ecerr "Failed to create socket") s)
  else
    let s := sys (Sys.open_fd (server_socket_ s)) s in
    if negb (i_sockopts_ok env) then
      (false, sys (Sys.close (server_socket_ s))
                (emit (Sys.Ecerr "Failed to setup socket options") s))
    else if negb (i_nonblock_ok env) then
      (false, sys (Sys.close (server_socket_ s))
                (emit (Sys.Ecerr "Failed to set non-blocking mode") s))
    else if i_bind env <? 0 then
      (false, sys (Sys.close (server_socket_ s))
                (emit (Sys.Ecerr "Failed to bind socket") s))
    else if i_listen env <? 0 then
      (false, sys (Sys.close (server_socket_ s))
                (emit (Sys.Ecerr "Failed to listen") s))
    else
      let s := set_epoll_fd (i_epoll_create env) s in
      if epoll_fd_ s <? 0 then
        (false, sys (Sys.close (server_socket_ s))
                  (emit (Sys.Ecerr "Failed to create epoll") s))
      else
        let s := sys (Sys.epoll_create (epoll_fd_ s)) s in
        match Sys.epoll_ctl_add (i_epoll_ctl_ok env) (epoll_fd_ s) (server_socket_ s)
                None (kernel s) with
        | None =>
            let s := emit (Sys.Ecerr "Failed to add server socket to epoll") s in
            let s := sys (Sys.close (epoll_fd_ s)) s in
            (false, sys (Sys.close (server_socket_ s)) s)
        | Some k => (true, set_kernel k s)
        end.

(** [worker_threads_.emplace_back(&UltraHFTServer::worker_thread, this)],
    [n] times. *)
Fixpoint spawn_workers (n : nat) (s : server) : server :=
  match n with
  | O => s
  | S n' =>
      let '(tid, k) := Sys.spawn (kernel s) in
      spawn_workers n' (set_worker_threads (worker_threads_ s ++ [tid]) (set_kernel k s))
  end.

(** [bool UltraHFTServer::start()] *)
Definition start (s : server) : bool * server :=
  if running_ s then (false, emit (Sys.Ecerr "Server already running") s)
  else (true, spawn_workers (thread_count_ s) (set_running true s)).

(** [void UltraHFTServer::stop()] *)
Definition stop (s : server) : server :=
  if negb (running_ s) then s
  else
    let s := set_running false s in
    let s := sys (Sys.join_all (worker_threads_ s)) s in
    let s := set_worker_threads [] s in
    let s :=
      if 0 <=? epoll_fd_ s
      then set_epoll_fd (-1) (sys (Sys.close (epoll_fd_ s)) s)
      else s in
    if 0 <=? server_socket_ s
    then set_server_socket (-1) (sys (Sys.close (server_socket_ s)) s)
    else s.

(** [void UltraHFTServer::close_connection(conn)] *)
Definition close_connection (conn : option nat) (s : server) : server :=
  match conn with
  | None => s
  | Some i =>
      match connections_ s !! i with
      | None => s
      | Some c =>
          let c' := mkConnection (fd c) (addr c) (last_heartbeat c) (client_id c)
                      (is_authenticated c) false in
          let s := set_connections (<[i := c']> (connections_ s)) s in
          let s := sys (Sys.epoll_ctl_del (epoll_fd_ s) (fd c)) s in
          let s := sys (Sys.close (fd c)) s in
          let st := stats_ s in
          set_stats (mkStats (total_messages st)
                             (u64 (active_connections st - 1))
                             (peak_connections st)
                             (total_latency st) (message_count st)) s
      end
  end.

(** How a call of a routine ends: it returns, or it runs into undefined
    behaviour; either way with the server as the routine left it. *)
Inductive outcome : Type :=
| Returned (s : server)
| Faulted (s : server).

Definition state_of (o : outcome) : server :=
  match o with
  | Returned s => s
  | Faulted s => s
  end.

(** [void UltraHFTServer::accept_connections()], with the queue of the
    listener as for the baseline server.

    A connection that is admitted is moved into [connections_]
    ([connections_.push_back(std::move(conn))]), the counters are brought
    up to date, and the line that reports the connection then reads
    [conn->client_id] through [conn], which the move has left null: the
    routine does not get past that line. *)
Fixpoint accept_connections (backlog : list Sys.accept_result) (s : server)
  : outcome * list Sys.accept_result :=
  match backlog with
  | [] => (Returned s, [])
  | Sys.AcceptErr errno :: rest =>
      if (errno =? Sys.EAGAIN) || (errno =? Sys.EWOULDBLOCK) then (Returned s, rest)
      else (Returned (emit (Sys.Ecerr "Accept failed") s), rest)
  | Sys.AcceptOk a :: rest =>
      let client_fd := Sys.a_fd a in
      let s := sys (Sys.open_fd client_fd) s in
      if negb (Sys.a_sockopts_ok a) || negb (Sys.a_nonblock_ok a) then
        accept_connections rest (sys (Sys.close client_fd) s)
      else
        let conn := {| fd := client_fd; addr := Sys.a_addr a;
                       last_heartbeat := Sys.a_now a;
                       client_id := connection_count_ s;
                       is_authenticated := true; is_active := true |} in
        let s := set_connection_count (size_t_add (connection_count_ s) 1) s in
        match Sys.epoll_ctl_add (Sys.a_epoll_ok a) (epoll_fd_ s) client_fd
                (Some (length (connections_ s))) (kernel s) with
        | None =>
            accept_connections rest
              (sys (Sys.close client_fd)
                 (emit (Sys.Ecerr "Failed to add client to epoll") s))
        | Some k =>
            let s := set_kernel k s in
            let s := set_connections (connections_ s ++ [conn]) s in
            let st := stats_ s in
            let active := u64 (active_connections st + 1) in
            let peak := peak_connections st in
            let s :=
              set_stats (mkStats (total_messages st) active
                                 (if peak <? active then active else peak)
                                 (total_latency st) (message_count st)) s in
            (Faulted s, rest)
        end
  end.

(** [bool UltraHFTServer::send_response(conn, msg)];
    [sent] is what [send] returns. *)
Definition send_response {layout : Layout} (sent : Z) (conn : option nat)
    (msg : option nat) (s : server) : bool * server :=
  match conn, msg with
  | Some i, Some j =>
      match connections_ s !! i, send_buffer_ s !! j with
      | Some c, Some m =>
          if negb (is_active c) then (false, s)
          else (sent =? sizeof_UltraMessage,
                emit (Sys.Esend (fd c) (message_id m) (message_type m)) s)
      | _, _ => (false, s)
      end
  | _, _ => (false, s)
  end.

(** What [recv] returns, as for the baseline server. *)
Inductive recv_result : Type :=
| RecvData (n : Z) (m : UltraMessage)
| RecvEOF
| RecvErr (errno : Z).

(** What the environment decides during one call of
    [handle_client_events]: the result of [recv], the two readings of the
    clock and the result of [send]. *)
Record io_env : Type := mkIo {
  io_recv : recv_result;
  io_receive_time : Z;
  io_response_time : Z;
  io_sent : Z
}.

Section dispatch.

Context {layout : Layout}.

(** The acknowledgement both handlers send: the next send slot gets the
    identifier of the request, the time and [ack_type], and goes out. *)
Definition acknowledge (ack_type : Z) (io : io_env) (msg : nat) (conn : option nat)
    (s : server) : server :=
  let request := recv_buffer_ s !! msg in
  let '(response, s) := get_next_send_buffer s in
  match send_buffer_ s !! response, request with
  | Some r, Some m =>
      let r' := mkMessage (message_id m) (io_response_time io) ack_type
                  (payload_size r) (payload r) in
      let s := set_send_buffer (<[response := r']> (send_buffer_ s)) s in
      snd (send_response (io_sent io) conn (Some response) s)
  | _, _ => s
  end.

(** [void UltraHFTServer::process_order_message(msg, conn)] *)
Definition process_order_message (io : io_env) (msg conn : option nat)
    (s : server) : server :=
  match msg, conn with
  | Some m, Some _ => acknowledge 3 io m conn s
  | _, _ => s
  end.

(** [void UltraHFTServer::process_market_data_message(msg, conn)] *)
Definition process_market_data_message (io : io_env) (msg conn : option nat)
    (s : server) : server :=
  match msg, conn with
  | Some m, Some _ => acknowledge 4 io m conn s
  | _, _ => s
  end.

(** [void UltraHFTServer::process_message(msg, conn)];
    [msg] is a slot of [recv_buffer_]. *)
Definition process_message (io : io_env) (msg conn : option nat) (s : server)
  : server :=
  match msg, conn with
  | Some m, Some _ =>
      let ty := default 0 (message_type <$> recv_buffer_ s !! m) in
      let s :=
        if ty =? 1 then process_order_message io msg conn s
        else if ty =? 2 then process_market_data_message io msg conn s
        else s in
      let st := stats_ s in
      set_stats (mkStats (u64 (total_messages st + 1)) (active_connections st)
                         (peak_connections st) (total_latency st)
                         (message_count st)) s
  | _, _ => s
  end.

(** [void UltraHFTServer::handle_client_events(int client_fd)] *)
Definition handle_client_events (client_fd : Z) (io : io_env) (s : server)
  : server :=
  match list_find (fun c => fd c = client_fd) (connections_ s) with
  | None => s
  | Some (conn, _) =>
      let '(msg, s) := get_next_recv_buffer s in
      match io_recv io with
      | RecvErr errno =>
          if (errno =? Sys.EAGAIN) || (errno =? Sys.EWOULDBLOCK) then s
          else close_connection (Some conn) s
      | RecvEOF => close_connection (Some conn) s
      | RecvData bytes_read m =>
          let s := set_recv_buffer (<[msg := m]> (recv_buffer_ s)) s in
          if bytes_read <? sizeof_UltraMessage then s
          else
            let latency := u64 (io_receive_time io - timestamp m) in
            let s := update_stats latency s in
            process_message io (Some msg) (Some conn) s
      end
  end.

(** What a worker does with one event of [epoll_wait]: the listener's
    carries [nullptr], a client's the connection it was registered with. *)
Definition on_event (tag : option nat) (backlog : list Sys.accept_result)
    (io : io_env) (s : server) : outcome :=
  match tag with
  | None => fst (accept_connections backlog s)
  | Some conn =>
      match connections_ s !! conn with
      | Some c =>
          if is_active c then Returned (handle_client_events (fd c) io s)
          else Returned s
      | None => Returned s
      end
  end.

End dispatch.

(** *** The buffer pool *)

Lemma u64_mod_1024 x : u64 x mod 1024 = x mod 1024.
Proof.
  unfold u64. apply Z.mod_mod_divide. exists (2 ^ 54). reflexivity.
Qed.

Lemma mod_1024_distinct (c : Z) (i j : nat) :
  (i < j < i + 1024)%nat ->
  (c + Z.of_nat i) mod 1024 <> (c + Z.of_nat j) mod 1024.
Proof.
  intros Hij Heq.
  assert (H : (Z.of_nat j - Z.of_nat i) mod 1024 = 0).
  { replace (Z.of_nat j - Z.of_nat i)
      with ((c + Z.of_nat j) - (c + Z.of_nat i)) by lia.
    rewrite Zminus_mod, Heq, Z.sub_diag. reflexivity. }
  rewrite Z.mod_small in H by lia. lia.
Qed.

Lemma pool_wf_next_send s : pool_wf s -> pool_wf (snd (get_next_send_buffer s)).
Proof.
  intros (H1 & H2 & H3 & H4). unfold pool_wf, get_next_send_buffer; simpl.
  pose proof (u64_range (send_buffer_index_ s + 1)). unfold size_t_add. tauto.
Qed.

Lemma pool_wf_next_recv s : pool_wf s -> pool_wf (snd (get_next_recv_buffer s)).
Proof.
  intros (H1 & H2 & H3 & H4). unfold pool_wf, get_next_recv_buffer; simpl.
  pose proof (u64_range (recv_buffer_index_ s + 1)). unfold size_t_add. tauto.
Qed.

Lemma send_slots_lookup n : forall s i, pool_wf s -> (i < n)%nat ->
  send_slots n s !! i
  = Some (Z.to_nat ((send_buffer_index_ s + Z.of_nat i) mod 1024)).
Proof.
  induction n as [|n IH]; intros s i Hwf Hi; [lia|].
  pose proof Hwf as (H1 & _ & H3 & _).
  change (send_slots (S n) s)
    with (fst (get_next_send_buffer s) :: send_slots n (snd (get_next_send_buffer s))).
  destruct i as [|i].
  - simpl. rewrite H1, Z.add_0_r. reflexivity.
  - change (send_slots n (snd (get_next_send_buffer s)) !! i
            = Some (Z.to_nat ((send_buffer_index_ s + Z.of_nat (S i)) mod 1024))).
    rewrite (IH _ i (pool_wf_next_send s Hwf)) by lia. simpl.
    unfold size_t_add. do 2 f_equal.
    rewrite <- (u64_mod_1024 (u64 (send_buffer_index_ s + 1) + Z.of_nat i)).
    unfold u64 at 1 2. rewrite Zplus_mod_idemp_l. fold (u64 (send_buffer_index_ s + 1 + Z.of_nat i)).
    rewrite u64_mod_1024. f_equal. lia.
Qed.

Lemma recv_slots_lookup n : forall s i, pool_wf s -> (i < n)%nat ->
  recv_slots n s !! i
  = Some (Z.to_nat ((recv_buffer_index_ s + Z.of_nat i) mod 1024)).
Proof.
  induction n as [|n IH]; intros s i Hwf Hi; [lia|].
  pose proof Hwf as (_ & H2 & _ & H4).
  change (recv_slots (S n) s)
    with (fst (get_next_recv_buffer s) :: recv_slots n (snd (get_next_recv_buffer s))).
  destruct i as [|i].
  - simpl. rewrite H2, Z.add_0_r. reflexivity.
  - change (recv_slots n (snd (get_next_recv_buffer s)) !! i
            = Some (Z.to_nat ((recv_buffer_index_ s + Z.of_nat (S i)) mod 1024))).
    rewrite (IH _ i (pool_wf_next_recv s Hwf)) by lia. simpl.
    unfold size_t_add. do 2 f_equal.
    rewrite <- (u64_mod_1024 (u64 (recv_buffer_index_ s + 1) + Z.of_nat i)).
    unfold u64 at 1 2. rewrite Zplus_mod_idemp_l. fold (u64 (recv_buffer_index_ s + 1 + Z.of_nat i)).
    rewrite u64_mod_1024. f_equal. lia.
Qed.

Lemma slots_distinct (c : Z) (l : list nat) (n : nat) :
  (forall i, (i < n)%nat -> l !! i = Some (Z.to_nat ((c + Z.of_nat i) mod 1024))) ->
  forall i j a b, (j < n)%nat -> (i < j < i + 1024)%nat ->
    l !! i = Some a -> l !! j = Some b -> a <> b.
Proof.
  intros Hl i j a b Hj Hij Ha Hb Hab.
  rewrite Hl in Ha by lia. rewrite Hl in Hb by lia.
  pose proof (Z.mod_pos_bound (c + Z.of_nat i) 1024).
  pose proof (Z.mod_pos_bound (c + Z.of_nat j) 1024).
  apply (mod_1024_distinct c i j Hij). injection Ha. injection Hb. lia.
Qed.

Lemma send_slots_length n : forall s, length (send_slots n s) = n.
Proof.
  induction n as [|n IH]; intros s; [reflexivity|].
  change (send_slots (S n) s)
    with (fst (get_next_send_buffer s) :: send_slots n (snd (get_next_send_buffer s))).
  simpl. by rewrite IH.
Qed.

Lemma recv_slots_length n : forall s, length (recv_slots n s) = n.
Proof.
  induction n as [|n IH]; intros s; [reflexivity|].
  change (recv_slots (S n) s)
    with (fst (get_next_recv_buffer s) :: recv_slots n (snd (get_next_recv_buffer s))).
  simpl. by rewrite IH.
Qed.

(** C8. A call of [get_next_send_buffer()] or [get_next_recv_buffer()]
    adds one to its counter (a [size_t], so modulo 2^64) and returns the
    slot whose index is the previous value of the counter modulo the
    capacity, 1024; the slot exists, so the call never fails; and among the
    slots that consecutive calls return, two that are fewer than 1024 calls
    apart are different. *)
Theorem next_buffer_round_robin (s : server) :
  pool_wf s ->
  (send_buffer_index_ (snd (get_next_send_buffer s))
     = u64 (send_buffer_index_ s + 1) /\
   Z.of_nat (fst (get_next_send_buffer s)) = send_buffer_index_ s mod 1024 /\
   is_Some (send_buffer_ (snd (get_next_send_buffer s))
              !! fst (get_next_send_buffer s))) /\
  (recv_buffer_index_ (snd (get_next_recv_buffer s))
     = u64 (recv_buffer_index_ s + 1) /\
   Z.of_nat (fst (get_next_recv_buffer s)) = recv_buffer_index_ s mod 1024 /\
   is_Some (recv_buffer_ (snd (get_next_recv_buffer s))
              !! fst (get_next_recv_buffer s))) /\
  (forall n i j a b, (i < j < i + 1024)%nat ->
     send_slots n s !! i = Some a -> send_slots n s !! j = Some b -> a <> b) /\
  (forall n i j a b, (i < j < i + 1024)%nat ->
     recv_slots n s !! i = Some a -> recv_slots n s !! j = Some b -> a <> b).
Proof.
  intros Hwf. pose proof Hwf as (H1 & H2 & H3 & H4).
  split; [|split; [|split]].
  - unfold get_next_send_buffer; simpl. rewrite H1.
    pose proof (Z.mod_pos_bound (send_buffer_index_ s) 1024).
    split; [reflexivity|]. split; [lia|].
    apply lookup_lt_is_Some. rewrite H1. lia.
  - unfold get_next_recv_buffer; simpl. rewrite H2.
    pose proof (Z.mod_pos_bound (recv_buffer_index_ s) 1024).
    split; [reflexivity|]. split; [lia|].
    apply lookup_lt_is_Some. rewrite H2. lia.
  - intros n i j a b Hij Ha Hb.
    assert (Hj : (j < n)%nat).
    { apply lookup_lt_Some in Hb. by rewrite send_slots_length in Hb. }
    eapply (slots_distinct (send_buffer_index_ s) (send_slots n s) n); eauto.
    intros k Hk. by apply send_slots_lookup.
  - intros n i j a b Hij Ha Hb.
    assert (Hj : (j < n)%nat).
    { apply lookup_lt_Some in Hb. by rewrite recv_slots_length in Hb. }
    eapply (slots_distinct (recv_buffer_index_ s) (recv_slots n s) n); eauto.
    intros k Hk. by apply recv_slots_lookup.
Qed.

(** A server whose send counter is about to wrap round. *)
Definition pool_example : server :=
  set_send_buffer_index (two64 - 2)
    (initial "127.0.0.1" 8888 4 (-1) (-1)
       (replicate 1024 (UltraMessage_ctor [])) (replicate 1024 (UltraMessage_ctor []))
       (Sys.mk ∅ ∅ ∅ 0)).

Lemma next_buffer_round_robin_witness :
  pool_wf pool_example /\
  send_slots 4 pool_example = [1022; 1023; 0; 1]%nat /\
  send_buffer_index_ (snd (get_next_send_buffer pool_example)) = two64 - 1 /\
  (forall n i j a b, (i < j < i + 1024)%nat ->
     send_slots n pool_example !! i = Some a ->
     send_slots n pool_example !! j = Some b -> a <> b).
Proof.
  assert (Hwf : pool_wf pool_example).
  { unfold pool_wf. split; [vm_compute; reflexivity|].
    split; [vm_compute; reflexivity|].
    split; [vm_compute; split; [discriminate | reflexivity]|].
    vm_compute; split; [discriminate | reflexivity]. }
  split; [exact Hwf|]. split; [vm_compute; reflexivity|].
  destruct (next_buffer_round_robin pool_example Hwf) as ((H1 & _) & _ & H3 & _).
  split; [rewrite H1; vm_compute; reflexivity | exact H3].
Defined.

(** *** Statistics *)

(** C10. [get_average_latency()] returns 0.0 when [message_count] is
    zero and the quotient of [total_latency] by [message_count] otherwise:
    whatever the counters hold, the division is never reached with a zero
    divisor. *)
Theorem average_latency_guarded (st : UltraServerStats) :
  exists d,
    get_average_latency st = Some d /\
    (message_count st = 0 -> d = DZero /\ (value d == 0)%Q) /\
    (message_count st <> 0 ->
     d = DQuot (total_latency st) (message_count st) /\
     double_div (total_latency st) (message_count st) = Some d /\
     (value d == inject_Z (total_latency st) / inject_Z (message_count st))%Q).
Proof.
  unfold get_average_latency, double_div.
  destruct (Z.eqb_spec (message_count st) 0) as [Hz|Hnz].
  - exists DZero. split; [reflexivity|]. split; [|congruence].
    intros _. split; reflexivity.
  - exists (DQuot (total_latency st) (message_count st)).
    split; [reflexivity|]. split; [congruence|].
    intros _. split; [reflexivity|]. split; reflexivity.
Qed.

Lemma average_latency_guarded_witness :
  get_average_latency (mkStats 0 0 0 0 0) = Some DZero /\
  get_average_latency (mkStats 3 1 1 9000 3) = Some (DQuot 9000 3) /\
  (value (DQuot 9000 3) == 3000)%Q.
Proof.
  destruct (average_latency_guarded (mkStats 0 0 0 0 0)) as (d0 & E0 & Z0 & _).
  destruct (average_latency_guarded (mkStats 3 1 1 9000 3)) as (d1 & E1 & _ & N1).
  destruct (Z0 eq_refl) as [-> _].
  destruct N1 as (-> & _ & _); [simpl; lia|].
  split; [exact E0|]. split; [exact E1|]. reflexivity.
Defined.

(** *** Closing a connection *)

Lemma close_connection_effect i c s :
  connections_ s !! i = Some c ->
  let s' := close_connection (Some i) s in
  (fd c ∉ Sys.fds (kernel s')) /\
  ~ Sys.registered (epoll_fd_ s') (fd c) (kernel s') /\
  connections_ s'
  = <[i := mkConnection (fd c) (addr c) (last_heartbeat c) (client_id c)
             (is_authenticated c) false]> (connections_ s) /\
  (exists c', connections_ s' !! i = Some c' /\
              is_active c' = false /\ fd c' = fd c) /\
  length (connections_ s') = length (connections_ s) /\
  active_connections (stats_ s') = u64 (active_connections (stats_ s) - 1) /\
  peak_connections (stats_ s') = peak_connections (stats_ s) /\
  trace s' = trace s.
Proof.
  intros Hc. unfold close_connection. rewrite Hc. simpl.
  split; [apply Sys.close_closed|].
  split; [apply Sys.close_keeps_unregistered, Sys.del_deregisters|].
  split; [reflexivity|].
  split.
  { eexists. split.
    - apply list_lookup_insert_eq. by apply lookup_lt_Some in Hc.
    - split; reflexivity. }
  split; [apply length_insert|]. auto.
Qed.

(** *** Stopping *)

Ltac not_open :=
  repeat first
    [ apply Sys.close_closed
    | let H := fresh in
      intros H; apply Sys.close_fds_subseteq in H; revert H
    | rewrite Sys.join_all_fds ].

Lemma stop_when_stopped s : running_ s = false -> stop s = s.
Proof. intros H. unfold stop. rewrite H. reflexivity. Qed.

Lemma stop_when_running s :
  running_ s = true ->
  let s' := stop s in
  running_ s' = false /\
  (0 <= server_socket_ s ->
   server_socket_ s' = -1 /\ server_socket_ s ∉ Sys.fds (kernel s')) /\
  (0 <= epoll_fd_ s ->
   epoll_fd_ s' = -1 /\ epoll_fd_ s ∉ Sys.fds (kernel s')) /\
  worker_threads_ s' = [] /\
  (forall tid, tid ∈ worker_threads_ s -> tid ∉ Sys.threads (kernel s')) /\
  connections_ s' = connections_ s /\
  stats_ s' = stats_ s.
Proof.
  intros Hrun. unfold stop. rewrite Hrun. cbn [negb].
  cbn -[Sys.close Sys.join_all Z.leb].
  destruct (Z.leb_spec 0 (epoll_fd_ s)) as [He|He];
    cbn -[Sys.close Sys.join_all Z.leb];
    destruct (Z.leb_spec 0 (server_socket_ s)) as [Hl|Hl];
    cbn -[Sys.close Sys.join_all Z.leb].
  all: split; [reflexivity|].
  all: split; [intros ?; first [lia | split; [reflexivity | not_open]]|].
  all: split; [intros ?; first [lia | split; [reflexivity | not_open]]|].
  all: split; [reflexivity|].
  all: split;
    [intros tid Htid; rewrite ?Sys.close_threads;
     rewrite Sys.join_all_threads; tauto|].
  all: split; reflexivity.
Qed.

Lemma stop_twice s : stop (stop s) = stop s.
Proof.
  destruct (running_ s) eqn:Hrun.
  - apply stop_when_stopped. by destruct (stop_when_running s Hrun) as [H _].
  - by rewrite !(stop_when_stopped s Hrun).
Qed.

(** What [stop] leaves alone: the connection records and, unless they are
    the listener or the epoll instance, their descriptors. *)
Lemma stop_keeps_clients s c :
  c ∈ connections_ s -> fd c ∈ Sys.fds (kernel s) ->
  fd c <> server_socket_ s -> fd c <> epoll_fd_ s ->
  c ∈ connections_ (stop s) /\ fd c ∈ Sys.fds (kernel (stop s)).
Proof.
  intros Hc Hopen Hl He. unfold stop.
  destruct (running_ s); cbn [negb]; [|auto].
  cbn -[Sys.close Sys.join_all Z.leb].
  assert (Hclose : forall x k, fd c <> x -> fd c ∈ Sys.fds k ->
                               fd c ∈ Sys.fds (Sys.close (P := nat) x k)).
  { intros x k Hx Hk. unfold Sys.close. case_decide; simpl; set_solver. }
  destruct (0 <=? epoll_fd_ s); cbn -[Sys.close Sys.join_all Z.leb];
    destruct (0 <=? server_socket_ s); cbn -[Sys.close Sys.join_all Z.leb];
    (split; [exact Hc|]);
    repeat first [apply Hclose; [assumption|] | rewrite Sys.join_all_fds];
    exact Hopen.
Qed.

(** *** Accepting *)

(** An entry of the listener's queue that [accept] returns as a socket
    which the routine then cannot set up or register. *)
Definition refused (r : Sys.accept_result) : bool :=
  match r with
  | Sys.AcceptOk a =>
      negb (Sys.a_sockopts_ok a) || negb (Sys.a_nonblock_ok a)
      || negb (Sys.a_epoll_ok a)
  | Sys.AcceptErr _ => false
  end.

Lemma reopen_closed (x y : Z) (k : Sys.t nat) :
  x ∉ Sys.fds k -> x ∉ Sys.fds (Sys.close y (Sys.open_fd y k)).
Proof. unfold Sys.close, Sys.open_fd. case_decide; simpl; set_solver. Qed.

Lemma accept_connections_refused pre : forall rest s,
  forallb refused pre = true ->
  exists s1,
    accept_connections (pre ++ rest) s = accept_connections rest s1 /\
    connections_ s1 = connections_ s /\ stats_ s1 = stats_ s /\
    (forall a, Sys.AcceptOk a ∈ pre -> Sys.a_fd a ∉ Sys.fds (kernel s1)) /\
    (forall x, x ∉ Sys.fds (kernel s) -> x ∉ Sys.fds (kernel s1)).
Proof.
  induction pre as [|r pre IH]; intros rest s Hpre.
  - exists s. repeat split; auto. intros a H. by apply elem_of_nil in H.
  - simpl in Hpre. apply andb_true_iff in Hpre as [Hr Hpre].
    destruct r as [a|errno]; [|discriminate]. unfold refused in Hr.
    assert (Hstep : exists s0,
      accept_connections ((Sys.AcceptOk a :: pre) ++ rest) s
      = accept_connections (pre ++ rest) s0 /\
      connections_ s0 = connections_ s /\ stats_ s0 = stats_ s /\
      kernel s0 = Sys.close (Sys.a_fd a) (Sys.open_fd (Sys.a_fd a) (kernel s))).
    { cbn [app accept_connections].
      destruct (negb (Sys.a_sockopts_ok a) || negb (Sys.a_nonblock_ok a)) eqn:Hset.
      - eexists. split; [reflexivity|]. repeat split; reflexivity.
      - simpl in Hr.
        apply negb_true_iff in Hr. unfold Sys.epoll_ctl_add. rewrite Hr.
        cbn -[Sys.close Sys.open_fd].
        destruct (Sys.epolls _ !! _);
          (eexists; split; [reflexivity|]; repeat split; reflexivity). }
    destruct Hstep as (s0 & Hrun & Hc0 & Hs0 & Hk0).
    destruct (IH rest s0 Hpre) as (s1 & Hrun1 & Hc1 & Hs1 & Hcl1 & Hkeep1).
    exists s1. split; [by rewrite Hrun|].
    split; [congruence|]. split; [congruence|]. split.
    + intros a' Hin. apply elem_of_cons in Hin as [Heq|Hin].
      * injection Heq as ->. apply Hkeep1. rewrite Hk0. apply Sys.close_closed.
      * by apply Hcl1.
    + intros x Hx. apply Hkeep1. rewrite Hk0. by apply reopen_closed.
Qed.

(** *** The per-connection routine *)

(** What a call of [accept_connections] has gone past without admitting
    it: the sockets of [pre] are closed again, no descriptor is left open
    that was not open before, and connections and statistics are as they
    were. *)
Definition skipped (pre : list Sys.accept_result) (s s' : server) : Prop :=
  connections_ s' = connections_ s /\ stats_ s' = stats_ s /\
  (forall a, Sys.AcceptOk a ∈ pre -> Sys.a_fd a ∉ Sys.fds (kernel s')) /\
  (forall x, x ∉ Sys.fds (kernel s) -> x ∉ Sys.fds (kernel s')).

Definition accepted_socket (r : Sys.accept_result) : Prop :=
  exists a, r = Sys.AcceptOk a.

(** The three ways in which a call of [accept_connections] ends: the queue
    is used up; [accept] fails; or a connection is admitted, and the line
    that reports it reads through the pointer that was moved from. *)
Lemma accept_connections_ends backlog : forall s,
  exists pre,
    Forall accepted_socket pre /\
    ((exists s',
        backlog = pre /\
        accept_connections backlog s = (Returned s', []) /\
        skipped pre s s') \/
     (exists errno rest s',
        backlog = pre ++ Sys.AcceptErr errno :: rest /\
        accept_connections backlog s = (Returned s', rest) /\
        skipped pre s s') \/
     (exists a rest s' c,
        backlog = pre ++ Sys.AcceptOk a :: rest /\
        accept_connections backlog s = (Faulted s', rest) /\
        connections_ s' = connections_ s ++ [c] /\
        fd c = Sys.a_fd a /\ is_active c = true /\
        (Sys.a_fd a ∈ Sys.fds (kernel s')) /\
        active_connections (stats_ s')
        = u64 (active_connections (stats_ s) + 1))).
Proof.
  assert (Hskip : forall a rest s s1,
    connections_ s1 = connections_ s -> stats_ s1 = stats_ s ->
    Sys.a_fd a ∉ Sys.fds (kernel s1) ->
    (forall x, x ∉ Sys.fds (kernel s) -> x ∉ Sys.fds (kernel s1)) ->
    accept_connections (Sys.AcceptOk a :: rest) s = accept_connections rest s1 ->
    (exists pre,
       Forall accepted_socket pre /\
       ((exists s',
           rest = pre /\
           accept_connections rest s1 = (Returned s', []) /\
           skipped pre s1 s') \/
        (exists errno rest' s',
           rest = pre ++ Sys.AcceptErr errno :: rest' /\
           accept_connections rest s1 = (Returned s', rest') /\
           skipped pre s1 s') \/
        (exists a' rest' s' c,
           rest = pre ++ Sys.AcceptOk a' :: rest' /\
           accept_connections rest s1 = (Faulted s', rest') /\
           connections_ s' = connections_ s1 ++ [c] /\
           fd c = Sys.a_fd a' /\ is_active c = true /\
           (Sys.a_fd a' ∈ Sys.fds (kernel s')) /\
           active_connections (stats_ s')
           = u64 (active_connections (stats_ s1) + 1)))) ->
    exists pre,
      Forall accepted_socket pre /\
      ((exists s',
          Sys.AcceptOk a :: rest = pre /\
          accept_connections (Sys.AcceptOk a :: rest) s = (Returned s', []) /\
          skipped pre s s') \/
       (exists errno rest' s',
          Sys.AcceptOk a :: rest = pre ++ Sys.AcceptErr errno :: rest' /\
          accept_connections (Sys.AcceptOk a :: rest) s = (Returned s', rest') /\
          skipped pre s s') \/
       (exists a' rest' s' c,
          Sys.AcceptOk a :: rest = pre ++ Sys.AcceptOk a' :: rest' /\
          accept_connections (Sys.AcceptOk a :: rest) s = (Faulted s', rest') /\
          connections_ s' = connections_ s ++ [c] /\
          fd c = Sys.a_fd a' /\ is_active c = true /\
          (Sys.a_fd a' ∈ Sys.fds (kernel s')) /\
          active_connections (stats_ s')
          = u64 (active_connections (stats_ s) + 1)))).
  { intros a rest s s1 Hc Hs Hclosed Hmono Hrun (pre & Hpre & Hend).
    exists (Sys.AcceptOk a :: pre).
    split; [apply Forall_cons; split; [by exists a | exact Hpre]|].
    assert (Hsk : forall s', skipped pre s1 s' ->
                             skipped (Sys.AcceptOk a :: pre) s s').
    { intros s' (H1 & H2 & H3 & H4).
      split; [congruence|]. split; [congruence|]. split.
      - intros a0 Hin. apply elem_of_cons in Hin as [[= ->]|Hin];
          [by apply H4 | by apply H3].
      - intros x Hx. by apply H4, Hmono. }
    rewrite Hrun.
    destruct Hend as [(s' & -> & Hr & Hs')
                     |[(errno & rest' & s' & -> & Hr & Hs')
                      |(a' & rest' & s' & c & -> & Hr & H1 & H2 & H3 & H4 & H5)]].
    - left. exists s'. split; [reflexivity|]. split; [exact Hr | by apply Hsk].
    - right; left. exists errno, rest', s'.
      split; [reflexivity|]. split; [exact Hr | by apply Hsk].
    - right; right. exists a', rest', s', c.
      split; [reflexivity|]. split; [exact Hr|].
      split; [by rewrite H1, Hc|]. split; [exact H2|]. split; [exact H3|].
      split; [exact H4 | by rewrite H5, Hs]. }
  induction backlog as [|[a|errno] rest IH]; intros s.
  - exists []. split; [by apply Forall_nil|]. left. exists s.
    split; [reflexivity|]. split; [reflexivity|].
    split; [reflexivity|]. split; [reflexivity|].
    split; [intros a Hin; by apply elem_of_nil in Hin | trivial].
  - destruct (negb (Sys.a_sockopts_ok a) || negb (Sys.a_nonblock_ok a)) eqn:Hflags.
    + apply (Hskip a rest s
               (sys (Sys.close (Sys.a_fd a)) (sys (Sys.open_fd (Sys.a_fd a)) s)));
        [reflexivity | reflexivity | apply Sys.close_closed
        | intros x Hx; by apply reopen_closed
        | cbn [accept_connections]; by rewrite Hflags | apply IH].
    + destruct (Sys.epoll_ctl_add (Sys.a_epoll_ok a) (epoll_fd_ s) (Sys.a_fd a)
                  (Some (length (connections_ s)))
                  (Sys.open_fd (Sys.a_fd a) (kernel s))) as [k'|] eqn:Hadd.
      * exists []. split; [by apply Forall_nil|]. right; right.
        cbn [accept_connections]. rewrite Hflags.
        cbn -[Sys.close Sys.open_fd Sys.epoll_ctl_add Z.ltb]. rewrite Hadd.
        eexists a, rest, _, _. split; [reflexivity|]. split; [reflexivity|].
        cbn -[Sys.close Sys.open_fd Sys.epoll_ctl_add Z.ltb].
        split; [reflexivity|]. split; [reflexivity|]. split; [reflexivity|].
        split; [|reflexivity].
        unfold Sys.epoll_ctl_add in Hadd.
        destruct (Sys.epolls _ !! _) in Hadd; [|discriminate].
        destruct (_ && _) in Hadd; [|discriminate].
        injection Hadd as <-. simpl. set_solver.
      * apply (Hskip a rest s
                 (sys (Sys.close (Sys.a_fd a))
                    (emit (Sys.Ecerr "Failed to add client to epoll")
                       (set_connection_count (size_t_add (connection_count_ s) 1)
                          (sys (Sys.open_fd (Sys.a_fd a)) s)))));
          [reflexivity | reflexivity | apply Sys.close_closed
          | intros x Hx; by apply reopen_closed
          | cbn [accept_connections]; rewrite Hflags;
            cbn -[Sys.close Sys.open_fd Sys.epoll_ctl_add Z.ltb];
            by rewrite Hadd
          | apply IH].
  - exists []. split; [by apply Forall_nil|]. right; left.
    cbn [accept_connections].
    destruct (_ || _).
    + exists errno, rest, s. split; [reflexivity|]. split; [reflexivity|].
      split; [reflexivity|]. split; [reflexivity|].
      split; [intros a Hin; by apply elem_of_nil in Hin | trivial].
    + exists errno, rest, (emit (Sys.Ecerr "Accept failed") s).
      split; [reflexivity|]. split; [reflexivity|].
      split; [reflexivity|]. split; [reflexivity|].
      split; [intros a Hin; by apply elem_of_nil in Hin | trivial].
Qed.

Section service_facts.

Context {layout : Layout}.

Lemma handle_client_events_unknown client_fd io s :
  list_find (fun c => fd c = client_fd) (connections_ s) = None ->
  handle_client_events client_fd io s = s.
Proof. intros H. unfold handle_client_events. by rewrite H. Qed.

Lemma handle_client_events_closes client_fd io i c s :
  list_find (fun c => fd c = client_fd) (connections_ s) = Some (i, c) ->
  (io_recv io = RecvEOF \/
   exists errno, io_recv io = RecvErr errno /\
                 errno <> Sys.EAGAIN /\ errno <> Sys.EWOULDBLOCK) ->
  handle_client_events client_fd io s
  = close_connection (Some i) (snd (get_next_recv_buffer s)).
Proof.
  intros Hfind Hrecv. unfold handle_client_events. rewrite Hfind.
  unfold get_next_recv_buffer. cbn zeta beta iota.
  destruct Hrecv as [Hr|(errno & Hr & H1 & H2)]; rewrite Hr; [reflexivity|].
  destruct (Z.eqb_spec errno Sys.EAGAIN); [contradiction|].
  destruct (Z.eqb_spec errno Sys.EWOULDBLOCK); [contradiction|]. reflexivity.
Qed.

Lemma handle_client_events_would_block client_fd io i c errno s :
  list_find (fun c => fd c = client_fd) (connections_ s) = Some (i, c) ->
  io_recv io = RecvErr errno ->
  errno = Sys.EAGAIN \/ errno = Sys.EWOULDBLOCK ->
  handle_client_events client_fd io s = snd (get_next_recv_buffer s).
Proof.
  intros Hfind Hr He. unfold handle_client_events. rewrite Hfind.
  unfold get_next_recv_buffer. cbn zeta beta iota. rewrite Hr.
  destruct He as [->| ->]; reflexivity.
Qed.

End service_facts.

(** *** The dispatcher *)

Section dispatch_facts.

Context {layout : Layout}.

Lemma send_response_stats sent conn msg s :
  stats_ (snd (send_response sent conn msg s)) = stats_ s.
Proof.
  unfold send_response. destruct conn as [i|], msg as [j|]; try reflexivity.
  destruct (connections_ s !! i) as [c|], (send_buffer_ s !! j) as [m|];
    try reflexivity.
  destruct (is_active c); reflexivity.
Qed.

Lemma acknowledge_stats ack_type io msg conn s :
  stats_ (acknowledge ack_type io msg conn s) = stats_ s.
Proof.
  unfold acknowledge, get_next_send_buffer. cbn zeta beta iota.
  destruct (send_buffer_ _ !! _) as [r|]; [|reflexivity].
  destruct (recv_buffer_ s !! msg) as [m|]; [|reflexivity].
  rewrite send_response_stats. reflexivity.
Qed.

Lemma process_message_counts io m c s :
  total_messages (stats_ (process_message io (Some m) (Some c) s))
  = u64 (total_messages (stats_ s) + 1).
Proof.
  unfold process_message, process_order_message, process_market_data_message.
  destruct (_ =? 1); [|destruct (_ =? 2)]; simpl;
    rewrite ?acknowledge_stats; reflexivity.
Qed.

Lemma process_message_unhandled io m c s :
  let ty := default 0 (message_type <$> recv_buffer_ s !! m) in
  ty <> 1 -> ty <> 2 ->
  process_message io (Some m) (Some c) s
  = set_stats (mkStats (u64 (total_messages (stats_ s) + 1))
                       (active_connections (stats_ s))
                       (peak_connections (stats_ s))
                       (total_latency (stats_ s))
                       (message_count (stats_ s))) s.
Proof.
  intros ty H1 H2. unfold process_message. fold ty.
  destruct (Z.eqb_spec ty 1); [contradiction|].
  destruct (Z.eqb_spec ty 2); [contradiction|]. reflexivity.
Qed.

End dispatch_facts.

(** *** The states the server reaches *)

(** What the epoll instances of the process hold, seen from the server:
    every registered descriptor is open, and every registration that carries
    a connection carries one of [conns] whose descriptor it is, the
    descriptor being one of [live]. *)
Definition registrations_ok (conns : list UltraConnection) (live : gset Z)
    (k : Sys.t nat) : Prop :=
  (forall ep interest x,
      Sys.epolls k !! ep = Some interest -> is_Some (interest !! x) ->
      x ∈ Sys.fds k) /\
  (forall ep interest x i,
      Sys.epolls k !! ep = Some interest -> interest !! x = Some (Some i) ->
      x ∈ live /\ exists c, conns !! i = Some c /\ fd c = x).

Lemma registrations_same conns live (k k' : Sys.t nat) :
  Sys.epolls k' = Sys.epolls k -> Sys.fds k ⊆ Sys.fds k' ->
  registrations_ok conns live k -> registrations_ok conns live k'.
Proof.
  intros He Hf [H1 H2]. split.
  - intros ep interest x Hep Hx. rewrite He in Hep. apply Hf. eauto.
  - intros ep interest x i Hep Hx. rewrite He in Hep. eauto.
Qed.

Lemma registrations_open conns live x k :
  registrations_ok conns live k -> registrations_ok conns live (Sys.open_fd x k).
Proof. apply registrations_same; simpl; [reflexivity | set_solver]. Qed.

Lemma registrations_close conns live x k :
  registrations_ok conns live k ->
  registrations_ok conns (live ∖ {[x]}) (Sys.close x k).
Proof.
  intros [H1 H2]. destruct (decide (x ∈ Sys.fds k)) as [Hopen|Hopen].
  - destruct (Sys.close_open x k Hopen) as [Hf He]. unfold registrations_ok.
    rewrite Hf, He. split.
    + intros ep interest y Hep Hy. rewrite lookup_fmap in Hep.
      destruct (decide (ep = x)) as [->|Hne];
        [by rewrite lookup_delete_eq in Hep|].
      rewrite lookup_delete_ne in Hep by done.
      destruct (Sys.epolls k !! ep) as [i0|] eqn:Hi0; [|discriminate].
      simpl in Hep. injection Hep as <-.
      destruct (decide (y = x)) as [->|Hy'];
        [rewrite lookup_delete_eq in Hy; by destruct Hy|].
      rewrite lookup_delete_ne in Hy by done.
      apply elem_of_difference. split; [eauto | set_solver].
    + intros ep interest y i Hep Hy. rewrite lookup_fmap in Hep.
      destruct (decide (ep = x)) as [->|Hne];
        [by rewrite lookup_delete_eq in Hep|].
      rewrite lookup_delete_ne in Hep by done.
      destruct (Sys.epolls k !! ep) as [i0|] eqn:Hi0; [|discriminate].
      simpl in Hep. injection Hep as <-.
      destruct (decide (y = x)) as [->|Hy'];
        [by rewrite lookup_delete_eq in Hy|].
      rewrite lookup_delete_ne in Hy by done.
      destruct (H2 ep i0 y i Hi0 Hy) as [Hl Hc]. split; [set_solver | exact Hc].
  - rewrite (Sys.close_not_open x k Hopen). split; [exact H1|].
    intros ep interest y i Hep Hy.
    destruct (H2 ep interest y i Hep Hy) as [Hl Hc]. split; [|exact Hc].
    apply elem_of_difference. split; [exact Hl|].
    intros Hyx. apply elem_of_singleton in Hyx as ->.
    apply Hopen. eapply H1; eauto.
Qed.

Lemma registrations_mono conns live live' k :
  live ⊆ live' -> registrations_ok conns live k -> registrations_ok conns live' k.
Proof.
  intros Hsub [H1 H2]. split; [exact H1|].
  intros ep interest x i Hep Hx. destruct (H2 ep interest x i Hep Hx) as [Hl Hc].
  split; [by apply Hsub | exact Hc].
Qed.

Lemma registrations_close_keep conns live x k :
  registrations_ok conns live k -> registrations_ok conns live (Sys.close x k).
Proof.
  intros H. apply (registrations_mono conns (live ∖ {[x]})); [set_solver|].
  by apply registrations_close.
Qed.

Lemma registrations_del conns live ep x k :
  registrations_ok conns live k ->
  registrations_ok conns live (Sys.epoll_ctl_del ep x k).
Proof.
  intros [H1 H2].
  assert (Hsub : forall ep' interest y tag,
    Sys.epolls (Sys.epoll_ctl_del ep x k) !! ep' = Some interest ->
    interest !! y = Some tag ->
    exists interest0, Sys.epolls k !! ep' = Some interest0 /\
                      interest0 !! y = Some tag).
  { intros ep' interest y tag Hep Hy. simpl in Hep.
    destruct (decide (ep = ep')) as [->|Hne].
    - rewrite lookup_alter_eq in Hep.
      destruct (Sys.epolls k !! ep') as [i0|]; [|discriminate].
      simpl in Hep. injection Hep as <-. exists i0. split; [reflexivity|].
      destruct (decide (y = x)) as [->|Hy'];
        [by rewrite lookup_delete_eq in Hy|].
      by rewrite lookup_delete_ne in Hy.
    - rewrite lookup_alter_ne in Hep by done. eauto. }
  split.
  - intros ep' interest y Hep [tag Hy].
    destruct (Hsub _ _ _ _ Hep Hy) as (i0 & Hi0 & Hy0).
    apply (H1 ep' i0 y Hi0). by exists tag.
  - intros ep' interest y i Hep Hy.
    destruct (Hsub _ _ _ _ Hep Hy) as (i0 & Hi0 & Hy0). eauto.
Qed.

Lemma registrations_create conns live e k :
  registrations_ok conns live k ->
  registrations_ok conns live (Sys.epoll_create e k).
Proof.
  intros [H1 H2]. split.
  - intros ep interest y Hep Hy. simpl in *.
    destruct (decide (e = ep)) as [->|Hne].
    + rewrite lookup_insert_eq in Hep. injection Hep as <-.
      rewrite lookup_empty in Hy. by destruct Hy.
    + rewrite lookup_insert_ne in Hep by done. set_solver.
  - intros ep interest y i Hep Hy. simpl in *.
    destruct (decide (e = ep)) as [->|Hne].
    + rewrite lookup_insert_eq in Hep. injection Hep as <-.
      by rewrite lookup_empty in Hy.
    + rewrite lookup_insert_ne in Hep by done. eauto.
Qed.

Lemma registrations_add_listener conns live ok ep x k k' :
  Sys.epoll_ctl_add ok ep x None k = Some k' ->
  registrations_ok conns live k -> registrations_ok conns live k'.
Proof.
  unfold Sys.epoll_ctl_add. intros Hadd [H1 H2].
  destruct (Sys.epolls k !! ep) as [i0|] eqn:Hi0; [|discriminate].
  destruct (ok && bool_decide (x ∈ Sys.fds k) && bool_decide (i0 !! x = None))
    eqn:Hcond; [|discriminate].
  injection Hadd as <-.
  apply andb_true_iff in Hcond as [Hcond _].
  apply andb_true_iff in Hcond as [_ Hopen]. apply bool_decide_eq_true in Hopen.
  split.
  - intros ep' interest y Hep Hy. simpl in *.
    destruct (decide (ep = ep')) as [->|Hne].
    + rewrite lookup_insert_eq in Hep. injection Hep as <-.
      destruct (decide (x = y)) as [->|Hxy]; [exact Hopen|].
      rewrite lookup_insert_ne in Hy by done. eauto.
    + rewrite lookup_insert_ne in Hep by done. eauto.
  - intros ep' interest y i Hep Hy. simpl in *.
    destruct (decide (ep = ep')) as [->|Hne].
    + rewrite lookup_insert_eq in Hep. injection Hep as <-.
      destruct (decide (x = y)) as [->|Hxy];
        [by rewrite lookup_insert_eq in Hy|].
      rewrite lookup_insert_ne in Hy by done. eauto.
    + rewrite lookup_insert_ne in Hep by done. eauto.
Qed.

Lemma registrations_add_client conns live ok ep k k' c :
  Sys.epoll_ctl_add ok ep (fd c) (Some (length conns)) k = Some k' ->
  registrations_ok conns live k ->
  registrations_ok (conns ++ [c]) ({[fd c]} ∪ live) k'.
Proof.
  unfold Sys.epoll_ctl_add. intros Hadd [H1 H2].
  destruct (Sys.epolls k !! ep) as [i0|] eqn:Hi0; [|discriminate].
  destruct (ok && bool_decide (fd c ∈ Sys.fds k) && bool_decide (i0 !! fd c = None))
    eqn:Hcond; [|discriminate].
  injection Hadd as <-.
  apply andb_true_iff in Hcond as [Hcond _].
  apply andb_true_iff in Hcond as [_ Hopen]. apply bool_decide_eq_true in Hopen.
  assert (Hold : forall ep' interest y i,
            Sys.epolls k !! ep' = Some interest -> interest !! y = Some (Some i) ->
            y ∈ {[fd c]} ∪ live /\
            exists c0, (conns ++ [c]) !! i = Some c0 /\ fd c0 = y).
  { intros ep' interest y i Hep Hy.
    destruct (H2 ep' interest y i Hep Hy) as (Hl & c0 & Hc0 & Hfd).
    split; [set_solver|]. exists c0. split; [|exact Hfd].
    by apply lookup_app_l_Some. }
  split.
  - intros ep' interest y Hep Hy. simpl in *.
    destruct (decide (ep = ep')) as [->|Hne].
    + rewrite lookup_insert_eq in Hep. injection Hep as <-.
      destruct (decide (fd c = y)) as [<-|Hxy]; [exact Hopen|].
      rewrite lookup_insert_ne in Hy by done. eauto.
    + rewrite lookup_insert_ne in Hep by done. eauto.
  - intros ep' interest y i Hep Hy. simpl in *.
    destruct (decide (ep = ep')) as [->|Hne].
    + rewrite lookup_insert_eq in Hep. injection Hep as <-.
      destruct (decide (fd c = y)) as [<-|Hxy].
      * rewrite lookup_insert_eq in Hy. injection Hy as <-.
        split; [set_solver|]. exists c. split; [|reflexivity].
        rewrite lookup_app_r by lia. by rewrite Nat.sub_diag.
      * rewrite lookup_insert_ne in Hy by done. eauto.
    + rewrite lookup_insert_ne in Hep by done. eauto.
Qed.

Lemma registrations_update conns live k i c c' :
  conns !! i = Some c -> fd c' = fd c ->
  registrations_ok conns live k -> registrations_ok (<[i := c']> conns) live k.
Proof.
  intros Hc Hfd [H1 H2]. split; [exact H1|].
  intros ep interest y j Hep Hy.
  destruct (H2 ep interest y j Hep Hy) as (Hl & c0 & Hc0 & Hfd0).
  split; [exact Hl|].
  destruct (decide (i = j)) as [->|Hne].
  - exists c'. split.
    + apply list_lookup_insert_eq. by apply lookup_lt_Some in Hc.
    + congruence.
  - exists c0. split; [|exact Hfd0]. by rewrite list_lookup_insert_ne.
Qed.

(** The two connection counters against the number [n] of connections
    that were counted in and not yet counted out, of which the registered
    ones are among [live]: [active_connections] is [n] as a 64-bit value,
    and [peak_connections] is at least [n] unless it has reached the largest
    64-bit value. *)
Definition counters_ok (live : gset Z) (n : Z) (st : UltraServerStats) : Prop :=
  Z.of_nat (size live) <= n /\
  active_connections st = n mod two64 /\
  0 <= peak_connections st < two64 /\
  (n <= peak_connections st \/ peak_connections st = two64 - 1).

Definition inv (s : server) : Prop :=
  exists live n,
    registrations_ok (connections_ s) live (kernel s) /\
    counters_ok live n (stats_ s).

Lemma two64_pos : 0 < two64.
Proof. reflexivity. Qed.

Lemma counters_peak live n st :
  counters_ok live n st -> active_connections st <= peak_connections st.
Proof.
  intros (Hn & Ha & Hp & Hmax). pose proof two64_pos.
  pose proof (Z.mod_pos_bound n two64 ltac:(lia)) as Hb. rewrite Ha.
  destruct Hmax as [Hle|Heq]; [|lia].
  pose proof (Z.mod_le n two64 ltac:(lia) ltac:(lia)). lia.
Qed.

Lemma counters_shrink live live' n st :
  live' ⊆ live -> counters_ok live n st -> counters_ok live' n st.
Proof.
  intros Hsub (Hn & Ha & Hp & Hmax). split; [|auto].
  apply subseteq_size in Hsub. lia.
Qed.

Lemma counters_count_in live n st x :
  counters_ok live n st ->
  let active := u64 (active_connections st + 1) in
  let peak := peak_connections st in
  counters_ok ({[x]} ∪ live) (n + 1)
    (mkStats (total_messages st) active (if peak <? active then active else peak)
             (total_latency st) (message_count st)).
Proof.
  intros (Hn & Ha & Hp & Hmax) active peak. pose proof two64_pos as H64.
  assert (Hactive : active = (n + 1) mod two64).
  { unfold active, u64. rewrite Ha. apply Zplus_mod_idemp_l. }
  pose proof (Z.mod_pos_bound (n + 1) two64 H64) as Hb.
  assert (Hsize : Z.of_nat (size ({[x]} ∪ live)) <= n + 1).
  { rewrite size_union_alt, size_singleton.
    assert (size (live ∖ {[x]}) <= size live)%nat
      by (apply subseteq_size; set_solver).
    lia. }
  split; [exact Hsize|]. cbn [active_connections peak_connections].
  split; [exact Hactive|].
  destruct (Z.ltb_spec peak active) as [Hlt|Hge].
  - split; [lia|]. destruct Hmax as [Hle|Heq]; [|fold peak in Heq; lia].
    fold peak in Hle.
    destruct (Z.eq_dec active (two64 - 1)) as [|Hne]; [right; assumption|].
    left. rewrite Hactive. rewrite Z.mod_small; [lia|]. fold peak in Hp. lia.
  - split; [exact Hp|]. destruct Hmax as [Hle|Heq]; [|right; exact Heq].
    fold peak in Hle, Hp.
    destruct (Z.eq_dec peak (two64 - 1)) as [|Hne]; [right; assumption|].
    left. rewrite Z.mod_small in Hactive by lia. lia.
Qed.

Lemma counters_count_out live n st x :
  x ∈ live -> counters_ok live n st ->
  counters_ok (live ∖ {[x]}) (n - 1)
    (mkStats (total_messages st) (u64 (active_connections st - 1))
             (peak_connections st) (total_latency st) (message_count st)).
Proof.
  intros Hx (Hn & Ha & Hp & Hmax).
  assert (Hsize : size (live ∖ {[x]}) = (size live - 1)%nat).
  { rewrite size_difference by set_solver. by rewrite size_singleton. }
  assert (Hpos : (0 < size live)%nat).
  { destruct (size live) eqn:Hs; [|lia].
    apply size_empty_inv in Hs. set_solver. }
  split; [lia|]. cbn [active_connections peak_connections].
  split; [unfold u64; rewrite Ha; apply Zminus_mod_idemp_l|].
  split; [exact Hp|]. destruct Hmax; [left; lia | right; assumption].
Qed.

(** The invariant only looks at the kernel, the connections and the two
    connection counters. *)
Lemma inv_same s s' :
  kernel s' = kernel s -> connections_ s' = connections_ s ->
  active_connections (stats_ s') = active_connections (stats_ s) ->
  peak_connections (stats_ s') = peak_connections (stats_ s) ->
  inv s -> inv s'.
Proof.
  intros Hk Hc Ha Hp (live & n & Hr & Hn & Hac & Hpk & Hmax).
  exists live, n. rewrite Hk, Hc. split; [exact Hr|].
  unfold counters_ok. rewrite Ha, Hp. auto.
Qed.

Lemma close_connection_inv j cj s live n :
  connections_ s !! j = Some cj ->
  registrations_ok (connections_ s) live (kernel s) ->
  counters_ok live n (stats_ s) ->
  fd cj ∈ live ->
  inv (close_connection (Some j) s).
Proof.
  intros Hj Hr Hc Hlive. unfold close_connection. rewrite Hj.
  exists (live ∖ {[fd cj]}), (n - 1).
  cbn -[Sys.close Sys.epoll_ctl_del]. split.
  - apply registrations_close, registrations_del.
    by apply (registrations_update _ _ _ j cj).
  - by apply counters_count_out.
Qed.

Section reach.

Context {layout : Layout}.

Lemma send_response_core sent conn msg s :
  kernel (snd (send_response sent conn msg s)) = kernel s /\
  connections_ (snd (send_response sent conn msg s)) = connections_ s.
Proof.
  unfold send_response. destruct conn as [i|], msg as [j|]; try (split; reflexivity).
  destruct (connections_ s !! i) as [c|], (send_buffer_ s !! j) as [m|];
    try (split; reflexivity).
  destruct (is_active c); split; reflexivity.
Qed.

Lemma acknowledge_core ack_type io msg conn s :
  kernel (acknowledge ack_type io msg conn s) = kernel s /\
  connections_ (acknowledge ack_type io msg conn s) = connections_ s.
Proof.
  unfold acknowledge, get_next_send_buffer. cbn zeta beta iota.
  destruct (send_buffer_ _ !! _) as [r|]; [|split; reflexivity].
  destruct (recv_buffer_ s !! msg) as [m|]; [|split; reflexivity].
  match goal with
  | |- context [send_response ?a ?b ?c ?d] =>
      destruct (send_response_core a b c d) as [-> ->]
  end.
  split; reflexivity.
Qed.

Lemma process_message_core io msg conn s :
  kernel (process_message io msg conn s) = kernel s /\
  connections_ (process_message io msg conn s) = connections_ s /\
  active_connections (stats_ (process_message io msg conn s))
  = active_connections (stats_ s) /\
  peak_connections (stats_ (process_message io msg conn s))
  = peak_connections (stats_ s).
Proof.
  unfold process_message, process_order_message, process_market_data_message.
  destruct msg as [m|], conn as [c|]; try (repeat split; reflexivity).
  destruct (_ =? 1); [|destruct (_ =? 2)]; cbn [kernel connections_ stats_ set_stats
    active_connections peak_connections];
    rewrite ?acknowledge_stats;
    try (destruct (acknowledge_core 3 io m (Some c) s) as [-> ->]);
    try (destruct (acknowledge_core 4 io m (Some c) s) as [-> ->]);
    repeat split; reflexivity.
Qed.

Lemma handle_client_events_inv client_fd io s live n :
  registrations_ok (connections_ s) live (kernel s) ->
  counters_ok live n (stats_ s) ->
  client_fd ∈ live ->
  inv (handle_client_events client_fd io s).
Proof.
  intros Hr Hc Hlive. unfold handle_client_events.
  destruct (list_find _ _) as [[j cj]|] eqn:Hfind; [|by exists live, n].
  apply list_find_Some in Hfind as (Hj & Hfd & _).
  unfold get_next_recv_buffer. cbn zeta beta iota.
  set (s1 := set_recv_buffer_index _ s).
  assert (Hs1 : inv s1) by (by exists live, n).
  destruct (io_recv io) as [bytes_read m| |errno].
  - destruct (_ <? _).
    + revert Hs1. by apply inv_same.
    + match goal with
      | |- inv (process_message ?a ?b ?c ?d) =>
          destruct (process_message_core a b c d) as (Hk & Hcn & Ha & Hp)
      end.
      revert Hs1. by apply inv_same.
  - apply (close_connection_inv j cj s1 live n); try assumption. by rewrite Hfd.
  - destruct (_ || _); [exact Hs1|].
    apply (close_connection_inv j cj s1 live n); try assumption. by rewrite Hfd.
Qed.

(** The invariant with its two witnesses named: the descriptors [live] of
    the registered clients and the number [n] of connections counted in and
    not yet counted out. *)
Definition inv_at (live : gset Z) (n : Z) (s : server) : Prop :=
  registrations_ok (connections_ s) live (kernel s) /\
  counters_ok live n (stats_ s).

Lemma accept_connections_inv_at backlog : forall s live n,
  inv_at live n s ->
  exists live' n',
    live ⊆ live' /\
    inv_at live' n' (state_of (fst (accept_connections backlog s))) /\
    (forall i c, connections_ s !! i = Some c ->
       connections_ (state_of (fst (accept_connections backlog s))) !! i = Some c).
Proof.
  induction backlog as [|[a|errno] rest IH]; intros s live n [Hr Hc].
  - exists live, n. split; [done|]. split; [by split | auto].
  - cbn [accept_connections].
    destruct (negb (Sys.a_sockopts_ok a) || negb (Sys.a_nonblock_ok a)).
    + match goal with
      | |- context [accept_connections rest ?s1] =>
          destruct (IH s1 live n) as (live' & n' & Hsub & Hinv' & Hpre)
      end.
      { split; [|exact Hc]. cbn -[Sys.close Sys.open_fd].
        by apply registrations_close_keep, registrations_open. }
      exists live', n'. split; [exact Hsub|]. split; [exact Hinv' | exact Hpre].
    + cbn -[Sys.close Sys.open_fd Sys.epoll_ctl_add].
      destruct (Sys.epoll_ctl_add _ _ _ _ _) as [k'|] eqn:Hadd.
      * cbn -[Sys.close Sys.open_fd Sys.epoll_ctl_add].
        exists ({[Sys.a_fd a]} ∪ live), (n + 1).
        split; [set_solver|]. split; [split|].
        -- cbn -[Sys.close Sys.open_fd Sys.epoll_ctl_add].
           match goal with
           | |- registrations_ok (_ ++ [?c]) _ _ =>
               apply (registrations_add_client _ _ _ _ _ _ c Hadd)
           end.
           by apply registrations_open.
        -- by apply counters_count_in.
        -- intros i c Hi. by apply lookup_app_l_Some.
      * match goal with
        | |- context [accept_connections rest ?s1] =>
            destruct (IH s1 live n) as (live' & n' & Hsub & Hinv' & Hpre)
        end.
        { split; [|exact Hc]. cbn -[Sys.close Sys.open_fd].
          by apply registrations_close_keep, registrations_open. }
        exists live', n'. split; [exact Hsub|]. split; [exact Hinv' | exact Hpre].
  - cbn [accept_connections]. exists live, n. split; [done|].
    destruct (_ || _); (split; [by split | auto]).
Qed.

Lemma initialize_connections env s :
  connections_ (snd (initialize env s)) = connections_ s.
Proof.
  unfold initialize.
  cbn -[Sys.close Sys.open_fd Sys.epoll_create Sys.epoll_ctl_add Z.ltb].
  destruct (i_socket env <? 0); [reflexivity|].
  destruct (i_sockopts_ok env); cbn [negb]; [|reflexivity].
  destruct (i_nonblock_ok env); cbn [negb]; [|reflexivity].
  destruct (i_bind env <? 0); [reflexivity|].
  destruct (i_listen env <? 0); [reflexivity|].
  cbn -[Sys.close Sys.open_fd Sys.epoll_create Sys.epoll_ctl_add Z.ltb].
  destruct (i_epoll_create env <? 0); [reflexivity|].
  cbn -[Sys.close Sys.open_fd Sys.epoll_create Sys.epoll_ctl_add Z.ltb].
  destruct (Sys.epoll_ctl_add _ _ _ _ _); reflexivity.
Qed.

Lemma initialize_inv_at env s live n :
  inv_at live n s -> inv_at live n (snd (initialize env s)).
Proof.
  intros [Hr Hc]. unfold inv_at, initialize.
  cbn -[Sys.close Sys.open_fd Sys.epoll_create Sys.epoll_ctl_add Z.ltb].
  destruct (i_socket env <? 0); [by split|].
  destruct (i_sockopts_ok env); cbn [negb];
    [|split; [|exact Hc];
      by apply registrations_close_keep, registrations_open].
  destruct (i_nonblock_ok env); cbn [negb];
    [|split; [|exact Hc];
      by apply registrations_close_keep, registrations_open].
  destruct (i_bind env <? 0);
    [split; [|exact Hc];
     by apply registrations_close_keep, registrations_open|].
  destruct (i_listen env <? 0);
    [split; [|exact Hc];
     by apply registrations_close_keep, registrations_open|].
  cbn -[Sys.close Sys.open_fd Sys.epoll_create Sys.epoll_ctl_add Z.ltb].
  destruct (i_epoll_create env <? 0);
    [split; [|exact Hc];
     by apply registrations_close_keep, registrations_open|].
  cbn -[Sys.close Sys.open_fd Sys.epoll_create Sys.epoll_ctl_add Z.ltb].
  destruct (Sys.epoll_ctl_add _ _ _ _ _) as [k'|] eqn:Hadd.
  - split; [|exact Hc].
    cbn -[Sys.close Sys.open_fd Sys.epoll_create Sys.epoll_ctl_add Z.ltb].
    apply (registrations_add_listener _ _ _ _ _ _ _ Hadd).
    by apply registrations_create, registrations_open.
  - split; [|exact Hc].
    cbn -[Sys.close Sys.open_fd Sys.epoll_create Sys.epoll_ctl_add Z.ltb].
    do 2 apply registrations_close_keep.
    by apply registrations_create, registrations_open.
Qed.

Lemma spawn_workers_core n : forall s,
  Sys.epolls (kernel (spawn_workers n s)) = Sys.epolls (kernel s) /\
  Sys.fds (kernel (spawn_workers n s)) = Sys.fds (kernel s) /\
  connections_ (spawn_workers n s) = connections_ s /\
  stats_ (spawn_workers n s) = stats_ s.
Proof.
  induction n as [|n IH]; intros s; [auto|]. simpl.
  match goal with
  | |- context [spawn_workers n ?s0] => destruct (IH s0) as (-> & -> & -> & ->)
  end.
  auto.
Qed.

Lemma start_connections s : connections_ (snd (start s)) = connections_ s.
Proof.
  unfold start. destruct (running_ s); simpl; [reflexivity|].
  by destruct (spawn_workers_core (thread_count_ s) (set_running true s))
    as (_ & _ & -> & _).
Qed.

Lemma start_inv_at s live n : inv_at live n s -> inv_at live n (snd (start s)).
Proof.
  unfold inv_at, start. destruct (running_ s); simpl; [trivial|].
  intros [Hr Hc].
  destruct (spawn_workers_core (thread_count_ s) (set_running true s))
    as (He & Hf & Hcn & Hst).
  rewrite Hcn, Hst. split; [|exact Hc].
  revert Hr. apply registrations_same; [exact He | by rewrite Hf].
Qed.

Lemma stop_connections s : connections_ (stop s) = connections_ s.
Proof.
  destruct (running_ s) eqn:Hrun.
  - by destruct (stop_when_running s Hrun) as (_ & _ & _ & _ & _ & -> & _).
  - by rewrite stop_when_stopped.
Qed.

Lemma stop_inv_at s live n : inv_at live n s -> inv_at live n (stop s).
Proof.
  intros [Hr Hc]. unfold inv_at, stop.
  destruct (running_ s); cbn [negb]; [|by split].
  cbn -[Sys.close Sys.join_all Z.leb].
  assert (Hj : registrations_ok (connections_ s) live
                 (Sys.join_all (worker_threads_ s) (kernel s))).
  { revert Hr. apply registrations_same;
      [apply Sys.join_all_epolls | by rewrite Sys.join_all_fds]. }
  destruct (0 <=? epoll_fd_ s); cbn -[Sys.close Sys.join_all Z.leb];
    destruct (0 <=? server_socket_ s); cbn -[Sys.close Sys.join_all Z.leb];
    (split; [|exact Hc]);
    cbn -[Sys.close Sys.join_all Z.leb];
    repeat apply registrations_close_keep; exact Hj.
Qed.

(** *** The workers

    [worker_thread] is run by [thread_count_] threads that wait on one epoll
    instance.  A worker that is handed an event for a client reads
    [is_active] and then calls [handle_client_events]; the other workers run
    in between.  So the server is taken together with the calls its workers
    still owe: the connections for which a worker has found [is_active] set
    and has not yet called the handler. *)
Record world : Type := mkWorld {
  srv : server;
  in_flight : list nat
}.

(** One step of a server with at most [workers] worker threads: a call of a
    public routine; the listener's event, reported for a descriptor that is
    registered with the null tag, and the call of [accept_connections] that
    answers it; a client's event, reported for a registered descriptor, on
    which a worker that is not busy finds the connection active; or the call
    of [handle_client_events] that a worker owes, with whatever [recv] and
    [send] then answer.  Each routine is one step.  The state in which a
    routine ran into undefined behaviour is kept as a successor, so that
    what is proved of every reachable state holds of it as well. *)
Inductive step (workers : nat) : world -> world -> Prop :=
| step_initialize env w :
    step workers w (mkWorld (snd (initialize env (srv w))) (in_flight w))
| step_start w :
    step workers w (mkWorld (snd (start (srv w))) (in_flight w))
| step_stop w :
    step workers w (mkWorld (stop (srv w)) (in_flight w))
| step_listener x backlog w :
    Sys.interest_of (epoll_fd_ (srv w)) (kernel (srv w)) !! x = Some None ->
    step workers w
      (mkWorld (state_of (fst (accept_connections backlog (srv w)))) (in_flight w))
| step_test x conn c w :
    Sys.interest_of (epoll_fd_ (srv w)) (kernel (srv w)) !! x = Some (Some conn) ->
    connections_ (srv w) !! conn = Some c ->
    is_active c = true ->
    (length (in_flight w) < workers)%nat ->
    step workers w (mkWorld (srv w) (conn :: in_flight w))
| step_handler pre conn post c io w :
    in_flight w = pre ++ conn :: post ->
    connections_ (srv w) !! conn = Some c ->
    step workers w
      (mkWorld (handle_client_events (fd c) io (srv w)) (pre ++ post)).

(** The steps, from a server and the calls that are owed. *)
Lemma step_initialize_at workers env s calls :
  step workers (mkWorld s calls) (mkWorld (snd (initialize env s)) calls).
Proof. exact (step_initialize workers env (mkWorld s calls)). Qed.

Lemma step_start_at workers s calls :
  step workers (mkWorld s calls) (mkWorld (snd (start s)) calls).
Proof. exact (step_start workers (mkWorld s calls)). Qed.

Lemma step_stop_at workers s calls :
  step workers (mkWorld s calls) (mkWorld (stop s) calls).
Proof. exact (step_stop workers (mkWorld s calls)). Qed.

Lemma step_listener_at workers x backlog s calls :
  Sys.interest_of (epoll_fd_ s) (kernel s) !! x = Some None ->
  step workers (mkWorld s calls)
    (mkWorld (state_of (fst (accept_connections backlog s))) calls).
Proof. intros H. exact (step_listener workers x backlog (mkWorld s calls) H). Qed.

Lemma step_test_at workers x conn c s calls :
  Sys.interest_of (epoll_fd_ s) (kernel s) !! x = Some (Some conn) ->
  connections_ s !! conn = Some c ->
  is_active c = true ->
  (length calls < workers)%nat ->
  step workers (mkWorld s calls) (mkWorld s (conn :: calls)).
Proof.
  intros H1 H2 H3 H4.
  exact (step_test workers x conn c (mkWorld s calls) H1 H2 H3 H4).
Qed.

Lemma step_handler_at workers conn c client_fd io s calls :
  connections_ s !! conn = Some c ->
  fd c = client_fd ->
  step workers (mkWorld s (conn :: calls))
    (mkWorld (handle_client_events client_fd io s) calls).
Proof.
  intros Hc <-.
  exact (step_handler workers [] conn calls c io (mkWorld s (conn :: calls))
           eq_refl Hc).
Qed.

(** The server is constructed, for [workers] threads, in a process that has
    no epoll instance yet. *)
Definition reachable (workers : nat) (w : world) : Prop :=
  exists ip port sock ep send recv k,
    Sys.epolls k = ∅ /\
    rtc (step workers)
      (mkWorld (initial ip port workers sock ep send recv k) []) w.

(** A call that is owed for a connection whose descriptor is still among
    the registered ones. *)
Definition owed (live : gset Z) (s : server) (conn : nat) : Prop :=
  exists c, connections_ s !! conn = Some c /\ fd c ∈ live.

Definition world_inv (w : world) : Prop :=
  exists live n,
    inv_at live n (srv w) /\ Forall (owed live (srv w)) (in_flight w).

Lemma owed_mono live live' s s' conn :
  live ⊆ live' ->
  (forall i c, connections_ s !! i = Some c -> connections_ s' !! i = Some c) ->
  owed live s conn -> owed live' s' conn.
Proof.
  intros Hsub Hpre (c & Hc & Hfd). exists c. split; [by apply Hpre | set_solver].
Qed.

Lemma initial_inv ip port threads sock ep send recv k :
  Sys.epolls k = ∅ ->
  world_inv (mkWorld (initial ip port threads sock ep send recv k) []).
Proof.
  intros Hk. exists ∅, 0. split; [split|by apply Forall_nil].
  - split; simpl; intros ? ? ? *; rewrite Hk, lookup_empty; discriminate.
  - unfold counters_ok. rewrite size_empty. simpl.
    split; [lia|]. split; [reflexivity|]. split; [unfold two64; lia|]. left; lia.
Qed.

(** With a single worker at most one call is owed at any time, and it is
    owed for a connection that nobody else can close. *)
Lemma step_world_inv workers w w' :
  (workers <= 1)%nat ->
  step workers w w' ->
  (length (in_flight w) <= workers)%nat /\ world_inv w ->
  (length (in_flight w') <= workers)%nat /\ world_inv w'.
Proof.
  intros Hone Hstep [Hlen (live & n & Hinv & Howed)].
  destruct Hstep; cbn [srv in_flight] in *.
  - split; [exact Hlen|]. exists live, n.
    split; [by apply initialize_inv_at|]. cbn [srv in_flight].
    eapply Forall_impl; [exact Howed|]. intros conn.
    apply owed_mono; [done|]. intros i c. by rewrite initialize_connections.
  - split; [exact Hlen|]. exists live, n.
    split; [by apply start_inv_at|]. cbn [srv in_flight].
    eapply Forall_impl; [exact Howed|]. intros conn.
    apply owed_mono; [done|]. intros i c. by rewrite start_connections.
  - split; [exact Hlen|]. exists live, n.
    split; [by apply stop_inv_at|]. cbn [srv in_flight].
    eapply Forall_impl; [exact Howed|]. intros conn.
    apply owed_mono; [done|]. intros i c. by rewrite stop_connections.
  - split; [exact Hlen|].
    destruct (accept_connections_inv_at backlog (srv w) live n Hinv)
      as (live' & n' & Hsub & Hinv' & Hpre).
    exists live', n'. split; [exact Hinv'|]. cbn [srv in_flight].
    eapply Forall_impl; [exact Howed|]. intros conn0. by apply owed_mono.
  - split; [simpl; lia|]. exists live, n. split; [exact Hinv|].
    cbn [srv in_flight]. apply Forall_cons. split; [|exact Howed].
    destruct Hinv as [Hr _].
    match goal with
    | Hreg : Sys.interest_of _ _ !! _ = Some (Some _) |- _ =>
        unfold Sys.interest_of in Hreg;
        destruct (Sys.epolls (kernel (srv w)) !! epoll_fd_ (srv w))
          as [interest|] eqn:Hep;
          [|simpl in Hreg; by rewrite lookup_empty in Hreg];
        simpl in Hreg;
        destruct (proj2 Hr _ _ _ _ Hep Hreg) as (Hlive & c' & Hc' & Hfd)
    end.
    exists c'. split; [exact Hc' | by rewrite Hfd].
  - match goal with
    | Hin : in_flight w = _ |- _ => rewrite Hin in Hlen, Howed
    end.
    rewrite length_app in Hlen. cbn [length] in Hlen.
    assert (pre = []) as -> by (destruct pre; [reflexivity | simpl in Hlen; lia]).
    assert (post = []) as -> by (destruct post; [reflexivity | simpl in Hlen; lia]).
    cbn [app length]. split; [lia|].
    apply Forall_cons in Howed as [(c0 & Hc0 & Hfd0) _].
    assert (c0 = c) as -> by congruence.
    destruct Hinv as [Hr Hc].
    destruct (handle_client_events_inv (fd c) io (srv w) live n Hr Hc Hfd0)
      as (live' & n' & Hr' & Hc').
    exists live', n'. split; [by split | by apply Forall_nil].
Qed.

Lemma reachable_world_inv workers w :
  (workers <= 1)%nat -> reachable workers w -> world_inv w.
Proof.
  intros Hone (ip & port & sock & ep & send & recv & k & Hk & Hrtc).
  assert (H : (length (in_flight w) <= workers)%nat /\ world_inv w);
    [|exact (proj2 H)].
  revert w Hrtc. apply rtc_ind_r.
  - split; [simpl; lia | by apply initial_inv].
  - intros y z _ Hstep Hy. by apply (step_world_inv workers y z).
Qed.

Lemma reachable_peak_covers_active workers w :
  (workers <= 1)%nat ->
  reachable workers w ->
  active_connections (stats_ (srv w)) <= peak_connections (stats_ (srv w)).
Proof.
  intros Hone Hw.
  destruct (reachable_world_inv workers w Hone Hw) as (live & n & [_ Hc] & _).
  by apply (counters_peak live n).
Qed.

(** No routine lowers the peak. *)
Lemma initialize_stats env s : stats_ (snd (initialize env s)) = stats_ s.
Proof.
  unfold initialize.
  cbn -[Sys.close Sys.open_fd Sys.epoll_create Sys.epoll_ctl_add Z.ltb].
  destruct (i_socket env <? 0); [reflexivity|].
  destruct (i_sockopts_ok env); cbn [negb]; [|reflexivity].
  destruct (i_nonblock_ok env); cbn [negb]; [|reflexivity].
  destruct (i_bind env <? 0); [reflexivity|].
  destruct (i_listen env <? 0); [reflexivity|].
  cbn -[Sys.close Sys.open_fd Sys.epoll_create Sys.epoll_ctl_add Z.ltb].
  destruct (i_epoll_create env <? 0); [reflexivity|].
  cbn -[Sys.close Sys.open_fd Sys.epoll_create Sys.epoll_ctl_add Z.ltb].
  destruct (Sys.epoll_ctl_add _ _ _ _ _); reflexivity.
Qed.

Lemma start_stats s : stats_ (snd (start s)) = stats_ s.
Proof.
  unfold start. destruct (running_ s); simpl; [reflexivity|].
  by destruct (spawn_workers_core (thread_count_ s) (set_running true s))
    as (_ & _ & _ & ->).
Qed.

Lemma stop_stats s : stats_ (stop s) = stats_ s.
Proof.
  destruct (running_ s) eqn:Hrun.
  - by destruct (stop_when_running s Hrun) as (_ & _ & _ & _ & _ & _ & ->).
  - by rewrite stop_when_stopped.
Qed.

Lemma close_connection_peak conn s :
  peak_connections (stats_ (close_connection conn s)) = peak_connections (stats_ s).
Proof.
  unfold close_connection. destruct conn as [i|]; [|reflexivity].
  destruct (connections_ s !! i); reflexivity.
Qed.

Lemma handle_client_events_peak client_fd io s :
  peak_connections (stats_ (handle_client_events client_fd io s))
  = peak_connections (stats_ s).
Proof.
  unfold handle_client_events.
  destruct (list_find _ _) as [[j cj]|]; [|reflexivity].
  unfold get_next_recv_buffer. cbn zeta beta iota.
  destruct (io_recv io) as [bytes_read m| |errno].
  - destruct (_ <? _); [reflexivity|].
    match goal with
    | |- context [process_message ?a ?b ?c ?d] =>
        destruct (process_message_core a b c d) as (_ & _ & _ & ->)
    end.
    reflexivity.
  - by rewrite close_connection_peak.
  - destruct (_ || _); [reflexivity|]. by rewrite close_connection_peak.
Qed.

Lemma accept_connections_peak backlog : forall s,
  peak_connections (stats_ s)
  <= peak_connections (stats_ (state_of (fst (accept_connections backlog s)))).
Proof.
  induction backlog as [|[a|errno] rest IH]; intros s.
  - simpl. lia.
  - cbn [accept_connections].
    destruct (negb (Sys.a_sockopts_ok a) || negb (Sys.a_nonblock_ok a)).
    + etrans; [|apply IH]. simpl. lia.
    + cbn -[Sys.close Sys.open_fd Sys.epoll_ctl_add].
      destruct (Sys.epoll_ctl_add _ _ _ _ _) as [k'|].
      * cbn -[Sys.close Sys.open_fd Sys.epoll_ctl_add Z.ltb].
        destruct (_ <? _) eqn:Hlt; [apply Z.ltb_lt in Hlt|]; lia.
      * etrans; [|apply IH]. simpl. lia.
  - cbn [accept_connections]. destruct (_ || _); simpl; lia.
Qed.

Lemma step_peak_never_drops workers w w' :
  step workers w w' ->
  peak_connections (stats_ (srv w)) <= peak_connections (stats_ (srv w')).
Proof.
  intros Hstep. destruct Hstep; cbn [srv].
  - rewrite initialize_stats. lia.
  - rewrite start_stats. lia.
  - rewrite stop_stats. lia.
  - apply accept_connections_peak.
  - lia.
  - rewrite handle_client_events_peak. lia.
Qed.

Lemma rtc_peak_never_drops workers w w' :
  rtc (step workers) w w' ->
  peak_connections (stats_ (srv w)) <= peak_connections (stats_ (srv w')).
Proof.
  induction 1 as [|w1 w2 w3 Hstep _ IH]; [lia|].
  apply step_peak_never_drops in Hstep. lia.
Qed.

End reach.

End Ultra.

(** * The dispatcher counts every record *)

(** C2. Every record handed to the dispatcher adds exactly one to the
    count of processed messages, a handler being registered for its type or
    not, so that a run of the receive loop adds the number of records it
    hands over.  With no handler for the type the record is dropped silently:
    nothing is written to the error stream, nothing is delivered or sent,
    the kernel (hence every socket) and the connection table stay as they
    were, and only the statistics change. *)
Theorem dispatcher_counts_every_record :
  (forall (layout : Layout) script conn s,
      0 <= HFT.total_messages_processed (HFT.stats_ s) < two64 ->
      HFT.total_messages_processed (HFT.stats_ (HFT.recv_loop script conn s))
      = u64 (HFT.total_messages_processed (HFT.stats_ s) + HFT.fed script)) /\
  (forall msg latency_ns conn s,
      let s' := HFT.process_client_message msg latency_ns conn s in
      let total := HFT.total_messages_processed (HFT.stats_ s) in
      HFT.total_messages_processed (HFT.stats_ s') = u64 (total + 1) /\
      (0 <= total < two64 - 1 ->
       HFT.total_messages_processed (HFT.stats_ s') = total + 1) /\
      (HFT.services_ s !! Message.message_type msg = None ->
       HFT.trace s' = HFT.trace s /\ HFT.kernel s' = HFT.kernel s /\
       HFT.connections_ s' = HFT.connections_ s /\
       HFT.services_ s' = HFT.services_ s /\
       HFT.running_ s' = HFT.running_ s)) /\
  (forall (layout : Layout) io m c s,
      let s' := Ultra.process_message io (Some m) (Some c) s in
      let total := Ultra.total_messages (Ultra.stats_ s) in
      let ty := default 0 (Ultra.message_type <$> Ultra.recv_buffer_ s !! m) in
      Ultra.total_messages (Ultra.stats_ s') = u64 (total + 1) /\
      (0 <= total < two64 - 1 ->
       Ultra.total_messages (Ultra.stats_ s') = total + 1) /\
      (ty <> 1 -> ty <> 2 ->
       Ultra.trace s' = Ultra.trace s /\ Ultra.kernel s' = Ultra.kernel s /\
       Ultra.connections_ s' = Ultra.connections_ s /\
       Ultra.running_ s' = Ultra.running_ s)).
Proof.
  split; [intros layout script conn s; apply HFT.recv_loop_counts|].
  split.
  - intros msg latency_ns conn s s' total.
    split; [apply HFT.process_client_message_counts|].
    split.
    + intros Hr. subst s'. rewrite HFT.process_client_message_counts.
      apply u64_small. fold total. lia.
    + intros Hnone. subst s'.
      rewrite (HFT.process_client_message_absent _ _ _ _ Hnone).
      repeat split; reflexivity.
  - intros layout io m c s s' total ty.
    split; [apply Ultra.process_message_counts|].
    split.
    + intros Hr. subst s'. rewrite Ultra.process_message_counts.
      apply u64_small. fold total. lia.
    + intros H1 H2. subst s'.
      rewrite (Ultra.process_message_unhandled io m c s H1 H2).
      repeat split; reflexivity.
Qed.

(** * Worked states

    A process with the three standard descriptors open, in which each
    server is initialised (listener on descriptor 3, epoll instance on 4),
    started with four workers, and then accepts a client on descriptor 5. *)

Definition boot {P : Type} : Sys.t P := Sys.mk {[0; 1; 2]} ∅ ∅ 0.

Definition client5 : Sys.accepted :=
  Sys.mkAccepted 5 0x7f000001 true true true 1000 0x5000.
Definition client6 : Sys.accepted :=
  Sys.mkAccepted 6 0x7f000001 true true true 2000 0x6000.

Definition hft_initialized : HFT.server :=
  snd (HFT.initialize (HFT.mkInitEnv 3 0 0 4 true) "127.0.0.1" 8888 4
         (HFT.initial boot)).

Definition hft_running : HFT.server :=
  HFT.start (HFT.register_main_services hft_initialized).

Definition hft_serving : HFT.server :=
  fst (HFT.accept_connections [Sys.AcceptOk client5] hft_running).

Definition ultra_buffers : list Ultra.UltraMessage :=
  replicate 1024 (Ultra.UltraMessage_ctor []).

Definition ultra_initialized : Ultra.server :=
  snd (Ultra.initialize (Ultra.mkInitEnv 3 true true 0 0 4 true)
         (Ultra.initial "127.0.0.1" 8888 4 (-1) (-1) ultra_buffers ultra_buffers
            boot)).

Definition ultra_running : Ultra.server := snd (Ultra.start ultra_initialized).

(** The state in which a worker is left by the listener's event when the
    client on descriptor 5 is waiting: [accept_connections] takes the client
    in and stops. *)
Definition ultra_serving : Ultra.server :=
  Ultra.state_of
    (Ultra.on_event (layout := lp64) None [Sys.AcceptOk client5]
       (Ultra.mkIo Ultra.RecvEOF 0 0 0) ultra_running).

(** A record whose tag, 0x42, the enumeration does not name. *)
Definition untagged : Message.t :=
  Message.mk 78 1700000000 2 0x42 MessageStatus.PENDING 1 2 0 (replicate 1024 0).

(** An order of full length whose header announces 5000 bytes of payload. *)
Definition oversized : Message.t :=
  Message.mk 77 1700000000 1 MessageType.ORDER_NEW MessageStatus.PENDING 1 2
    5000 (replicate 1024 0).

(** Decide a closed proposition by evaluating its decision procedure. *)
Ltac decide_by_compute :=
  match goal with
  | |- ?P => apply (bool_decide_eq_true_1 P); vm_compute; reflexivity
  end.

Lemma hft_serving_reachable : HFT.reachable (layout := lp64) hft_serving.
Proof.
  exists boot.
  unfold hft_serving, hft_running, HFT.register_main_services, hft_initialized.
  eapply rtc_r; [|apply HFT.step_accept].
  eapply rtc_r; [|apply HFT.step_start].
  do 4 (eapply rtc_r; [|apply HFT.step_register]).
  eapply rtc_r; [|apply HFT.step_initialize]. apply rtc_refl.
Qed.

Lemma ultra_serving_reachable :
  Ultra.reachable (layout := lp64) 4 (Ultra.mkWorld ultra_serving []).
Proof.
  exists "127.0.0.1"%string, 8888, (-1), (-1), ultra_buffers, ultra_buffers, boot.
  split; [reflexivity|].
  assert (Hlistener :
    Sys.interest_of (Ultra.epoll_fd_ ultra_running) (Ultra.kernel ultra_running) !! 3
    = Some None) by (vm_compute; reflexivity).
  assert (Hserving :
    ultra_serving
    = Ultra.state_of
        (fst (Ultra.accept_connections [Sys.AcceptOk client5] ultra_running)))
    by (vm_compute; reflexivity).
  rewrite Hserving.
  apply (rtc_r _ (Ultra.mkWorld ultra_running []));
    [|exact (Ultra.step_listener_at 4 3 [Sys.AcceptOk client5] ultra_running []
               Hlistener)].
  apply (rtc_r _ (Ultra.mkWorld ultra_initialized []));
    [|exact (Ultra.step_start_at 4 ultra_initialized [])].
  apply (rtc_r _ (Ultra.mkWorld
                    (Ultra.initial "127.0.0.1" 8888 4 (-1) (-1) ultra_buffers
                       ultra_buffers boot) []));
    [|exact (Ultra.step_initialize_at 4 (Ultra.mkInitEnv 3 true true 0 0 4 true)
               (Ultra.initial "127.0.0.1" 8888 4 (-1) (-1) ultra_buffers
                  ultra_buffers boot) [])].
  apply rtc_refl.
Qed.

Lemma dispatcher_counts_every_record_witness :
  HFT.services_ hft_serving !! MessageType.HEARTBEAT = None /\
  HFT.total_messages_processed
    (HFT.stats_ (HFT.process_client_message Message.ctor 800 5 hft_serving)) = 1 /\
  HFT.trace (HFT.process_client_message Message.ctor 800 5 hft_serving)
  = HFT.trace hft_serving.
Proof.
  destruct dispatcher_counts_every_record as (_ & H & _).
  destruct (H Message.ctor 800 5 hft_serving) as (_ & H1 & H2).
  assert (Hnone : HFT.services_ hft_serving !! MessageType.HEARTBEAT = None)
    by (vm_compute; reflexivity).
  split; [exact Hnone|]. split.
  - rewrite H1; [reflexivity | vm_compute; split; [discriminate | reflexivity]].
  - exact (proj1 (H2 Hnone)).
Defined.

(** * What each outcome of [recv] does to the connection *)

(** C3 (as amended). In the per-connection routine: when [recv] returns 0
    the connection is closed, that is its descriptor is closed and taken
    off the epoll instance, the baseline server erasing the record from its
    table and the low-latency server keeping the record in its vector,
    marked inactive and counted out of [active_connections]; when [recv]
    fails with [EAGAIN] or [EWOULDBLOCK] the routine stops reading and
    leaves the connection as it is; and when [recv] fails with any other
    [errno] the low-latency server closes the connection in the same way. *)
Theorem recv_outcomes (layout : Layout) :
  (forall conn c rest s,
      HFT.connections_ s !! conn = Some c ->
      let s' := HFT.recv_loop (HFT.RecvEOF :: rest) conn s in
      (HFT.fd c ∉ Sys.fds (HFT.kernel s')) /\
      ~ Sys.registered (HFT.epoll_fd_ s') (HFT.fd c) (HFT.kernel s') /\
      HFT.connections_ s' !! HFT.fd c = None) /\
  (forall errno rest conn s,
      errno = Sys.EAGAIN \/ errno = Sys.EWOULDBLOCK ->
      HFT.recv_loop (HFT.RecvErr errno :: rest) conn s = s) /\
  (forall conn s, HFT.recv_loop [] conn s = s) /\
  (forall client_fd script s,
      is_Some (HFT.connections_ s !! client_fd) ->
      HFT.handle_client_events client_fd script s
      = HFT.recv_loop script client_fd s) /\
  (forall client_fd io i c s,
      list_find (fun c => Ultra.fd c = client_fd) (Ultra.connections_ s)
      = Some (i, c) ->
      (Ultra.io_recv io = Ultra.RecvEOF \/
       exists errno, Ultra.io_recv io = Ultra.RecvErr errno /\
                     errno <> Sys.EAGAIN /\ errno <> Sys.EWOULDBLOCK) ->
      let s' := Ultra.handle_client_events client_fd io s in
      (client_fd ∉ Sys.fds (Ultra.kernel s')) /\
      ~ Sys.registered (Ultra.epoll_fd_ s') client_fd (Ultra.kernel s') /\
      (exists c', Ultra.connections_ s' !! i = Some c' /\
                  Ultra.is_active c' = false /\ Ultra.fd c' = client_fd) /\
      length (Ultra.connections_ s') = length (Ultra.connections_ s) /\
      Ultra.active_connections (Ultra.stats_ s')
      = u64 (Ultra.active_connections (Ultra.stats_ s) - 1)) /\
  (forall client_fd io i c errno s,
      list_find (fun c => Ultra.fd c = client_fd) (Ultra.connections_ s)
      = Some (i, c) ->
      Ultra.io_recv io = Ultra.RecvErr errno ->
      errno = Sys.EAGAIN \/ errno = Sys.EWOULDBLOCK ->
      let s' := Ultra.handle_client_events client_fd io s in
      Ultra.kernel s' = Ultra.kernel s /\
      Ultra.connections_ s' = Ultra.connections_ s /\
      Ultra.stats_ s' = Ultra.stats_ s).
Proof.
  split; [|split; [|split; [|split; [|split]]]].
  - intros conn c rest s Hc s'. subst s'. cbn [HFT.recv_loop].
    destruct (HFT.close_connection_spec conn c s Hc) as (H1 & H2 & H3 & _).
    auto.
  - intros. by apply HFT.recv_loop_would_block.
  - reflexivity.
  - intros client_fd script s [c Hc]. unfold HFT.handle_client_events.
    by rewrite Hc.
  - intros client_fd io i c s Hfind Hrecv s'. subst s'.
    rewrite (Ultra.handle_client_events_closes client_fd io i c s Hfind Hrecv).
    apply list_find_Some in Hfind as (Hi & Hfd & _).
    destruct (Ultra.close_connection_effect i c
                (snd (Ultra.get_next_recv_buffer s)) Hi)
      as (H1 & H2 & _ & H4 & H5 & H6 & _).
    rewrite Hfd in *. auto.
  - intros client_fd io i c errno s Hfind Hrecv He s'. subst s'.
    rewrite (Ultra.handle_client_events_would_block client_fd io i c errno s
               Hfind Hrecv He).
    repeat split; reflexivity.
Qed.

Lemma recv_outcomes_witness :
  HFT.connections_ hft_serving !! 5
  = Some (HFT.mkConnection 5 0x7f000001 1000 0x5000 false) /\
  let s' := HFT.recv_loop (layout := lp64) [HFT.RecvEOF] 5 hft_serving in
  (5 ∉ Sys.fds (HFT.kernel s')) /\
  ~ Sys.registered (HFT.epoll_fd_ s') 5 (HFT.kernel s') /\
  HFT.connections_ s' !! 5 = None.
Proof.
  assert (Hc : HFT.connections_ hft_serving !! 5
               = Some (HFT.mkConnection 5 0x7f000001 1000 0x5000 false))
    by (vm_compute; reflexivity).
  split; [exact Hc|].
  destruct (recv_outcomes lp64) as [H _].
  exact (H 5 _ [] hft_serving Hc).
Defined.

(** C3, as the specification states it, fails on both servers.  On the
    baseline server a [recv] that fails with [ECONNRESET] makes the routine
    write "Recv failed" and return: the descriptor stays open and
    registered and the record stays in the table.  On the low-latency
    server a [recv] that returns 0 closes the descriptor but leaves the
    record in [connections_]. *)
Lemma recv_error_keeps_connection_counterexample :
  Sys.ECONNRESET <> Sys.EAGAIN /\ Sys.ECONNRESET <> Sys.EWOULDBLOCK /\
  (let s' := HFT.handle_client_events (layout := lp64) 5
               [HFT.RecvErr Sys.ECONNRESET] hft_serving in
   HFT.reachable (layout := lp64) hft_serving /\
   5 ∈ Sys.fds (HFT.kernel s') /\
   Sys.registered (HFT.epoll_fd_ s') 5 (HFT.kernel s') /\
   is_Some (HFT.connections_ s' !! 5) /\
   HFT.trace s' = HFT.trace hft_serving ++ [Sys.Ecerr "Recv failed"]) /\
  (let s' := Ultra.handle_client_events (layout := lp64) 5
               (Ultra.mkIo Ultra.RecvEOF 0 0 0) ultra_serving in
   length (Ultra.connections_ ultra_serving) = 1%nat /\
   length (Ultra.connections_ s') = 1%nat /\
   Ultra.fd <$> Ultra.connections_ s' !! 0%nat = Some 5).
Proof.
  split; [discriminate|]. split; [discriminate|]. split.
  - split; [apply hft_serving_reachable|].
    split; [decide_by_compute|].
    split; [exists (Some 5); vm_compute; reflexivity|].
    split; [eexists; vm_compute; reflexivity|].
    vm_compute. reflexivity.
  - repeat split; vm_compute; reflexivity.
Qed.

(** * Stopping *)

(** C4 (as amended). When [stop()] is called on a server whose running
    flag is set, it returns with the flag cleared, the listener and the
    epoll instance closed and every worker joined, and (baseline server)
    with the descriptor of every connection of the table closed and the
    table empty.  When the flag is not set, because the server was never
    started or was already stopped, [stop()] changes nothing; so a second
    call changes nothing. *)
Theorem stop_postconditions :
  (forall s,
      HFT.running_ s = true ->
      let s' := HFT.stop s in
      HFT.running_ s' = false /\
      HFT.server_socket_ s' = -1 /\ HFT.epoll_fd_ s' = -1 /\
      (HFT.server_socket_ s <> -1 ->
       HFT.server_socket_ s ∉ Sys.fds (HFT.kernel s')) /\
      (HFT.epoll_fd_ s <> -1 -> HFT.epoll_fd_ s ∉ Sys.fds (HFT.kernel s')) /\
      HFT.worker_threads_ s' = [] /\
      (forall tid, tid ∈ HFT.worker_threads_ s ->
                   tid ∉ Sys.threads (HFT.kernel s')) /\
      HFT.connections_ s' = ∅ /\
      (forall key c, HFT.connections_ s !! key = Some c ->
                     HFT.fd c ∉ Sys.fds (HFT.kernel s'))) /\
  (forall s, HFT.running_ s = false -> HFT.stop s = s) /\
  (forall s, HFT.stop (HFT.stop s) = HFT.stop s) /\
  (forall s,
      Ultra.running_ s = true ->
      let s' := Ultra.stop s in
      Ultra.running_ s' = false /\
      (0 <= Ultra.server_socket_ s ->
       Ultra.server_socket_ s' = -1 /\
       Ultra.server_socket_ s ∉ Sys.fds (Ultra.kernel s')) /\
      (0 <= Ultra.epoll_fd_ s ->
       Ultra.epoll_fd_ s' = -1 /\
       Ultra.epoll_fd_ s ∉ Sys.fds (Ultra.kernel s')) /\
      Ultra.worker_threads_ s' = [] /\
      (forall tid, tid ∈ Ultra.worker_threads_ s ->
                   tid ∉ Sys.threads (Ultra.kernel s'))) /\
  (forall s, Ultra.running_ s = false -> Ultra.stop s = s) /\
  (forall s, Ultra.stop (Ultra.stop s) = Ultra.stop s).
Proof.
  split; [exact HFT.stop_running|].
  split; [exact HFT.stop_not_running|].
  split; [exact HFT.stop_idempotent|].
  split.
  { intros s Hrun s'.
    destruct (Ultra.stop_when_running s Hrun) as (H1 & H2 & H3 & H4 & H5 & _).
    auto. }
  split; [exact Ultra.stop_when_stopped | exact Ultra.stop_twice].
Qed.

Lemma stop_postconditions_witness :
  HFT.running_ hft_serving = true /\
  let s' := HFT.stop hft_serving in
  HFT.running_ s' = false /\ HFT.connections_ s' = ∅ /\
  (3 ∉ Sys.fds (HFT.kernel s')) /\ (4 ∉ Sys.fds (HFT.kernel s')) /\
  (5 ∉ Sys.fds (HFT.kernel s')) /\
  HFT.stop s' = s'.
Proof.
  assert (Hrun : HFT.running_ hft_serving = true) by (vm_compute; reflexivity).
  split; [exact Hrun|].
  destruct stop_postconditions as (H & _ & Hidem & _).
  destruct (H hft_serving Hrun) as (H1 & _ & _ & H4 & H5 & _ & _ & H8 & H9).
  split; [exact H1|]. split; [exact H8|].
  split; [apply H4; vm_compute; discriminate|].
  split; [apply H5; vm_compute; discriminate|].
  split; [|apply Hidem].
  apply (H9 5 (HFT.mkConnection 5 0x7f000001 1000 0x5000 false)).
  vm_compute. reflexivity.
Defined.

(** C4, as the specification states it, fails.  Called on a baseline server
    that was initialised and never started, [stop()] returns at once, and
    the listener (descriptor 3) and the epoll instance (descriptor 4) are
    still open when it has returned.  And on the low-latency server, which
    is running, [stop()] leaves the client taken in on descriptor 5 in
    [connections_] with its descriptor open. *)
Lemma stop_before_start_counterexample :
  (HFT.running_ hft_initialized = false /\
   HFT.server_socket_ hft_initialized = 3 /\
   HFT.epoll_fd_ hft_initialized = 4 /\
   HFT.stop hft_initialized = hft_initialized /\
   3 ∈ Sys.fds (HFT.kernel (HFT.stop hft_initialized)) /\
   4 ∈ Sys.fds (HFT.kernel (HFT.stop hft_initialized))) /\
  (Ultra.running_ ultra_serving = true /\
   Ultra.fd <$> Ultra.connections_ (Ultra.stop ultra_serving) !! 0%nat = Some 5 /\
   5 ∈ Sys.fds (Ultra.kernel (Ultra.stop ultra_serving))).
Proof.
  split.
  - split; [vm_compute; reflexivity|].
    split; [vm_compute; reflexivity|].
    split; [vm_compute; reflexivity|].
    split; [apply HFT.stop_not_running; vm_compute; reflexivity|].
    split; decide_by_compute.
  - split; [vm_compute; reflexivity|].
    split; [vm_compute; reflexivity | decide_by_compute].
Qed.

(** * Records and handlers *)

(** C5 (as amended). The baseline server hands a record to a handler only
    if a handler is registered for the record's tag; so when handlers are
    registered for enumerated tags only, as [main] does, no record whose
    tag is outside the enumeration reaches a handler.  It does not look at
    [payload_size]: a record that is long enough for its tag and whose tag
    has a handler is delivered whatever [payload_size] says.
    [Message::is_valid()], which the server does not call, is false for
    every record whose [payload_size] exceeds 1024 and does not depend on
    the tag. *)
Theorem deliveries_follow_registry (layout : Layout) :
  (forall client_fd script s,
      exists new,
        HFT.trace (HFT.handle_client_events client_fd script s)
        = HFT.trace s ++ new /\
        (forall m c, Sys.Edeliver m c ∈ new ->
                     is_Some (HFT.services_ s !! Message.message_type m)) /\
        ((forall tag, is_Some (HFT.services_ s !! tag) ->
                      MessageType.enumerated tag = true) ->
         forall m c, Sys.Edeliver m c ∈ new ->
                     MessageType.enumerated (Message.message_type m) = true)) /\
  (forall bytes_read m latency_ns conn s service,
      HFT.complete bytes_read m = true ->
      HFT.services_ s !! Message.message_type m = Some service ->
      HFT.trace (HFT.dispatch bytes_read m latency_ns conn s)
      = HFT.trace s ++ [Sys.Edeliver m conn]) /\
  (forall m, Message.wf m -> 1024 < Message.payload_size m ->
             Message.is_valid m = false) /\
  (forall m tag,
      Message.is_valid
        (Message.mk (Message.message_id m) (Message.timestamp m)
           (Message.sequence_number m) tag (Message.status m)
           (Message.source_id m) (Message.destination_id m)
           (Message.payload_size m) (Message.payload m))
      = Message.is_valid m).
Proof.
  split; [|split; [|split]].
  - intros client_fd script s.
    destruct (HFT.handle_client_events_deliveries client_fd script s)
      as (new & Ht & Hd).
    exists new. split; [exact Ht|]. split; [exact Hd|].
    intros Henum m c Hin. apply Henum. by apply (Hd m c).
  - intros bytes_read m latency_ns conn s service Hcomplete Hsvc.
    rewrite HFT.dispatch_complete, Hcomplete.
    by apply (HFT.process_client_message_present _ _ _ _ service).
  - intros m Hwf Hbig.
    destruct (Message.is_valid m) eqn:Hv; [|reflexivity].
    pose proof (Message.is_valid_payload_size m Hwf Hv) as Hle.
    unfold Message.payload_capacity in Hle. lia.
  - reflexivity.
Qed.

Lemma deliveries_follow_registry_witness :
  Message.wf oversized /\ 1024 < Message.payload_size oversized /\
  Message.is_valid oversized = false /\
  exists new,
    HFT.trace (HFT.handle_client_events (layout := lp64) 5
                 [HFT.RecvData 1064 Message.ctor 800] hft_serving)
    = HFT.trace hft_serving ++ new /\
    forall m c, Sys.Edeliver m c ∈ new ->
                is_Some (HFT.services_ hft_serving !! Message.message_type m).
Proof.
  assert (Hwf : Message.wf oversized) by (vm_compute; reflexivity).
  assert (Hbig : 1024 < Message.payload_size oversized) by (vm_compute; reflexivity).
  destruct (deliveries_follow_registry lp64) as (H1 & _ & H3 & _).
  split; [exact Hwf|]. split; [exact Hbig|].
  split; [exact (H3 oversized Hwf Hbig)|].
  destruct (H1 5 [HFT.RecvData 1064 Message.ctor 800] hft_serving)
    as (new & Ht & Hd & _).
  exists new. split; [exact Ht | exact Hd].
Defined.

(** C5, as the specification states it, fails: a record with the tag
    ORDER_NEW and the full length of an order whose header announces 5000
    bytes of payload is handed to the order handler that [main] registers.
    Nor is the tag checked against the enumeration: once a handler is
    registered under the value 0x42, a record with that tag is handed to
    it. *)
Lemma oversized_record_delivered_counterexample :
  (HFT.reachable (layout := lp64) hft_serving /\
   1024 < Message.payload_size oversized /\
   Message.is_valid oversized = false /\
   is_Some (HFT.services_ hft_serving !! MessageType.ORDER_NEW) /\
   HFT.trace hft_serving = [] /\
   HFT.trace (HFT.handle_client_events (layout := lp64) 5
                [HFT.RecvData 1120 oversized 800] hft_serving)
   = [Sys.Edeliver oversized 5]) /\
  (MessageType.enumerated 0x42 = false /\
   HFT.trace (HFT.handle_client_events (layout := lp64) 5
                [HFT.RecvData 1064 untagged 800]
                (HFT.register_service 0x42 HFT.OrderService hft_serving))
   = [Sys.Edeliver untagged 5]).
Proof.
  split.
  - split; [apply hft_serving_reachable|].
    split; [vm_compute; reflexivity|].
    split; [vm_compute; reflexivity|].
    split; [eexists; vm_compute; reflexivity|].
    split; vm_compute; reflexivity.
  - split; vm_compute; reflexivity.
Qed.

(** * Accepting *)

(** C6 (as amended). When the listener is reported ready, the baseline
    server calls [accept] once and takes in at most one of the waiting
    connections, leaving the others in the listener's queue.  The
    low-latency server calls [accept] in a loop: it closes and goes past
    every socket that it cannot set up or register, and, as long as it meets
    no socket it can admit, the loop ends at the first [accept] that fails,
    with [EAGAIN], [EWOULDBLOCK] or any other [errno], or when the queue is
    empty.

    The last part says how every call of the low-latency routine ends,
    whatever is waiting: it returns when the queue is used up or at the first
    [accept] that fails, having admitted nobody; or it admits one connection,
    stores and counts it, and runs into the read through the moved-from
    pointer with the rest of the queue unread. *)
Theorem accept_routines :
  (forall backlog s,
      snd (HFT.accept_connections backlog s) = tail backlog /\
      (HFT.connections_ (fst (HFT.accept_connections backlog s))
       = HFT.connections_ s \/
       exists a conn, head backlog = Some (Sys.AcceptOk a) /\
         HFT.fd conn = Sys.a_fd a /\
         HFT.connections_ (fst (HFT.accept_connections backlog s))
         = <[Sys.a_fd a := conn]> (HFT.connections_ s))) /\
  (forall pre errno rest s,
      forallb Ultra.refused pre = true ->
      exists s',
        Ultra.accept_connections (pre ++ Sys.AcceptErr errno :: rest) s
        = (Ultra.Returned s', rest) /\
        Ultra.connections_ s' = Ultra.connections_ s /\
        Ultra.stats_ s' = Ultra.stats_ s /\
        (forall a, Sys.AcceptOk a ∈ pre ->
                   Sys.a_fd a ∉ Sys.fds (Ultra.kernel s'))) /\
  (forall pre s,
      forallb Ultra.refused pre = true ->
      exists s',
        Ultra.accept_connections pre s = (Ultra.Returned s', []) /\
        Ultra.connections_ s' = Ultra.connections_ s /\
        Ultra.stats_ s' = Ultra.stats_ s /\
        (forall a, Sys.AcceptOk a ∈ pre ->
                   Sys.a_fd a ∉ Sys.fds (Ultra.kernel s'))) /\
  (forall backlog s,
      exists pre,
        Forall Ultra.accepted_socket pre /\
        ((exists s',
            backlog = pre /\
            Ultra.accept_connections backlog s = (Ultra.Returned s', []) /\
            Ultra.skipped pre s s') \/
         (exists errno rest s',
            backlog = pre ++ Sys.AcceptErr errno :: rest /\
            Ultra.accept_connections backlog s = (Ultra.Returned s', rest) /\
            Ultra.skipped pre s s') \/
         (exists a rest s' c,
            backlog = pre ++ Sys.AcceptOk a :: rest /\
            Ultra.accept_connections backlog s = (Ultra.Faulted s', rest) /\
            Ultra.connections_ s' = Ultra.connections_ s ++ [c] /\
            Ultra.fd c = Sys.a_fd a /\ Ultra.is_active c = true /\
            (Sys.a_fd a ∈ Sys.fds (Ultra.kernel s')) /\
            Ultra.active_connections (Ultra.stats_ s')
            = u64 (Ultra.active_connections (Ultra.stats_ s) + 1)))).
Proof.
  split; [exact HFT.accept_connections_once|]. split; [|split].
  - intros pre errno rest s Hpre.
    destruct (Ultra.accept_connections_refused pre (Sys.AcceptErr errno :: rest)
                s Hpre) as (s1 & Hrun & Hc & Hs & Hcl & _).
    rewrite Hrun. cbn [Ultra.accept_connections].
    destruct (_ || _).
    + exists s1. auto.
    + exists (Ultra.emit (Sys.Ecerr "Accept failed") s1). auto.
  - intros pre s Hpre.
    destruct (Ultra.accept_connections_refused pre [] s Hpre)
      as (s1 & Hrun & Hc & Hs & Hcl & _).
    rewrite app_nil_r in Hrun. rewrite Hrun. exists s1. auto.
  - intros backlog s. apply Ultra.accept_connections_ends.
Qed.

(** A client whose socket cannot be made non-blocking. *)
Definition client7 : Sys.accepted :=
  Sys.mkAccepted 7 0x7f000001 true false true 3000 0x7000.

Lemma accept_routines_witness :
  forallb Ultra.refused [Sys.AcceptOk client7] = true /\
  exists s',
    Ultra.accept_connections
      ([Sys.AcceptOk client7] ++ Sys.AcceptErr Sys.EMFILE :: [Sys.AcceptOk client5])
      ultra_running
    = (Ultra.Returned s', [Sys.AcceptOk client5]) /\
    Ultra.connections_ s' = Ultra.connections_ ultra_running /\
    Ultra.stats_ s' = Ultra.stats_ ultra_running /\
    (forall a, Sys.AcceptOk a ∈ [Sys.AcceptOk client7] ->
               Sys.a_fd a ∉ Sys.fds (Ultra.kernel s')).
Proof.
  assert (Hpre : forallb Ultra.refused [Sys.AcceptOk client7] = true)
    by reflexivity.
  split; [exact Hpre|].
  destruct accept_routines as (_ & H & _).
  exact (H [Sys.AcceptOk client7] Sys.EMFILE [Sys.AcceptOk client5]
           ultra_running Hpre).
Defined.

(** C6, as the specification states it, fails: with two connections
    waiting, one readiness event makes the baseline server take in the first
    and return; the second is still in the listener's queue.  The loop
    of the low-latency server also ends when [accept] fails with [EMFILE],
    leaving what is behind it in the queue.  And it does not get past a
    connection it admits: with two clients waiting it stores the first and
    runs into the read through the moved-from pointer, the second still in
    the queue; with a client and a failing [accept] behind it, the failing
    [accept] is never reached. *)
Lemma single_accept_counterexample :
  let r := HFT.accept_connections [Sys.AcceptOk client5; Sys.AcceptOk client6]
             hft_running in
  (HFT.reachable (layout := lp64) hft_running /\
   snd r = [Sys.AcceptOk client6] /\
   is_Some (HFT.connections_ (fst r) !! 5) /\
   HFT.connections_ (fst r) !! 6 = None /\
   size (HFT.connections_ (fst r)) = 1%nat) /\
  Sys.EMFILE <> Sys.EAGAIN /\ Sys.EMFILE <> Sys.EWOULDBLOCK /\
  Ultra.accept_connections [Sys.AcceptErr Sys.EMFILE; Sys.AcceptOk client5]
    ultra_running
  = (Ultra.Returned (Ultra.emit (Sys.Ecerr "Accept failed") ultra_running),
     [Sys.AcceptOk client5]) /\
  Ultra.accept_connections [Sys.AcceptOk client5; Sys.AcceptOk client6]
    ultra_running
  = (Ultra.Faulted ultra_serving, [Sys.AcceptOk client6]) /\
  Ultra.accept_connections [Sys.AcceptOk client5; Sys.AcceptErr Sys.EMFILE]
    ultra_running
  = (Ultra.Faulted ultra_serving, [Sys.AcceptErr Sys.EMFILE]) /\
  Ultra.fd <$> Ultra.connections_ ultra_serving = [5].
Proof.
  intros r.
  split; [|split; [discriminate | split; [discriminate | split; [reflexivity|]]]].
  - split.
    { exists boot. unfold hft_running, HFT.register_main_services, hft_initialized.
      eapply rtc_r; [|apply HFT.step_start].
      do 4 (eapply rtc_r; [|apply HFT.step_register]).
      eapply rtc_r; [|apply HFT.step_initialize]. apply rtc_refl. }
    split; [vm_compute; reflexivity|].
    split; [eexists; vm_compute; reflexivity|].
    split; vm_compute; reflexivity.
  - split; [vm_compute; reflexivity|].
    split; vm_compute; reflexivity.
Qed.

(** * The peak of the connection count *)

(** C7 (as amended). No step of either server lowers [peak_connections],
    whatever the workers do and in whatever order.  The baseline server
    keeps no count of active connections; in every state it reaches, its
    peak is at least the number of connections in its table.  On the
    low-latency server, in every state it reaches when it was constructed
    for a single worker thread, so that the calls of the connection handler
    come one at a time, [peak_connections] is at least
    [active_connections]. *)
Theorem peak_connections_invariant (layout : Layout) :
  (forall s, HFT.reachable s ->
     Z.of_nat (size (HFT.connections_ s)) <= HFT.peak_connections (HFT.stats_ s)) /\
  (forall s s', rtc HFT.step s s' ->
     HFT.peak_connections (HFT.stats_ s) <= HFT.peak_connections (HFT.stats_ s')) /\
  (forall workers s calls,
     (workers <= 1)%nat -> Ultra.reachable workers (Ultra.mkWorld s calls) ->
     Ultra.active_connections (Ultra.stats_ s)
     <= Ultra.peak_connections (Ultra.stats_ s)) /\
  (forall workers s calls s' calls',
     rtc (Ultra.step workers) (Ultra.mkWorld s calls) (Ultra.mkWorld s' calls') ->
     Ultra.peak_connections (Ultra.stats_ s)
     <= Ultra.peak_connections (Ultra.stats_ s')).
Proof.
  split; [exact HFT.reachable_peak_covers|].
  split; [exact HFT.rtc_peak_monotone|].
  split.
  - intros workers s calls Hone Hw.
    exact (Ultra.reachable_peak_covers_active workers (Ultra.mkWorld s calls)
             Hone Hw).
  - intros workers s calls s' calls' Hrtc.
    exact (Ultra.rtc_peak_never_drops workers (Ultra.mkWorld s calls)
             (Ultra.mkWorld s' calls') Hrtc).
Qed.

(** The low-latency server constructed for one worker: initialised,
    started, a client taken in on descriptor 5, an event for the client
    taken by the worker, and the end of file it then reads. *)
Definition solo_initialized : Ultra.server :=
  snd (Ultra.initialize (Ultra.mkInitEnv 3 true true 0 0 4 true)
         (Ultra.initial "127.0.0.1" 8888 1 (-1) (-1) ultra_buffers ultra_buffers
            boot)).

Definition solo_running : Ultra.server := snd (Ultra.start solo_initialized).

Definition solo_serving : Ultra.server :=
  Ultra.state_of (fst (Ultra.accept_connections [Sys.AcceptOk client5] solo_running)).

Definition end_of_file : Ultra.io_env := Ultra.mkIo Ultra.RecvEOF 0 0 0.

Definition solo_closed : Ultra.server :=
  Ultra.handle_client_events (layout := lp64) 5 end_of_file solo_serving.

Lemma solo_closed_reachable :
  Ultra.reachable (layout := lp64) 1 (Ultra.mkWorld solo_closed []).
Proof.
  exists "127.0.0.1"%string, 8888, (-1), (-1), ultra_buffers, ultra_buffers, boot.
  split; [reflexivity|].
  assert (Hlistener :
    Sys.interest_of (Ultra.epoll_fd_ solo_running) (Ultra.kernel solo_running) !! 3
    = Some None) by (vm_compute; reflexivity).
  assert (Hclient :
    Sys.interest_of (Ultra.epoll_fd_ solo_serving) (Ultra.kernel solo_serving) !! 5
    = Some (Some 0%nat)) by (vm_compute; reflexivity).
  assert (Hconn : Ultra.connections_ solo_serving !! 0%nat
                  = Some (Ultra.mkConnection 5 0x7f000001 1000 0 true true))
    by (vm_compute; reflexivity).
  apply (rtc_r _ (Ultra.mkWorld solo_serving [0%nat]));
    [|exact (Ultra.step_handler_at 1 0%nat _ 5 end_of_file solo_serving []
               Hconn eq_refl)].
  apply (rtc_r _ (Ultra.mkWorld solo_serving []));
    [|exact (Ultra.step_test_at 1 5 0%nat _ solo_serving [] Hclient Hconn eq_refl
               (Nat.lt_0_succ 0))].
  apply (rtc_r _ (Ultra.mkWorld solo_running []));
    [|exact (Ultra.step_listener_at 1 3 [Sys.AcceptOk client5] solo_running []
               Hlistener)].
  apply (rtc_r _ (Ultra.mkWorld solo_initialized []));
    [|exact (Ultra.step_start_at 1 solo_initialized [])].
  apply (rtc_r _ (Ultra.mkWorld
                    (Ultra.initial "127.0.0.1" 8888 1 (-1) (-1) ultra_buffers
                       ultra_buffers boot) []));
    [|exact (Ultra.step_initialize_at 1 (Ultra.mkInitEnv 3 true true 0 0 4 true)
               (Ultra.initial "127.0.0.1" 8888 1 (-1) (-1) ultra_buffers
                  ultra_buffers boot) [])].
  apply rtc_refl.
Qed.

Lemma peak_connections_invariant_witness :
  HFT.reachable (layout := lp64) hft_serving /\
  (1 <= 1)%nat /\
  Ultra.reachable (layout := lp64) 1 (Ultra.mkWorld solo_closed []) /\
  Z.of_nat (size (HFT.connections_ hft_serving))
  <= HFT.peak_connections (HFT.stats_ hft_serving) /\
  Ultra.active_connections (Ultra.stats_ solo_closed)
  <= Ultra.peak_connections (Ultra.stats_ solo_closed) /\
  Ultra.active_connections (Ultra.stats_ solo_closed) = 0 /\
  Ultra.peak_connections (Ultra.stats_ solo_closed) = 1.
Proof.
  destruct (peak_connections_invariant lp64) as (H1 & _ & H3 & _).
  split; [apply hft_serving_reachable|].
  split; [lia|].
  split; [apply solo_closed_reachable|].
  split; [apply H1, hft_serving_reachable|].
  split; [exact (H3 1%nat solo_closed [] (le_n 1) solo_closed_reachable)|].
  split; vm_compute; reflexivity.
Defined.

(** What [recv] answers on a descriptor that has been closed. *)
Definition bad_descriptor : Ultra.io_env := Ultra.mkIo (Ultra.RecvErr Sys.EBADF) 0 0 0.

(** The low-latency server with four workers after two of them have taken
    an event for the client on descriptor 5 while it was active, and each
    has called the handler: the first read the end of file, the second found
    the descriptor closed. *)
Definition closed_twice : Ultra.server :=
  Ultra.handle_client_events (layout := lp64) 5 bad_descriptor
    (Ultra.handle_client_events (layout := lp64) 5 end_of_file ultra_serving).

(** The baseline server after the client on descriptor 5 has left and one
    on descriptor 6 has come. *)
Definition hft_second_client : HFT.server :=
  fst (HFT.accept_connections [Sys.AcceptOk client6]
         (HFT.handle_client_events (layout := lp64) 5 [HFT.RecvEOF] hft_serving)).

(** The two atomic operations by which [accept_connections] brings the
    counters up to date when it has stored a connection:
    [active_connections.fetch_add(1)], and the compare-and-exchange loop
    that raises the peak to the new count. *)
Definition count_in (st : Ultra.UltraServerStats) : Ultra.UltraServerStats :=
  Ultra.mkStats (Ultra.total_messages st) (u64 (Ultra.active_connections st + 1))
    (Ultra.peak_connections st) (Ultra.total_latency st) (Ultra.message_count st).

Definition raise_peak (st : Ultra.UltraServerStats) : Ultra.UltraServerStats :=
  let active := Ultra.active_connections st in
  let peak := Ultra.peak_connections st in
  Ultra.mkStats (Ultra.total_messages st) active
    (if peak <? active then active else peak)
    (Ultra.total_latency st) (Ultra.message_count st).

Lemma admission_updates_counters a rest s k' :
  Sys.a_sockopts_ok a = true -> Sys.a_nonblock_ok a = true ->
  Sys.epoll_ctl_add (Sys.a_epoll_ok a) (Ultra.epoll_fd_ s) (Sys.a_fd a)
    (Some (length (Ultra.connections_ s)))
    (Sys.open_fd (Sys.a_fd a) (Ultra.kernel s)) = Some k' ->
  Ultra.stats_
    (Ultra.state_of (fst (Ultra.accept_connections (Sys.AcceptOk a :: rest) s)))
  = raise_peak (count_in (Ultra.stats_ s)).
Proof.
  intros H1 H2 Hadd. cbn [Ultra.accept_connections]. rewrite H1, H2.
  cbn -[Sys.open_fd Sys.epoll_ctl_add Z.ltb]. rewrite Hadd. reflexivity.
Qed.

(** C7, as the specification states it, fails.  The low-latency server
    runs four workers on one epoll instance: two of them are handed an event
    for the same client, both find it active, and both call the handler,
    which closes the connection each time.  The server reaches a state in
    which [active_connections] has wrapped to the largest 64-bit value while
    [peak_connections] is 1.  Inside [accept_connections] the count of
    active connections is raised before the peak is: when the first client is
    taken in, a worker that reads the statistics between the two operations
    sees one active connection and a peak of 0.  The baseline server has no
    counter of active connections; the figure it reports as active,
    [total_connections], is never lowered and reaches 2 while one connection
    is in the table and the peak is 1. *)
Lemma peak_below_active_counterexample :
  (Ultra.reachable (layout := lp64) 4 (Ultra.mkWorld closed_twice []) /\
   Ultra.active_connections (Ultra.stats_ closed_twice) = two64 - 1 /\
   Ultra.peak_connections (Ultra.stats_ closed_twice) = 1 /\
   ~ (Ultra.active_connections (Ultra.stats_ closed_twice)
      <= Ultra.peak_connections (Ultra.stats_ closed_twice))) /\
  (Ultra.stats_ ultra_serving = raise_peak (count_in (Ultra.stats_ ultra_running)) /\
   Ultra.active_connections (count_in (Ultra.stats_ ultra_running)) = 1 /\
   Ultra.peak_connections (count_in (Ultra.stats_ ultra_running)) = 0) /\
  (HFT.reachable (layout := lp64) hft_second_client /\
   HFT.total_connections (HFT.stats_ hft_second_client) = 2 /\
   HFT.peak_connections (HFT.stats_ hft_second_client) = 1 /\
   size (HFT.connections_ hft_second_client) = 1%nat).
Proof.
  split; [|split].
  - assert (Hclient :
      Sys.interest_of (Ultra.epoll_fd_ ultra_serving) (Ultra.kernel ultra_serving) !! 5
      = Some (Some 0%nat)) by (vm_compute; reflexivity).
    assert (Hconn : Ultra.connections_ ultra_serving !! 0%nat
                    = Some (Ultra.mkConnection 5 0x7f000001 1000 0 true true))
      by (vm_compute; reflexivity).
    assert (Hconn' :
      Ultra.connections_
        (Ultra.handle_client_events (layout := lp64) 5 end_of_file ultra_serving)
      !! 0%nat
      = Some (Ultra.mkConnection 5 0x7f000001 1000 0 true false))
      by (vm_compute; reflexivity).
    assert (Hone : (length [0%nat] < 4)%nat) by (simpl; lia).
    split.
    + destruct ultra_serving_reachable
        as (ip & port & sock & ep & send & recv & k & Hk & Hrtc).
      exists ip, port, sock, ep, send, recv, k. split; [exact Hk|].
      apply (rtc_r _ (Ultra.mkWorld
                        (Ultra.handle_client_events (layout := lp64) 5 end_of_file
                           ultra_serving) [0%nat]));
        [|exact (Ultra.step_handler_at 4 0%nat _ 5 bad_descriptor
                   (Ultra.handle_client_events (layout := lp64) 5 end_of_file
                      ultra_serving) [] Hconn' eq_refl)].
      apply (rtc_r _ (Ultra.mkWorld ultra_serving [0%nat; 0%nat]));
        [|exact (Ultra.step_handler_at 4 0%nat _ 5 end_of_file ultra_serving
                   [0%nat] Hconn eq_refl)].
      apply (rtc_r _ (Ultra.mkWorld ultra_serving [0%nat]));
        [|exact (Ultra.step_test_at 4 5 0%nat _ ultra_serving [0%nat]
                   Hclient Hconn eq_refl Hone)].
      apply (rtc_r _ (Ultra.mkWorld ultra_serving []));
        [|exact (Ultra.step_test_at 4 5 0%nat _ ultra_serving []
                   Hclient Hconn eq_refl (Nat.lt_0_succ 3))].
      exact Hrtc.
    + split; [vm_compute; reflexivity|].
      split; [vm_compute; reflexivity|].
      assert (Ha : Ultra.active_connections (Ultra.stats_ closed_twice) = two64 - 1)
        by (vm_compute; reflexivity).
      assert (Hp : Ultra.peak_connections (Ultra.stats_ closed_twice) = 1)
        by (vm_compute; reflexivity).
      rewrite Ha, Hp. unfold two64. lia.
  - split; [|split; vm_compute; reflexivity].
    assert (Hserving :
      ultra_serving
      = Ultra.state_of
          (fst (Ultra.accept_connections [Sys.AcceptOk client5] ultra_running)))
      by (vm_compute; reflexivity).
    rewrite Hserving.
    apply (admission_updates_counters client5 [] ultra_running
             (Ultra.kernel ultra_serving)); [reflexivity | reflexivity|].
    vm_compute. reflexivity.
  - split.
    + destruct hft_serving_reachable as [k Hrtc]. exists k.
      apply (rtc_r _ (HFT.handle_client_events (layout := lp64) 5 [HFT.RecvEOF]
                        hft_serving));
        [|exact (HFT.step_accept [Sys.AcceptOk client6]
                   (HFT.handle_client_events (layout := lp64) 5 [HFT.RecvEOF]
                      hft_serving))].
      apply (rtc_r _ hft_serving);
        [|exact (HFT.step_client 5 [HFT.RecvEOF] hft_serving)].
      exact Hrtc.
    + repeat split; vm_compute; reflexivity.
Qed.

(** The baseline server has no counter of active connections:
    [total_connections] counts every connection taken in and is never
    lowered, so it is not bounded by the peak.  After the client on
    descriptor 5 has left and one on descriptor 6 has come, it is 2 while
    one connection is in the table and the peak is 1. *)
Lemma hft_total_connections_example :
  let s1 := HFT.handle_client_events (layout := lp64) 5 [HFT.RecvEOF] hft_serving in
  let s2 := fst (HFT.accept_connections [Sys.AcceptOk client6] s1) in
  HFT.total_connections (HFT.stats_ s2) = 2 /\
  HFT.peak_connections (HFT.stats_ s2) = 1 /\
  size (HFT.connections_ s2) = 1%nat.
Proof. repeat split; vm_compute; reflexivity. Qed.

(** * The ring buffer: what [size()] reports, and the smallest ring *)

Module RingProps.

Section ring.

Context {T : Type}.
Variable SIZE : Z.

Hypothesis SIZE_pow2 : Ring.static_assert_pow2 SIZE.
Hypothesis SIZE_size_t : SIZE < two64.

Lemma size_le_capacity (r : Ring.t (T := T)) :
  0 <= Ring.size SIZE r <= Ring.capacity SIZE.
Proof.
  pose proof (Ring.size_range SIZE SIZE_pow2 SIZE_size_t r) as H.
  unfold Ring.capacity. lia.
Qed.

(** X1. Whatever sequence of [push] and [pop] calls is run on a ring,
    [size()] afterwards is [size()] before, plus the number of calls of
    [push] that returned true, minus the number of calls of [pop] that
    returned true; it is never negative and never exceeds [capacity()],
    and the indices stay inside the array. *)
Theorem size_counts_pushes_minus_pops (dummy : T) (ops : list Ring.op) (r : Ring.t) :
  Ring.wf SIZE r ->
  let o := Ring.run SIZE dummy ops r in
  Ring.wf SIZE (Ring.final o) /\
  0 <= Ring.size SIZE (Ring.final o) <= Ring.capacity SIZE /\
  Ring.size SIZE (Ring.final o)
  = Ring.size SIZE r + Z.of_nat (length (Ring.accepted o))
    - Z.of_nat (length (Ring.popped o)).
Proof.
  intros Hwf o.
  destruct (Ring.run_fifo SIZE SIZE_pow2 SIZE_size_t dummy ops r Hwf) as [Hwf' Heq].
  fold o in Hwf', Heq.
  split; [exact Hwf'|]. split; [apply size_le_capacity|].
  apply (f_equal length) in Heq. rewrite !length_app in Heq.
  pose proof (Ring.contents_length SIZE SIZE_pow2 SIZE_size_t r Hwf) as H1.
  pose proof (Ring.contents_length SIZE SIZE_pow2 SIZE_size_t _ Hwf') as H2.
  lia.
Qed.

(** X2. The [static_assert] of the class lets [SIZE = 1] through, and a
    ring of that size can hold nothing: it is empty and full at once, every
    [push] returns false and every [pop] returns false, both leaving the ring
    as it is.  It is the only size for which a ring can be empty and full at
    the same time; for every other size a [push] on an empty ring succeeds. *)
Theorem single_slot_ring_holds_nothing (r : Ring.t (T := T)) :
  Ring.wf SIZE r ->
  ((Ring.empty r = true /\ Ring.full SIZE r = true) <-> SIZE = 1) /\
  (SIZE = 1 ->
   Ring.capacity SIZE = 0 /\
   (forall item, Ring.push SIZE item r = (false, r)) /\
   (forall item, Ring.pop SIZE item r = (false, item, r))) /\
  (SIZE <> 1 -> Ring.empty r = true ->
   forall item, fst (Ring.push SIZE item r) = true).
Proof.
  intros Hwf.
  pose proof (Ring.empty_size SIZE SIZE_pow2 SIZE_size_t r Hwf) as He.
  pose proof (Ring.full_size SIZE SIZE_pow2 SIZE_size_t r Hwf) as Hf.
  unfold Ring.capacity in Hf.
  assert (Hone : SIZE = 1 -> Ring.empty r = true /\ Ring.full SIZE r = true).
  { intros H1. destruct Hwf as (_ & Hh & Ht).
    assert (Hs : Ring.size SIZE r = 0).
    { pose proof (Ring.size_range SIZE SIZE_pow2 SIZE_size_t r). lia. }
    split; [apply He, Hs | apply Hf; lia]. }
  split; [|split].
  - split; [|exact Hone].
    intros [H1 H2]. apply He in H1. apply Hf in H2. lia.
  - intros H1. destruct (Hone H1) as [Hem Hfu].
    split; [unfold Ring.capacity; lia|]. split.
    + intros item.
      pose proof (proj2 (Ring.push_full SIZE item r) Hfu) as Hp.
      pose proof (Ring.push_unchanged SIZE item r Hp) as Hu.
      destruct (Ring.push SIZE item r) as [b r']. simpl in *. by subst.
    + intros item. unfold Ring.pop. unfold Ring.empty in Hem.
      rewrite Hem. reflexivity.
  - intros Hne Hem item.
    destruct (fst (Ring.push SIZE item r)) eqn:Hp; [reflexivity|].
    apply Ring.push_full in Hp. apply He in Hem. apply Hf in Hp. lia.
Qed.

End ring.

Definition ring1 : Ring.t (T := Z) := Ring.mk [0] 0 0.

Lemma size_counts_pushes_minus_pops_witness :
  Ring.static_assert_pow2 4 /\ 4 < two64 /\ Ring.wf 4 Ring.ring4 /\
  let o := Ring.run 4 0 [Ring.Push 1; Ring.Push 2; Ring.Push 3; Ring.Push 4;
                         Ring.Pop; Ring.Pop] Ring.ring4 in
  Ring.size 4 (Ring.final o) = 1 /\ length (Ring.accepted o) = 3%nat.
Proof.
  assert (Hp : Ring.static_assert_pow2 4) by (split; [lia | reflexivity]).
  assert (Hs : 4 < two64) by reflexivity.
  assert (Hwf : Ring.wf 4 Ring.ring4) by (unfold Ring.wf; simpl; lia).
  split; [exact Hp|]. split; [exact Hs|]. split; [exact Hwf|].
  destruct (size_counts_pushes_minus_pops 4 Hp Hs 0
              [Ring.Push 1; Ring.Push 2; Ring.Push 3; Ring.Push 4; Ring.Pop; Ring.Pop]
              Ring.ring4 Hwf) as (_ & _ & H).
  split; [rewrite H; reflexivity | reflexivity].
Defined.

Lemma single_slot_ring_holds_nothing_witness :
  Ring.static_assert_pow2 1 /\ 1 < two64 /\ Ring.wf 1 ring1 /\
  Ring.push 1 7 ring1 = (false, ring1) /\ Ring.pop 1 7 ring1 = (false, 7, ring1).
Proof.
  assert (Hp : Ring.static_assert_pow2 1) by (split; [lia | reflexivity]).
  assert (Hs : 1 < two64) by reflexivity.
  assert (Hwf : Ring.wf 1 ring1) by (unfold Ring.wf; simpl; lia).
  split; [exact Hp|]. split; [exact Hs|]. split; [exact Hwf|].
  destruct (single_slot_ring_holds_nothing 1 Hp Hs ring1 Hwf) as (_ & H & _).
  destruct (H eq_refl) as (_ & H1 & H2).
  split; [apply H1 | apply H2].
Defined.

End RingProps.

(** * The baseline server: start-up, registration, accepting, closing *)

Module HFTProps.

(** Closing a descriptor creates no epoll instance. *)
Lemma close_epolls_sub {P : Type} (fd ep : Z) (k : Sys.t P) :
  is_Some (Sys.epolls (Sys.close fd k) !! ep) -> is_Some (Sys.epolls k !! ep).
Proof.
  unfold Sys.close. case_decide; [|trivial]. simpl.
  rewrite lookup_fmap. intros [i Hi].
  destruct (delete fd (Sys.epolls k) !! ep) as [j|] eqn:Hj; [|discriminate].
  destruct (decide (ep = fd)) as [->|Hne].
  - by rewrite lookup_delete_eq in Hj.
  - rewrite lookup_delete_ne in Hj by done. by exists j.
Qed.




(** What [initialize] leaves behind when it gives up after the listener was
    created: the listener closed, nothing new open. *)
Lemma close_listener_releases (l : Z) (k : Sys.t Z) :
  let k' := Sys.close l (Sys.open_fd l k) in
  Sys.fds k' ⊆ Sys.fds k /\
  (forall ep, is_Some (Sys.epolls k' !! ep) -> is_Some (Sys.epolls k !! ep)) /\
  l ∉ Sys.fds k'.
Proof.
  intros k'. split; [|split].
  - subst k'. unfold Sys.close, Sys.open_fd. case_decide; simpl in *; set_solver.
  - intros ep H. subst k'. by apply close_epolls_sub in H.
  - apply Sys.close_closed.
Qed.

(** X3. [HFTServer::initialize] either fails or succeeds, and cleans up
    when it fails.  When it returns false it has written exactly one line to
    the error stream, every descriptor that is open afterwards was open
    before the call, no epoll instance was added, and the listener it had
    created, if any, is closed again although [server_socket_] still holds
    its number.  When it returns true the listener and the epoll instance
    are open, the members hold their numbers, neither is -1, and the interest
    list of the epoll instance holds the listener alone, marked with the
    null pointer.  In both cases the running flag, the workers, the services,
    the table and the statistics are as before. *)
Theorem hft_initialize_outcome (env : HFT.init_env) (ip : string) (port : Z)
    (n : nat) (s : HFT.server) :
  let r := HFT.initialize env ip port n s in
  let s' := snd r in
  (fst r = false ->
   Sys.fds (HFT.kernel s') ⊆ Sys.fds (HFT.kernel s) /\
   (forall ep, is_Some (Sys.epolls (HFT.kernel s') !! ep) ->
               is_Some (Sys.epolls (HFT.kernel s) !! ep)) /\
   (HFT.i_socket env <> -1 ->
    (HFT.i_socket env ∉ Sys.fds (HFT.kernel s')) /\
    HFT.server_socket_ s' = HFT.i_socket env) /\
   exists line, HFT.trace s' = HFT.trace s ++ [Sys.Ecerr line]) /\
  (fst r = true ->
   HFT.server_socket_ s' = HFT.i_socket env /\
   HFT.epoll_fd_ s' = HFT.i_epoll_create env /\
   HFT.i_socket env <> -1 /\ HFT.i_epoll_create env <> -1 /\
   HFT.i_socket env ∈ Sys.fds (HFT.kernel s') /\
   HFT.i_epoll_create env ∈ Sys.fds (HFT.kernel s') /\
   Sys.interest_of (HFT.epoll_fd_ s') (HFT.kernel s')
   = {[(HFT.i_socket env) := (None : option Z)]} /\
   HFT.trace s' = HFT.trace s) /\
  HFT.running_ s' = HFT.running_ s /\
  HFT.worker_threads_ s' = HFT.worker_threads_ s /\
  HFT.services_ s' = HFT.services_ s /\
  HFT.connections_ s' = HFT.connections_ s /\
  HFT.stats_ s' = HFT.stats_ s /\
  HFT.thread_count_ s' = n.
Proof.
  intros r s'. subst s' r. unfold HFT.initialize.
  cbn -[Sys.close Sys.open_fd Sys.epoll_create Sys.epoll_ctl_add Z.eqb].
  destruct (Z.eqb_spec (HFT.i_socket env) (-1)) as [Hs|Hs].
  { cbn. split; [intros _|split; [discriminate|repeat split; reflexivity]].
    split; [set_solver|]. split; [trivial|]. split; [lia|]. by eexists. }
  destruct (Z.eqb_spec (HFT.i_bind env) (-1)) as [Hb|Hb].
  { cbn -[Sys.close Sys.open_fd].
    destruct (close_listener_releases (HFT.i_socket env) (HFT.kernel s))
      as (H1 & H2 & H3).
    split; [intros _|split; [discriminate|repeat split; reflexivity]].
    split; [exact H1|]. split; [exact H2|]. split; [auto|]. by eexists. }
  destruct (Z.eqb_spec (HFT.i_listen env) (-1)) as [Hl|Hl].
  { cbn -[Sys.close Sys.open_fd].
    destruct (close_listener_releases (HFT.i_socket env) (HFT.kernel s))
      as (H1 & H2 & H3).
    split; [intros _|split; [discriminate|repeat split; reflexivity]].
    split; [exact H1|]. split; [exact H2|]. split; [auto|]. by eexists. }
  cbn -[Sys.close Sys.open_fd Sys.epoll_create Sys.epoll_ctl_add Z.eqb].
  destruct (Z.eqb_spec (HFT.i_epoll_create env) (-1)) as [He|He].
  { cbn -[Sys.close Sys.open_fd].
    destruct (close_listener_releases (HFT.i_socket env) (HFT.kernel s))
      as (H1 & H2 & H3).
    split; [intros _|split; [discriminate|repeat split; reflexivity]].
    split; [exact H1|]. split; [exact H2|]. split; [auto|]. by eexists. }
  cbn -[Sys.close Sys.open_fd Sys.epoll_create Sys.epoll_ctl_add Z.eqb].
  set (l := HFT.i_socket env) in *. set (e := HFT.i_epoll_create env) in *.
  set (k := HFT.kernel s).
  destruct (Sys.epoll_ctl_add (HFT.i_epoll_ctl_ok env) e l None
              (Sys.epoll_create e (Sys.open_fd l k))) as [k'|] eqn:Hadd.
  - cbn. split; [discriminate|]. split; [intros _|repeat split; reflexivity].
    unfold Sys.epoll_ctl_add in Hadd. cbn in Hadd.
    rewrite lookup_insert_eq in Hadd.
    destruct (_ && _) in Hadd; [|discriminate].
    injection Hadd as <-. cbn.
    split; [reflexivity|]. split; [reflexivity|]. split; [exact Hs|].
    split; [exact He|]. split; [set_solver|]. split; [set_solver|].
    split; [|reflexivity].
    unfold Sys.interest_of. cbn. rewrite lookup_insert_eq. reflexivity.
  - cbn -[Sys.close Sys.open_fd Sys.epoll_create].
    split; [intros _|split; [discriminate|repeat split; reflexivity]].
    split; [|split; [|split]].
    + unfold Sys.close, Sys.open_fd, Sys.epoll_create.
      repeat (case_decide; simpl in * ); set_solver.
    + intros ep H. apply close_epolls_sub in H.
      unfold Sys.close in H. rewrite decide_True in H by (simpl; set_solver).
      simpl in H. rewrite lookup_fmap in H.
      destruct (decide (ep = e)) as [->|Hne].
      * rewrite lookup_delete_eq in H. simpl in H. by destruct H.
      * rewrite lookup_delete_ne, lookup_insert_ne in H by done.
        fold k in H. destruct (Sys.epolls k !! ep); [by eexists|].
        simpl in H. by destruct H.
    + intros _. split; [apply Sys.close_closed | reflexivity].
    + by eexists.
Qed.

Lemma hft_initialize_outcome_witness :
  let r := HFT.initialize (HFT.mkInitEnv 3 0 0 4 false) "127.0.0.1" 8888 4
             (HFT.initial boot) in
  fst r = false /\
  Sys.fds (HFT.kernel (snd r)) ⊆ {[0; 1; 2]} /\
  HFT.server_socket_ (snd r) = 3 /\
  fst (HFT.initialize (HFT.mkInitEnv 3 0 0 4 true) "127.0.0.1" 8888 4
         (HFT.initial boot)) = true /\
  Sys.interest_of (HFT.epoll_fd_ hft_initialized) (HFT.kernel hft_initialized)
  = {[3 := None]}.
Proof.
  intros r.
  assert (Hf : fst r = false) by reflexivity.
  assert (Ht : fst (HFT.initialize (HFT.mkInitEnv 3 0 0 4 true) "127.0.0.1" 8888 4
                      (HFT.initial boot)) = true) by reflexivity.
  destruct (hft_initialize_outcome (HFT.mkInitEnv 3 0 0 4 false) "127.0.0.1" 8888 4
              (HFT.initial boot)) as (H1 & _ & _).
  destruct (hft_initialize_outcome (HFT.mkInitEnv 3 0 0 4 true) "127.0.0.1" 8888 4
              (HFT.initial boot)) as (_ & H2 & _).
  destruct (H1 Hf) as (Ha & _ & Hb & _).
  destruct (H2 Ht) as (_ & _ & _ & _ & _ & _ & Hc & _).
  split; [exact Hf|]. split; [exact Ha|].
  split; [apply Hb; discriminate|]. split; [exact Ht | exact Hc].
Defined.

(** *** Starting *)

Lemma spawn_workers_spec (n : nat) : forall s,
  let s' := HFT.spawn_workers n s in
  HFT.worker_threads_ s'
  = HFT.worker_threads_ s ++ seq (Sys.next_tid (HFT.kernel s)) n /\
  Sys.next_tid (HFT.kernel s') = (Sys.next_tid (HFT.kernel s) + n)%nat /\
  (forall tid, tid ∈ Sys.threads (HFT.kernel s') <->
     tid ∈ Sys.threads (HFT.kernel s) \/
     (Sys.next_tid (HFT.kernel s) <= tid < Sys.next_tid (HFT.kernel s) + n)%nat) /\
  Sys.fds (HFT.kernel s') = Sys.fds (HFT.kernel s) /\
  Sys.epolls (HFT.kernel s') = Sys.epolls (HFT.kernel s) /\
  HFT.running_ s' = HFT.running_ s /\
  HFT.server_socket_ s' = HFT.server_socket_ s /\
  HFT.epoll_fd_ s' = HFT.epoll_fd_ s /\
  HFT.thread_count_ s' = HFT.thread_count_ s /\
  HFT.connections_ s' = HFT.connections_ s /\
  HFT.services_ s' = HFT.services_ s /\
  HFT.stats_ s' = HFT.stats_ s /\
  HFT.trace s' = HFT.trace s.
Proof.
  induction n as [|n IH]; intros s; cbn zeta.
  - simpl. rewrite app_nil_r, Nat.add_0_r.
    repeat split; try reflexivity; [tauto | intros [H|H]; [exact H | lia]].
  - simpl.
    specialize (IH (HFT.set_worker_threads
                      (HFT.worker_threads_ s ++ [Sys.next_tid (HFT.kernel s)])
                      (HFT.set_kernel (snd (Sys.spawn (HFT.kernel s))) s))).
    cbn zeta in IH. simpl in IH.
    destruct IH as (H1 & H2 & H3 & H4 & H5 & H6 & H7 & H8 & H9 & H10 & H11 & H12 & H13).
    split; [rewrite H1, <- app_assoc; reflexivity|].
    split; [rewrite H2; lia|].
    split; [intros tid; rewrite H3; set_solver by lia|].
    auto 20.
Qed.

(** X4. [HFTServer::start] on a server that is not running sets the running
    flag and creates exactly [thread_count_] workers, with fresh thread
    identifiers, appended to [worker_threads_] in the order of creation;
    it opens and closes no descriptor and leaves the epoll instances, the
    table, the services and the statistics alone, whether [initialize] was
    called before or not.  On a running server it does nothing, so that
    calling it twice is calling it once. *)
Theorem hft_start_spawns_workers (s : HFT.server) :
  (HFT.running_ s = false ->
   let s' := HFT.start s in
   HFT.running_ s' = true /\
   HFT.worker_threads_ s'
   = HFT.worker_threads_ s
     ++ seq (Sys.next_tid (HFT.kernel s)) (HFT.thread_count_ s) /\
   (forall tid, tid ∈ Sys.threads (HFT.kernel s') <->
      tid ∈ Sys.threads (HFT.kernel s) \/
      (Sys.next_tid (HFT.kernel s) <= tid
       < Sys.next_tid (HFT.kernel s) + HFT.thread_count_ s)%nat) /\
   Sys.fds (HFT.kernel s') = Sys.fds (HFT.kernel s) /\
   Sys.epolls (HFT.kernel s') = Sys.epolls (HFT.kernel s) /\
   HFT.server_socket_ s' = HFT.server_socket_ s /\
   HFT.epoll_fd_ s' = HFT.epoll_fd_ s /\
   HFT.connections_ s' = HFT.connections_ s /\
   HFT.services_ s' = HFT.services_ s /\
   HFT.stats_ s' = HFT.stats_ s) /\
  (HFT.running_ s = true -> HFT.start s = s) /\
  HFT.start (HFT.start s) = HFT.start s.
Proof.
  assert (Hfirst : HFT.running_ s = false ->
                   HFT.running_ (HFT.start s) = true).
  { intros Hr. unfold HFT.start. rewrite Hr.
    destruct (spawn_workers_spec (HFT.thread_count_ s) (HFT.set_running true s))
      as (_ & _ & _ & _ & _ & H & _).
    cbn zeta in H. rewrite H. reflexivity. }
  split; [|split].
  - intros Hr s'. split; [exact (Hfirst Hr)|].
    subst s'. unfold HFT.start. rewrite Hr.
    destruct (spawn_workers_spec (HFT.thread_count_ s) (HFT.set_running true s))
      as (H1 & H2 & H3 & H4 & H5 & H6 & H7 & H8 & H9 & H10 & H11 & H12 & H13).
    cbn zeta in *. simpl in *. auto 20.
  - intros Hr. unfold HFT.start. rewrite Hr. reflexivity.
  - destruct (HFT.running_ s) eqn:Hr.
    + unfold HFT.start. rewrite Hr, Hr. reflexivity.
    + unfold HFT.start at 1. rewrite (Hfirst eq_refl). reflexivity.
Qed.

Lemma hft_start_spawns_workers_witness :
  HFT.running_ (HFT.register_main_services hft_initialized) = false /\
  HFT.worker_threads_ hft_running = [0; 1; 2; 3]%nat /\
  Sys.fds (HFT.kernel hft_running) = Sys.fds (HFT.kernel hft_initialized) /\
  HFT.start hft_running = hft_running.
Proof.
  assert (Hr : HFT.running_ (HFT.register_main_services hft_initialized) = false)
    by reflexivity.
  destruct (hft_start_spawns_workers (HFT.register_main_services hft_initialized))
    as (H & _ & Hidem).
  destruct (H Hr) as (_ & H2 & _ & H4 & _).
  split; [exact Hr|]. split; [exact H2|]. split; [exact H4 | exact Hidem].
Defined.

(** *** Starting again after a stop *)




(** *** Registering services *)

(** X6. [register_service] replaces: after two registrations for the same
    type the server is as if only the second had been made, the handlers of
    the other types are as before, and nothing but [services_] changes.  A
    record of that type dispatched afterwards is handed to the handler
    registered last, which is applied to the connection the record came
    from. *)
Theorem hft_register_service_last_wins (type : Z) (a b : HFT.IMessageService)
    (s : HFT.server) :
  HFT.register_service type b (HFT.register_service type a s)
  = HFT.register_service type b s /\
  HFT.services_ (HFT.register_service type b s) !! type = Some b /\
  (forall other, other <> type ->
     HFT.services_ (HFT.register_service type b s) !! other
     = HFT.services_ s !! other) /\
  HFT.connections_ (HFT.register_service type b s) = HFT.connections_ s /\
  HFT.kernel (HFT.register_service type b s) = HFT.kernel s /\
  HFT.stats_ (HFT.register_service type b s) = HFT.stats_ s /\
  HFT.running_ (HFT.register_service type b s) = HFT.running_ s /\
  HFT.trace (HFT.register_service type b s) = HFT.trace s /\
  (forall msg latency_ns conn,
     Message.message_type msg = type ->
     let s' := HFT.process_client_message msg latency_ns conn
                 (HFT.register_service type b (HFT.register_service type a s)) in
     HFT.connections_ s'
     = alter (HFT.process_message b msg) conn (HFT.connections_ s) /\
     HFT.trace s' = HFT.trace s ++ [Sys.Edeliver msg conn]).
Proof.
  assert (Htwice : HFT.register_service type b (HFT.register_service type a s)
                    = HFT.register_service type b s).
  { unfold HFT.register_service, HFT.set_services. simpl.
    rewrite insert_insert_eq. reflexivity. }
  split; [exact Htwice|].
  split; [simpl; apply lookup_insert_eq|].
  split; [intros other Hne; simpl; by apply lookup_insert_ne|].
  do 5 (split; [reflexivity|]).
  intros msg latency_ns conn Hty s'. subst s'. rewrite Htwice.
  unfold HFT.process_client_message.
  replace (HFT.services_ (HFT.register_service type b s) !! Message.message_type msg)
    with (Some b) by (rewrite Hty; simpl; by rewrite lookup_insert_eq).
  split; reflexivity.
Qed.

Lemma hft_register_service_last_wins_witness :
  HFT.services_
    (HFT.register_service MessageType.ORDER_NEW HFT.MarketDataService hft_initialized)
  !! MessageType.ORDER_NEW = Some HFT.MarketDataService /\
  HFT.trace
    (HFT.process_client_message Message.sample 800 5
       (HFT.register_service MessageType.ORDER_NEW HFT.MarketDataService
          (HFT.register_service MessageType.ORDER_NEW HFT.OrderService
             hft_initialized)))
  = HFT.trace hft_initialized ++ [Sys.Edeliver Message.sample 5].
Proof.
  destruct (hft_register_service_last_wins MessageType.ORDER_NEW HFT.OrderService
              HFT.MarketDataService hft_initialized)
    as (_ & H2 & _ & _ & _ & _ & _ & _ & H9).
  split; [exact H2|].
  exact (proj2 (H9 Message.sample 800 5 eq_refl)).
Defined.

(** *** The table is keyed by descriptor *)

(** Every record of the table is stored under its own descriptor. *)
Definition keyed (s : HFT.server) : Prop :=
  forall key c, HFT.connections_ s !! key = Some c -> HFT.fd c = key.

(** A handler that does not change the descriptor of the connection it is
    given. *)
Definition keeps_fd (service : HFT.IMessageService) : Prop :=
  forall m c, HFT.fd (HFT.process_message service m c) = HFT.fd c.

Definition polite (s : HFT.server) : Prop :=
  forall type service, HFT.services_ s !! type = Some service -> keeps_fd service.

Lemma keyed_same (s s' : HFT.server) :
  HFT.connections_ s' = HFT.connections_ s -> keyed s -> keyed s'.
Proof. unfold keyed. intros ->. trivial. Qed.

Lemma keyed_close_connection conn s : keyed s -> keyed (HFT.close_connection conn s).
Proof.
  intros Hk. unfold HFT.close_connection.
  destruct (HFT.connections_ s !! conn) as [c|]; [|exact Hk].
  intros key c' Hl. simpl in Hl.
  apply lookup_delete_Some in Hl as [_ Hl]. by apply Hk.
Qed.

Lemma keyed_process_client_message msg latency_ns conn s :
  polite s -> keyed s -> keyed (HFT.process_client_message msg latency_ns conn s).
Proof.
  intros Hp Hk. unfold HFT.process_client_message.
  destruct (HFT.services_ s !! Message.message_type msg) as [service|] eqn:Hs;
    [|exact Hk].
  intros key c Hl. simpl in Hl.
  destruct (decide (key = conn)) as [->|Hne].
  - rewrite lookup_alter_eq in Hl.
    destruct (HFT.connections_ s !! conn) as [c0|] eqn:Hc; [|discriminate].
    simpl in Hl. injection Hl as <-.
    rewrite (Hp _ _ Hs). by apply Hk.
  - rewrite lookup_alter_ne in Hl by done. by apply Hk.
Qed.

Section keyed_facts.

Context {layout : Layout}.

Lemma keyed_recv_loop script : forall conn s,
  polite s -> keyed s -> keyed (HFT.recv_loop script conn s).
Proof.
  induction script as [|[n m latency_ns| |errno] script IH]; intros conn s Hp Hk.
  - exact Hk.
  - simpl. apply IH.
    + intros type service Hs. apply (Hp type service).
      rewrite HFT.dispatch_complete in Hs.
      destruct (HFT.complete n m); [|exact Hs].
      by rewrite HFT.process_client_message_services in Hs.
    + rewrite HFT.dispatch_complete.
      destruct (HFT.complete n m); [|exact Hk].
      by apply keyed_process_client_message.
  - simpl. by apply keyed_close_connection.
  - simpl. destruct (_ || _); exact Hk.
Qed.

Lemma keyed_step s s' : HFT.step s s' -> polite s -> keyed s -> keyed s'.
Proof.
  intros Hstep Hp Hk. destruct Hstep.
  - apply (keyed_same s); [apply HFT.initialize_keeps | exact Hk].
  - exact Hk.
  - apply (keyed_same s); [apply HFT.start_keeps | exact Hk].
  - destruct (HFT.stop_table s) as [[H|H] _].
    + by apply (keyed_same s).
    + intros key c Hl. rewrite H in Hl. by rewrite lookup_empty in Hl.
  - destruct (HFT.accept_connections_once backlog s) as [_ [H|(a & conn & _ & Hfd & H)]].
    + by apply (keyed_same s).
    + intros key c Hl. rewrite H in Hl.
      destruct (decide (key = Sys.a_fd a)) as [->|Hne].
      * rewrite lookup_insert_eq in Hl. by injection Hl as <-.
      * rewrite lookup_insert_ne in Hl by done. by apply Hk.
  - unfold HFT.handle_client_events.
    destruct (HFT.connections_ s !! client_fd); [|exact Hk].
    by apply keyed_recv_loop.
Qed.

(** X7. The connection table is keyed by descriptor.  As long as the
    registered handlers leave the descriptor of the connection they are
    given alone, which the two services of the sources do, every record in
    [connections_] is stored under the key that is its own [fd], in every
    state the server reaches, so that [connections_.erase(conn.fd)] in
    [close_connection] takes out the record it was called for. *)
Theorem hft_table_keyed_by_descriptor (k : Sys.t Z) (s : HFT.server) :
  rtc (fun s s' => HFT.step s s' /\ polite s') (HFT.initial k) s ->
  keeps_fd HFT.OrderService /\ keeps_fd HFT.MarketDataService /\
  keyed s /\
  (forall conn c, HFT.connections_ s !! conn = Some c ->
     HFT.connections_ (HFT.close_connection conn s) !! conn = None /\
     size (HFT.connections_ (HFT.close_connection conn s))
     = pred (size (HFT.connections_ s))).
Proof.
  intros Hrtc.
  split; [intros m c; reflexivity|]. split; [intros m c; reflexivity|].
  assert (Hboth : polite s /\ keyed s).
  { revert s Hrtc. apply rtc_ind_r.
    - split.
      + intros type service Hs. simpl in Hs. by rewrite lookup_empty in Hs.
      + intros key c Hl. simpl in Hl. by rewrite lookup_empty in Hl.
    - intros s1 s2 _ [Hstep Hp2] [Hp1 Hk1].
      split; [exact Hp2 | by apply (keyed_step s1)]. }
  destruct Hboth as [_ Hk]. split; [exact Hk|].
  intros conn c Hc. pose proof (Hk conn c Hc) as Hfd.
  destruct (HFT.close_connection_spec conn c s Hc) as (_ & _ & H3 & H4 & _).
  cbn zeta in *. rewrite Hfd in H3, H4.
  split; [exact H3|].
  rewrite H4. by apply map_size_delete_Some.
Qed.

End keyed_facts.

Lemma polite_same (s s' : HFT.server) :
  HFT.services_ s' = HFT.services_ s -> polite s -> polite s'.
Proof. unfold polite. intros ->. trivial. Qed.

Lemma polite_register type service s :
  keeps_fd service -> polite s -> polite (HFT.register_service type service s).
Proof.
  intros Hs Hp ty svc Hl. simpl in Hl.
  destruct (decide (ty = type)) as [->|Hne].
  - rewrite lookup_insert_eq in Hl. by injection Hl as <-.
  - rewrite lookup_insert_ne in Hl by done. by apply (Hp ty).
Qed.

Lemma hft_serving_polite_run :
  rtc (fun s s' => HFT.step (layout := lp64) s s' /\ polite s')
    (HFT.initial boot) hft_serving.
Proof.
  assert (H0 : polite hft_initialized).
  { assert (He : HFT.services_ hft_initialized = ∅) by (vm_compute; reflexivity).
    intros type service Hs. rewrite He in Hs. by rewrite lookup_empty in Hs. }
  assert (Hid : forall m c, HFT.fd (HFT.process_message HFT.OrderService m c) = HFT.fd c)
    by reflexivity.
  assert (Hid' : forall m c,
             HFT.fd (HFT.process_message HFT.MarketDataService m c) = HFT.fd c)
    by reflexivity.
  unfold hft_serving, hft_running, HFT.register_main_services.
  set (s1 := HFT.register_service MessageType.ORDER_NEW HFT.OrderService hft_initialized).
  set (s2 := HFT.register_service MessageType.ORDER_CANCEL HFT.OrderService s1).
  set (s3 := HFT.register_service MessageType.ORDER_REPLACE HFT.OrderService s2).
  set (s4 := HFT.register_service MessageType.MARKET_DATA HFT.MarketDataService s3).
  assert (H1 : polite s1) by (by apply polite_register).
  assert (H2 : polite s2) by (by apply polite_register).
  assert (H3 : polite s3) by (by apply polite_register).
  assert (H4 : polite s4) by (by apply polite_register).
  assert (H5 : polite (HFT.start s4)).
  { apply (polite_same s4); [|exact H4].
    destruct (hft_start_spawns_workers s4) as (H & _ & _).
    by destruct (H eq_refl) as (_ & _ & _ & _ & _ & _ & _ & _ & Hs & _). }
  assert (H6 : polite (fst (HFT.accept_connections [Sys.AcceptOk client5]
                              (HFT.start s4)))).
  { apply (polite_same (HFT.start s4)); [vm_compute; reflexivity | exact H5]. }
  apply (rtc_r _ (HFT.start s4));
    [|exact (conj (HFT.step_accept [Sys.AcceptOk client5] (HFT.start s4)) H6)].
  apply (rtc_r _ s4); [|exact (conj (HFT.step_start s4) H5)].
  apply (rtc_r _ s3);
    [|exact (conj (HFT.step_register MessageType.MARKET_DATA HFT.MarketDataService s3)
                  H4)].
  apply (rtc_r _ s2);
    [|exact (conj (HFT.step_register MessageType.ORDER_REPLACE HFT.OrderService s2)
                  H3)].
  apply (rtc_r _ s1);
    [|exact (conj (HFT.step_register MessageType.ORDER_CANCEL HFT.OrderService s1)
                  H2)].
  apply (rtc_r _ hft_initialized);
    [|exact (conj (HFT.step_register MessageType.ORDER_NEW HFT.OrderService
                     hft_initialized) H1)].
  apply (rtc_r _ (HFT.initial boot));
    [|exact (conj (HFT.step_initialize (HFT.mkInitEnv 3 0 0 4 true) "127.0.0.1"
                     8888 4 (HFT.initial boot)) H0)].
  apply rtc_refl.
Qed.

Lemma hft_table_keyed_by_descriptor_witness :
  keyed hft_serving /\
  HFT.connections_ (HFT.close_connection 5 hft_serving) !! 5 = None.
Proof.
  destruct (hft_table_keyed_by_descriptor (layout := lp64) boot hft_serving
              hft_serving_polite_run) as (_ & _ & Hk & Hc).
  split; [exact Hk|].
  assert (H5 : HFT.connections_ hft_serving !! 5
               = Some (HFT.mkConnection 5 0x7f000001 1000 0x5000 false))
    by (vm_compute; reflexivity).
  exact (proj1 (Hc 5 _ H5)).
Defined.

(** *** Closing, and what comes after *)

Section closing.

Context {layout : Layout}.

(** X8. Once [close_connection] has run for a connection stored under its
    descriptor, the server has forgotten it: the record is gone and the table
    is one entry smaller, the other records are untouched, closing it a
    second time changes nothing, and an event that is still reported for the
    descriptor is ignored by [handle_client_events] whatever [recv] would
    return.  The counter [total_connections] is not lowered. *)
Theorem hft_closed_connection_forgotten (conn : Z) (c : HFT.Connection)
    (script : list HFT.recv_result) (s : HFT.server) :
  HFT.connections_ s !! conn = Some c ->
  HFT.fd c = conn ->
  let s' := HFT.close_connection conn s in
  HFT.connections_ s' !! conn = None /\
  size (HFT.connections_ s') = pred (size (HFT.connections_ s)) /\
  (forall other, other <> conn ->
     HFT.connections_ s' !! other = HFT.connections_ s !! other) /\
  HFT.close_connection conn s' = s' /\
  HFT.handle_client_events conn script s' = s' /\
  HFT.total_connections (HFT.stats_ s') = HFT.total_connections (HFT.stats_ s).
Proof.
  intros Hc Hfd s'.
  destruct (HFT.close_connection_spec conn c s Hc) as (_ & _ & H3 & H4 & H5 & _).
  fold s' in H3, H4, H5. rewrite Hfd in H3, H4.
  split; [exact H3|].
  split; [rewrite H4; by apply map_size_delete_Some|].
  split; [intros other Hne; rewrite H4; by apply lookup_delete_ne|].
  split; [unfold HFT.close_connection at 1; by rewrite H3|].
  split; [unfold HFT.handle_client_events; by rewrite H3|].
  by rewrite H5.
Qed.

(** *** Records that are too short *)



End closing.

Lemma hft_closed_connection_forgotten_witness :
  HFT.connections_ hft_serving !! 5
  = Some (HFT.mkConnection 5 0x7f000001 1000 0x5000 false) /\
  let s' := HFT.close_connection 5 hft_serving in
  size (HFT.connections_ s') = 0%nat /\
  HFT.handle_client_events (layout := lp64) 5
    [HFT.RecvData 1064 Message.ctor 800] s' = s'.
Proof.
  assert (Hc : HFT.connections_ hft_serving !! 5
               = Some (HFT.mkConnection 5 0x7f000001 1000 0x5000 false))
    by reflexivity.
  split; [exact Hc|].
  destruct (hft_closed_connection_forgotten (layout := lp64) 5 _
              [HFT.RecvData 1064 Message.ctor 800] hft_serving Hc eq_refl)
    as (_ & H2 & _ & _ & H5 & _).
  split; [exact H2 | exact H5].
Defined.

(** *** Taking a connection in *)

(** X10. What [accept_connections] does with a socket that [accept]
    returned.  If the kernel refuses to register it with the epoll instance,
    the socket is closed and the server keeps no trace of it but one line on
    the error stream: the table and every statistic are as before.  If it is
    registered, the record is stored under the descriptor, not authenticated,
    with the time and the client identifier it was given; the descriptor is
    open, its event carries the key of the record, [total_connections] has
    grown by one and the peak is the larger of the old peak and the new size
    of the table. *)
Theorem hft_accept_stores_or_closes (a : Sys.accepted)
    (rest : list Sys.accept_result) (s : HFT.server) :
  let s' := fst (HFT.accept_connections (Sys.AcceptOk a :: rest) s) in
  let conn := HFT.mkConnection (Sys.a_fd a) (Sys.a_addr a) (Sys.a_now a)
                (Sys.a_ptr a) false in
  (Sys.a_epoll_ok a = false ->
   HFT.connections_ s' = HFT.connections_ s /\
   HFT.stats_ s' = HFT.stats_ s /\
   (Sys.a_fd a ∉ Sys.fds (HFT.kernel s')) /\
   HFT.trace s' = HFT.trace s ++ [Sys.Ecerr "Failed to add client to epoll"]) /\
  (forall interest,
     Sys.a_epoll_ok a = true ->
     Sys.epolls (HFT.kernel s) !! HFT.epoll_fd_ s = Some interest ->
     interest !! Sys.a_fd a = None ->
     HFT.connections_ s' = <[Sys.a_fd a := conn]> (HFT.connections_ s) /\
     Sys.a_fd a ∈ Sys.fds (HFT.kernel s') /\
     Sys.interest_of (HFT.epoll_fd_ s') (HFT.kernel s') !! Sys.a_fd a
     = Some (Some (Sys.a_fd a)) /\
     HFT.total_connections (HFT.stats_ s')
     = u64 (HFT.total_connections (HFT.stats_ s) + 1) /\
     HFT.peak_connections (HFT.stats_ s')
     = Z.max (HFT.peak_connections (HFT.stats_ s))
             (Z.of_nat (size (<[Sys.a_fd a := conn]> (HFT.connections_ s)))) /\
     HFT.total_messages_processed (HFT.stats_ s')
     = HFT.total_messages_processed (HFT.stats_ s) /\
     HFT.trace s' = HFT.trace s).
Proof.
  intros s' conn. subst s'. split.
  - intros Hok. unfold HFT.accept_connections, Sys.epoll_ctl_add.
    cbn -[Sys.close]. rewrite Hok.
    destruct (Sys.epolls (HFT.kernel s) !! HFT.epoll_fd_ s);
      cbn -[Sys.close]; (split; [reflexivity|]); (split; [reflexivity|]);
      (split; [apply Sys.close_closed | reflexivity]).
  - intros interest Hok He Hi.
    unfold HFT.accept_connections, Sys.epoll_ctl_add.
    cbn -[Sys.close]. rewrite Hok, He.
    rewrite bool_decide_eq_true_2 by set_solver.
    rewrite bool_decide_eq_true_2 by exact Hi.
    cbn. split; [reflexivity|]. split; [set_solver|].
    split; [|auto].
    unfold Sys.interest_of. cbn. rewrite lookup_insert_eq. cbn.
    apply lookup_insert_eq.
Qed.

Lemma hft_accept_stores_or_closes_witness :
  Sys.a_epoll_ok client6 = true /\
  is_Some (HFT.connections_
             (fst (HFT.accept_connections [Sys.AcceptOk client6] hft_serving)) !! 6) /\
  HFT.total_connections
    (HFT.stats_ (fst (HFT.accept_connections [Sys.AcceptOk client6] hft_serving)))
  = 2 /\
  HFT.connections_
    (fst (HFT.accept_connections
            [Sys.AcceptOk (Sys.mkAccepted 6 0x7f000001 true true false 2000 0x6000)]
            hft_serving))
  = HFT.connections_ hft_serving.
Proof.
  destruct (hft_accept_stores_or_closes client6 [] hft_serving) as (_ & H).
  destruct (hft_accept_stores_or_closes
              (Sys.mkAccepted 6 0x7f000001 true true false 2000 0x6000) []
              hft_serving) as (H' & _).
  assert (He : Sys.epolls (HFT.kernel hft_serving) !! HFT.epoll_fd_ hft_serving
               = Some {[3 := None; 5 := Some 5]}) by (vm_compute; reflexivity).
  destruct (H _ eq_refl He eq_refl) as (H1 & _ & _ & H4 & _).
  split; [reflexivity|].
  split; [rewrite H1, lookup_insert_eq; by eexists|].
  split; [rewrite H4; reflexivity|].
  exact (proj1 (H' eq_refl)).
Defined.

End HFTProps.

(** * The services and the requests of the test client *)

(** What the layout rules guarantee whatever the compiler: a [Message]
    holds its 1024 bytes of payload, and the records derived from it, which
    add fields of their own, are larger. *)
Definition derived_layout (layout : Layout) : Prop :=
  Message.payload_capacity < sizeof_Message /\
  sizeof_Message < sizeof_OrderMessage /\
  sizeof_Message < sizeof_MarketDataMessage.

Lemma lp64_derived_layout : derived_layout lp64.
Proof. unfold derived_layout, Message.payload_capacity. simpl. lia. Qed.

Module Services.

(** The private routine a call of [process_message] ends up in. *)
Inductive routine : Type :=
| handle_new_order
| handle_cancel_order
| handle_replace_order
| broadcast_market_data
| no_routine.

(** [void OrderService::process_message(const Message&, Connection&)]; the
    routines only write to [std::cout], so that the connection is left as it
    is and the routine that runs is all there is to tell. *)
Definition OrderService_process_message {layout : Layout} (msg : Message.t)
  : routine :=
  let ty := Message.message_type msg in
  if ty =? MessageType.ORDER_NEW then
    if sizeof_OrderMessage <=? Message.payload_size msg
    then handle_new_order else no_routine
  else if ty =? MessageType.ORDER_CANCEL then handle_cancel_order
  else if ty =? MessageType.ORDER_REPLACE then handle_replace_order
  else no_routine.

(** [void MarketDataService::process_message(const Message&, Connection&)] *)
Definition MarketDataService_process_message {layout : Layout} (msg : Message.t)
  : routine :=
  if Message.message_type msg =? MessageType.MARKET_DATA then
    if sizeof_MarketDataMessage <=? Message.payload_size msg
    then broadcast_market_data else no_routine
  else no_routine.

(** X11. The two services read [payload_size] as the length of the whole
    record: [OrderService] calls [handle_new_order], and [MarketDataService]
    calls [broadcast_market_data], only for a record whose [payload_size] is
    at least the size of the derived record, which is more than the 1024
    bytes a payload can hold.  So these two routines run only on records
    that [Message::is_valid()] rejects; on a valid record [MarketDataService]
    does nothing at all and [OrderService] handles cancels and replacements
    only. *)
Theorem handlers_need_oversized_payload (layout : Layout) (msg : Message.t) :
  derived_layout layout ->
  Message.wf msg ->
  ((OrderService_process_message msg = handle_new_order \/
    MarketDataService_process_message msg = broadcast_market_data) ->
   Message.payload_capacity < Message.payload_size msg /\
   Message.is_valid msg = false) /\
  (Message.is_valid msg = true ->
   MarketDataService_process_message msg = no_routine /\
   OrderService_process_message msg
   = if Message.message_type msg =? MessageType.ORDER_CANCEL
     then handle_cancel_order
     else if Message.message_type msg =? MessageType.ORDER_REPLACE
          then handle_replace_order
          else no_routine).
Proof.
  intros (Hm & Ho & Hd) Hwf.
  assert (Hbig : Message.payload_capacity < Message.payload_size msg ->
                 Message.is_valid msg = false).
  { intros Hb. destruct (Message.is_valid msg) eqn:Hv; [|reflexivity].
    pose proof (Message.is_valid_payload_size msg Hwf Hv). lia. }
  assert (Hsmall : Message.is_valid msg = true ->
                   Message.payload_size msg <= Message.payload_capacity)
    by apply (Message.is_valid_payload_size msg Hwf).
  unfold OrderService_process_message, MarketDataService_process_message.
  split.
  - intros [H|H].
    + destruct (Message.message_type msg =? MessageType.ORDER_NEW).
      * destruct (Z.leb_spec sizeof_OrderMessage (Message.payload_size msg));
          [|discriminate].
        split; [lia | apply Hbig; lia].
      * destruct (_ =? MessageType.ORDER_CANCEL); [discriminate|].
        destruct (_ =? MessageType.ORDER_REPLACE); discriminate.
    + destruct (Message.message_type msg =? MessageType.MARKET_DATA);
        [|discriminate].
      destruct (Z.leb_spec sizeof_MarketDataMessage (Message.payload_size msg));
        [|discriminate].
      split; [lia | apply Hbig; lia].
  - intros Hv. specialize (Hsmall Hv). split.
    + destruct (_ =? MessageType.MARKET_DATA); [|reflexivity].
      destruct (Z.leb_spec sizeof_MarketDataMessage (Message.payload_size msg));
        [lia | reflexivity].
    + destruct (Z.eqb_spec (Message.message_type msg) MessageType.ORDER_NEW)
        as [->|Hne]; [|reflexivity].
      destruct (Z.leb_spec sizeof_OrderMessage (Message.payload_size msg));
        [lia | reflexivity].
Qed.

Lemma handlers_need_oversized_payload_witness :
  derived_layout lp64 /\ Message.wf oversized /\ Message.wf Message.sample /\
  OrderService_process_message (layout := lp64) oversized = handle_new_order /\
  Message.is_valid oversized = false /\
  Message.is_valid Message.sample = true /\
  OrderService_process_message (layout := lp64) Message.sample = no_routine.
Proof.
  assert (Hw : Message.wf oversized) by (vm_compute; reflexivity).
  assert (Hw' : Message.wf Message.sample) by (vm_compute; reflexivity).
  assert (Hn : OrderService_process_message (layout := lp64) oversized
               = handle_new_order) by reflexivity.
  assert (Hv : Message.is_valid Message.sample = true) by reflexivity.
  destruct (handlers_need_oversized_payload lp64 oversized lp64_derived_layout Hw)
    as (H1 & _).
  destruct (handlers_need_oversized_payload lp64 Message.sample lp64_derived_layout
              Hw') as (_ & H2).
  split; [exact lp64_derived_layout|]. split; [exact Hw|]. split; [exact Hw'|].
  split; [exact Hn|]. split; [exact (proj2 (H1 (or_introl Hn)))|].
  split; [exact Hv | exact (proj2 (H2 Hv))].
Defined.

End Services.

(** ** The test client ([test_client.cpp]) *)

Module TestClient.

Record t : Type := mk {
  socket_fd_ : Z;
  message_counter_ : Z
}.

(** [uint64_t generate_message_id()] *)
Definition generate_message_id (c : t) : Z * t :=
  let n := u64 (message_counter_ c + 1) in
  (n, mk (socket_fd_ c) n).

(** [uint64_t generate_order_id()] *)
Definition generate_order_id (c : t) : Z * t :=
  let n := u64 (message_counter_ c + 1) in
  (u64 (1000000 + n), mk (socket_fd_ c) n).

(** What a routine hands to [send]: the [Message] part of the record it
    has built and the number of bytes. *)
Record wire : Type := mkWire {
  header : Message.t;
  bytes : Z
}.

(** The [n] bytes of an unsigned integer as [memcpy] finds them on a
    little-endian machine. *)
Fixpoint object_bytes (n : nat) (x : Z) : list Z :=
  match n with
  | O => []
  | S n' => x mod 256 :: object_bytes n' (x / 256)
  end.

(** [memcpy(dst.data(), src, n)] on an array *)
Definition memcpy (src dst : list Z) : list Z :=
  src ++ drop (length src) dst.

Lemma length_object_bytes (n : nat) : forall x, length (object_bytes n x) = n.
Proof. induction n as [|n IH]; intros x; simpl; [reflexivity | by rewrite IH]. Qed.

Lemma length_memcpy (src dst : list Z) :
  (length src <= length dst)%nat -> length (memcpy src dst) = length dst.
Proof. intros H. unfold memcpy. rewrite length_app, length_drop. lia. Qed.

Section requests.

Context {layout : Layout}.

(** [bool send_order(symbol, side, quantity, price)]: [None] when the
    client is not connected.  [now] is the reading of the clock. *)
Definition send_order (now : Z) (c : t) : option wire * t :=
  if socket_fd_ c =? -1 then (None, c)
  else
    let '(id, c) := generate_message_id c in
    let '(_, c) := generate_order_id c in
    (Some (mkWire (Message.mk id now 0 MessageType.ORDER_NEW MessageStatus.PENDING
                     1 0 0 (Message.payload Message.ctor))
                  sizeof_OrderMessage), c).

(** [bool send_cancel_order(uint64_t order_id)] *)
Definition send_cancel_order (now order_id : Z) (c : t) : option wire * t :=
  if socket_fd_ c =? -1 then (None, c)
  else
    let '(id, c) := generate_message_id c in
    (Some (mkWire (Message.mk id now 0 MessageType.ORDER_CANCEL MessageStatus.PENDING
                     1 0 8
                     (memcpy (object_bytes 8 order_id) (Message.payload Message.ctor)))
                  sizeof_Message), c).

(** [bool send_market_data(symbol, bid_price, bid_size, ask_price, ask_size)] *)
Definition send_market_data (now : Z) (c : t) : option wire * t :=
  if socket_fd_ c =? -1 then (None, c)
  else
    let '(id, c) := generate_message_id c in
    (Some (mkWire (Message.mk id now 0 MessageType.MARKET_DATA MessageStatus.PENDING
                     2 0 0 (Message.payload Message.ctor))
                  sizeof_MarketDataMessage), c).

(** [bool send_heartbeat()] *)
Definition send_heartbeat (now : Z) (c : t) : option wire * t :=
  if socket_fd_ c =? -1 then (None, c)
  else
    let '(id, c) := generate_message_id c in
    (Some (mkWire (Message.mk id now 0 MessageType.HEARTBEAT MessageStatus.PENDING
                     1 0 0 (Message.payload Message.ctor))
                  sizeof_Message), c).

(** What the server's [recv] returns when the bytes of one request have
    arrived, all of them and nothing else. *)
Definition arrives (w : wire) (latency_ns : Z) : HFT.recv_result :=
  HFT.RecvData (bytes w) (header w) latency_ns.

End requests.

(** X12. No request of the test client makes a routine of a service run.
    A cancel is sent as a plain [Message], which is shorter than the
    [OrderMessage] the server's receive loop insists on for the tag
    ORDER_CANCEL: arriving on its own it is dropped by the loop, neither
    counted nor delivered, so [handle_cancel_order] is not reached.  An
    order and a market data update have the length the loop asks for and are
    handed on, but the client leaves [payload_size] at 0, and
    [OrderService] and [MarketDataService] ignore them.  A heartbeat is
    long enough to be counted.  Each request carries a fresh non-zero
    message identifier; a client that is not connected sends nothing and
    uses up no identifier. *)
Theorem test_client_requests_reach_no_routine (layout : Layout) (now : Z) (c : t) :
  derived_layout layout ->
  socket_fd_ c <> -1 ->
  0 <= message_counter_ c < two64 - 2 ->
  (forall order_id, exists w c',
     send_cancel_order now order_id c = (Some w, c') /\
     Message.message_id (header w) = message_counter_ c + 1 /\
     Message.wf (header w) /\
     HFT.complete (bytes w) (header w) = false /\
     forall client_fd latency_ns rest s,
       HFT.handle_client_events client_fd (arrives w latency_ns :: rest) s
       = HFT.handle_client_events client_fd rest s) /\
  (exists w c',
     send_order now c = (Some w, c') /\
     Message.message_id (header w) = message_counter_ c + 1 /\
     message_counter_ c' = message_counter_ c + 2 /\
     HFT.complete (bytes w) (header w) = true /\
     Services.OrderService_process_message (header w) = Services.no_routine) /\
  (exists w c',
     send_market_data now c = (Some w, c') /\
     Message.message_id (header w) = message_counter_ c + 1 /\
     HFT.complete (bytes w) (header w) = true /\
     Services.MarketDataService_process_message (header w) = Services.no_routine) /\
  (exists w c',
     send_heartbeat now c = (Some w, c') /\
     Message.message_id (header w) = message_counter_ c + 1 /\
     HFT.complete (bytes w) (header w) = true) /\
  (forall order_id,
     let c0 := mk (-1) (message_counter_ c) in
     send_cancel_order now order_id c0 = (None, c0) /\
     send_order now c0 = (None, c0) /\
     send_market_data now c0 = (None, c0) /\
     send_heartbeat now c0 = (None, c0)).
Proof.
  intros (Hm & Ho & Hd) Hfd Hctr.
  unfold Message.payload_capacity in Hm.
  assert (Hne : (socket_fd_ c =? -1) = false) by (apply Z.eqb_neq; exact Hfd).
  assert (Hid : u64 (message_counter_ c + 1) = message_counter_ c + 1)
    by (apply u64_small; lia).
  assert (Hid2 : u64 (message_counter_ c + 1 + 1) = message_counter_ c + 2)
    by (rewrite u64_small by lia; lia).
  split; [|split; [|split; [|split]]].
  - intros order_id. unfold send_cancel_order, generate_message_id. rewrite Hne.
    set (m := Message.mk (u64 (message_counter_ c + 1)) now 0
                MessageType.ORDER_CANCEL MessageStatus.PENDING 1 0 8
                (memcpy (object_bytes 8 order_id) (Message.payload Message.ctor))).
    exists (mkWire m sizeof_Message), (mk (socket_fd_ c) (u64 (message_counter_ c + 1))).
    split; [reflexivity|]. cbn [header bytes].
    split; [exact Hid|]. split.
    { pose proof Message.wf_ctor as Hw. unfold Message.wf in *.
      unfold m. cbn [Message.payload].
      rewrite length_memcpy; [exact Hw|].
      rewrite length_object_bytes. unfold Message.payload_capacity in Hw. lia. }
    assert (Hc : HFT.complete sizeof_Message m = false).
    { unfold HFT.complete. cbn [Message.message_type m].
      destruct (Z.leb_spec sizeof_OrderMessage sizeof_Message); [lia|].
      apply andb_false_r. }
    split; [exact Hc|].
    intros client_fd latency_ns rest s. unfold HFT.handle_client_events, arrives.
    destruct (HFT.connections_ s !! client_fd); [|reflexivity].
    cbn [HFT.recv_loop bytes header]. rewrite HFT.dispatch_complete, Hc. reflexivity.
  - unfold send_order. rewrite Hne. cbn.
    eexists _, _. split; [reflexivity|]. cbn.
    split; [exact Hid|]. split; [rewrite Hid; exact Hid2|]. split.
    + unfold HFT.complete. cbn.
      destruct (Z.leb_spec sizeof_Message sizeof_OrderMessage); [|lia].
      rewrite Z.leb_refl. reflexivity.
    + unfold Services.OrderService_process_message. cbn.
      destruct (Z.leb_spec sizeof_OrderMessage 0); [lia | reflexivity].
  - unfold send_market_data. rewrite Hne. cbn.
    eexists _, _. split; [reflexivity|]. cbn.
    split; [exact Hid|]. split.
    + unfold HFT.complete. cbn.
      destruct (Z.leb_spec sizeof_Message sizeof_MarketDataMessage); [|lia].
      rewrite Z.leb_refl. reflexivity.
    + unfold Services.MarketDataService_process_message. cbn.
      destruct (Z.leb_spec sizeof_MarketDataMessage 0); [lia | reflexivity].
  - unfold send_heartbeat. rewrite Hne. cbn.
    eexists _, _. split; [reflexivity|]. cbn.
    split; [exact Hid|].
    unfold HFT.complete. cbn. rewrite Z.leb_refl. reflexivity.
  - intros order_id c0. subst c0.
    unfold send_cancel_order, send_order, send_market_data, send_heartbeat.
    cbn [socket_fd_]. change (-1 =? -1) with true. cbn iota. auto.
Qed.

Lemma test_client_requests_reach_no_routine_witness :
  derived_layout lp64 /\
  exists w c',
    send_cancel_order (layout := lp64) 1700000000 1000002 (mk 9 0) = (Some w, c') /\
    HFT.handle_client_events (layout := lp64) 5 (arrives w 800 :: []) hft_serving
    = HFT.handle_client_events (layout := lp64) 5 [] hft_serving.
Proof.
  split; [exact lp64_derived_layout|].
  assert (Hfd : socket_fd_ (mk 9 0) <> -1) by discriminate.
  assert (Hctr : 0 <= message_counter_ (mk 9 0) < two64 - 2)
    by (split; [discriminate | reflexivity]).
  destruct (test_client_requests_reach_no_routine lp64 1700000000 (mk 9 0)
              lp64_derived_layout Hfd Hctr) as (H & _).
  destruct (H 1000002) as (w & c' & Hw & _ & _ & _ & Hdrop).
  exists w, c'. split; [exact Hw | exact (Hdrop 5 800 [] hft_serving)].
Defined.

End TestClient.

(** * The low-latency server: start-up, replies, closed connections *)

Module UltraProps.

(** *** Initialising *)

(** X13. [UltraHFTServer::initialize] cleans up when it fails.  When it
    returns false it has written exactly one line to the error stream, every
    descriptor that is open afterwards was open before the call, no epoll
    instance was added, and the listener it had created, if any, is closed
    again although [server_socket_] still holds its number.  When it returns
    true the listener and the epoll instance are open, the members hold
    their numbers, neither is negative, and the interest list of the epoll
    instance holds the listener alone, marked with the null pointer.  In both
    cases the running flag, the workers, the connections, the statistics and
    the buffers are as before. *)
Theorem ultra_initialize_outcome (env : Ultra.init_env) (s : Ultra.server) :
  let r := Ultra.initialize env s in
  let s' := snd r in
  (fst r = false ->
   Sys.fds (Ultra.kernel s') ⊆ Sys.fds (Ultra.kernel s) /\
   (forall ep, is_Some (Sys.epolls (Ultra.kernel s') !! ep) ->
               is_Some (Sys.epolls (Ultra.kernel s) !! ep)) /\
   (0 <= Ultra.i_socket env ->
    (Ultra.i_socket env ∉ Sys.fds (Ultra.kernel s')) /\
    Ultra.server_socket_ s' = Ultra.i_socket env) /\
   exists line, Ultra.trace s' = Ultra.trace s ++ [Sys.Ecerr line]) /\
  (fst r = true ->
   Ultra.server_socket_ s' = Ultra.i_socket env /\
   Ultra.epoll_fd_ s' = Ultra.i_epoll_create env /\
   0 <= Ultra.i_socket env /\ 0 <= Ultra.i_epoll_create env /\
   Ultra.i_socket env ∈ Sys.fds (Ultra.kernel s') /\
   Ultra.i_epoll_create env ∈ Sys.fds (Ultra.kernel s') /\
   Sys.interest_of (Ultra.epoll_fd_ s') (Ultra.kernel s')
   = {[(Ultra.i_socket env) := (None : option nat)]} /\
   Ultra.trace s' = Ultra.trace s) /\
  Ultra.running_ s' = Ultra.running_ s /\
  Ultra.worker_threads_ s' = Ultra.worker_threads_ s /\
  Ultra.connections_ s' = Ultra.connections_ s /\
  Ultra.connection_count_ s' = Ultra.connection_count_ s /\
  Ultra.stats_ s' = Ultra.stats_ s /\
  Ultra.send_buffer_ s' = Ultra.send_buffer_ s /\
  Ultra.recv_buffer_ s' = Ultra.recv_buffer_ s.
Proof.
  intros r s'. subst s' r. unfold Ultra.initialize.
  cbn -[Sys.close Sys.open_fd Sys.epoll_create Sys.epoll_ctl_add Z.ltb].
  destruct (Z.ltb_spec (Ultra.i_socket env) 0) as [Hs|Hs].
  { cbn. split; [intros _|split; [discriminate|repeat split; reflexivity]].
    split; [set_solver|]. split; [trivial|]. split; [lia|]. by eexists. }
  assert (Hgiveup : forall line,
    let s1 := Ultra.sys (Sys.close (Ultra.i_socket env))
                (Ultra.emit (Sys.Ecerr line)
                   (Ultra.sys (Sys.open_fd (Ultra.i_socket env))
                      (Ultra.set_server_socket (Ultra.i_socket env) s))) in
    Sys.fds (Ultra.kernel s1) ⊆ Sys.fds (Ultra.kernel s) /\
    (forall ep, is_Some (Sys.epolls (Ultra.kernel s1) !! ep) ->
                is_Some (Sys.epolls (Ultra.kernel s) !! ep)) /\
    (0 <= Ultra.i_socket env ->
     (Ultra.i_socket env ∉ Sys.fds (Ultra.kernel s1)) /\
     Ultra.server_socket_ s1 = Ultra.i_socket env) /\
    exists line', Ultra.trace s1 = Ultra.trace s ++ [Sys.Ecerr line']).
  { intros line s1. subst s1. cbn -[Sys.close Sys.open_fd].
    split; [|split; [|split]].
    - unfold Sys.close, Sys.open_fd. case_decide; simpl in *; set_solver.
    - intros ep H. by apply HFTProps.close_epolls_sub in H.
    - intros _. split; [apply Sys.close_closed | reflexivity].
    - by eexists. }
  destruct (Ultra.i_sockopts_ok env);
    [|cbn -[Sys.close Sys.open_fd];
      split; [intros _; apply Hgiveup
             |split; [discriminate|repeat split; reflexivity]]].
  destruct (Ultra.i_nonblock_ok env);
    [|cbn -[Sys.close Sys.open_fd];
      split; [intros _; apply Hgiveup
             |split; [discriminate|repeat split; reflexivity]]].
  cbn -[Sys.close Sys.open_fd Sys.epoll_create Sys.epoll_ctl_add Z.ltb].
  destruct (Z.ltb_spec (Ultra.i_bind env) 0) as [Hb|Hb];
    [cbn -[Sys.close Sys.open_fd];
     split; [intros _; apply Hgiveup
            |split; [discriminate|repeat split; reflexivity]]|].
  destruct (Z.ltb_spec (Ultra.i_listen env) 0) as [Hl|Hl];
    [cbn -[Sys.close Sys.open_fd];
     split; [intros _; apply Hgiveup
            |split; [discriminate|repeat split; reflexivity]]|].
  cbn -[Sys.close Sys.open_fd Sys.epoll_create Sys.epoll_ctl_add Z.ltb].
  destruct (Z.ltb_spec (Ultra.i_epoll_create env) 0) as [He|He];
    [cbn -[Sys.close Sys.open_fd];
     split; [intros _; apply Hgiveup
            |split; [discriminate|repeat split; reflexivity]]|].
  cbn -[Sys.close Sys.open_fd Sys.epoll_create Sys.epoll_ctl_add Z.ltb].
  clear Hgiveup.
  set (l := Ultra.i_socket env) in *. set (e := Ultra.i_epoll_create env) in *.
  set (k := Ultra.kernel s).
  destruct (Sys.epoll_ctl_add (Ultra.i_epoll_ctl_ok env) e l None
              (Sys.epoll_create e (Sys.open_fd l k))) as [k'|] eqn:Hadd.
  - cbn. split; [discriminate|]. split; [intros _|repeat split; reflexivity].
    unfold Sys.epoll_ctl_add in Hadd. cbn in Hadd.
    rewrite lookup_insert_eq in Hadd.
    destruct (_ && _) in Hadd; [|discriminate].
    injection Hadd as <-. cbn.
    split; [reflexivity|]. split; [reflexivity|]. split; [exact Hs|].
    split; [exact He|]. split; [set_solver|]. split; [set_solver|].
    split; [|reflexivity].
    unfold Sys.interest_of. cbn. rewrite lookup_insert_eq. reflexivity.
  - cbn -[Sys.close Sys.open_fd Sys.epoll_create].
    split; [intros _|split; [discriminate|repeat split; reflexivity]].
    split; [|split; [|split]].
    + unfold Sys.close, Sys.open_fd, Sys.epoll_create.
      repeat (case_decide; simpl in * ); set_solver.
    + intros ep H. apply HFTProps.close_epolls_sub in H.
      unfold Sys.close in H. rewrite decide_True in H by (simpl; set_solver).
      simpl in H. rewrite lookup_fmap in H.
      destruct (decide (ep = e)) as [->|Hne].
      * rewrite lookup_delete_eq in H. simpl in H. by destruct H.
      * rewrite lookup_delete_ne, lookup_insert_ne in H by done.
        fold k in H. destruct (Sys.epolls k !! ep); [by eexists|].
        simpl in H. by destruct H.
    + intros _. split; [apply Sys.close_closed | reflexivity].
    + by eexists.
Qed.

Lemma ultra_initialize_outcome_witness :
  let s0 := Ultra.initial "127.0.0.1" 8888 4 (-1) (-1) ultra_buffers ultra_buffers
              boot in
  let r := Ultra.initialize (Ultra.mkInitEnv 3 true true 0 (-1) 4 true) s0 in
  fst r = false /\
  Sys.fds (Ultra.kernel (snd r)) ⊆ {[0; 1; 2]} /\
  Ultra.server_socket_ (snd r) = 3 /\
  fst (Ultra.initialize (Ultra.mkInitEnv 3 true true 0 0 4 true) s0) = true /\
  Sys.interest_of (Ultra.epoll_fd_ ultra_initialized) (Ultra.kernel ultra_initialized)
  = {[3 := None]}.
Proof.
  intros s0 r.
  assert (Hf : fst r = false) by reflexivity.
  assert (Ht : fst (Ultra.initialize (Ultra.mkInitEnv 3 true true 0 0 4 true) s0)
               = true) by reflexivity.
  destruct (ultra_initialize_outcome (Ultra.mkInitEnv 3 true true 0 (-1) 4 true) s0)
    as (H1 & _ & _).
  destruct (ultra_initialize_outcome (Ultra.mkInitEnv 3 true true 0 0 4 true) s0)
    as (_ & H2 & _).
  destruct (H1 Hf) as (Ha & _ & Hb & _).
  destruct (H2 Ht) as (_ & _ & _ & _ & _ & _ & Hc & _).
  split; [exact Hf|]. split; [exact Ha|].
  split; [apply Hb; discriminate|]. split; [exact Ht | exact Hc].
Defined.

(** *** Starting *)

Lemma ultra_spawn_workers_spec (n : nat) : forall s,
  let s' := Ultra.spawn_workers n s in
  Ultra.worker_threads_ s'
  = Ultra.worker_threads_ s ++ seq (Sys.next_tid (Ultra.kernel s)) n /\
  (forall tid, tid ∈ Sys.threads (Ultra.kernel s') <->
     tid ∈ Sys.threads (Ultra.kernel s) \/
     (Sys.next_tid (Ultra.kernel s) <= tid < Sys.next_tid (Ultra.kernel s) + n)%nat) /\
  Sys.next_tid (Ultra.kernel s') = (Sys.next_tid (Ultra.kernel s) + n)%nat /\
  Ultra.running_ s' = Ultra.running_ s /\
  Ultra.server_socket_ s' = Ultra.server_socket_ s /\
  Ultra.epoll_fd_ s' = Ultra.epoll_fd_ s /\
  Ultra.thread_count_ s' = Ultra.thread_count_ s /\
  Ultra.trace s' = Ultra.trace s.
Proof.
  induction n as [|n IH]; intros s; cbn zeta.
  - simpl. rewrite app_nil_r, Nat.add_0_r.
    repeat split; try reflexivity; [tauto | intros [H|H]; [exact H | lia]].
  - simpl.
    specialize (IH (Ultra.set_worker_threads
                      (Ultra.worker_threads_ s ++ [Sys.next_tid (Ultra.kernel s)])
                      (Ultra.set_kernel (snd (Sys.spawn (Ultra.kernel s))) s))).
    cbn zeta in IH. simpl in IH.
    destruct IH as (H1 & H2 & H3 & H4 & H5 & H6 & H7 & H8).
    split; [rewrite H1, <- app_assoc; reflexivity|].
    split; [intros tid; rewrite H2; set_solver by lia|].
    split; [rewrite H3; lia|].
    auto 20.
Qed.

(** X14. [UltraHFTServer::start] on a server that is not running returns
    true, sets the running flag and creates exactly [thread_count_] workers
    with fresh thread identifiers, opening and closing no descriptor and
    leaving connections and statistics alone.  On a running server it
    returns false and does nothing but write a line to the error stream, so
    that a second call in a row is always refused.  It does not look at the
    descriptors: called after [stop()], which has put -1 into [epoll_fd_]
    and [server_socket_], it returns true all the same and the new workers
    run without a listener. *)
Theorem ultra_start_outcome (s : Ultra.server) :
  (Ultra.running_ s = false ->
   let s' := snd (Ultra.start s) in
   fst (Ultra.start s) = true /\
   Ultra.running_ s' = true /\
   Ultra.worker_threads_ s'
   = Ultra.worker_threads_ s
     ++ seq (Sys.next_tid (Ultra.kernel s)) (Ultra.thread_count_ s) /\
   (forall tid, tid ∈ Sys.threads (Ultra.kernel s') <->
      tid ∈ Sys.threads (Ultra.kernel s) \/
      (Sys.next_tid (Ultra.kernel s) <= tid
       < Sys.next_tid (Ultra.kernel s) + Ultra.thread_count_ s)%nat) /\
   Sys.fds (Ultra.kernel s') = Sys.fds (Ultra.kernel s) /\
   Sys.epolls (Ultra.kernel s') = Sys.epolls (Ultra.kernel s) /\
   Ultra.server_socket_ s' = Ultra.server_socket_ s /\
   Ultra.epoll_fd_ s' = Ultra.epoll_fd_ s /\
   Ultra.connections_ s' = Ultra.connections_ s /\
   Ultra.stats_ s' = Ultra.stats_ s /\
   Ultra.trace s' = Ultra.trace s) /\
  (Ultra.running_ s = true ->
   Ultra.start s = (false, Ultra.emit (Sys.Ecerr "Server already running") s)) /\
  fst (Ultra.start (snd (Ultra.start s))) = false /\
  (Ultra.running_ s = true ->
   0 <= Ultra.epoll_fd_ s -> 0 <= Ultra.server_socket_ s ->
   let s1 := snd (Ultra.start (Ultra.stop s)) in
   fst (Ultra.start (Ultra.stop s)) = true /\
   Ultra.running_ s1 = true /\
   Ultra.epoll_fd_ s1 = -1 /\ Ultra.server_socket_ s1 = -1 /\
   length (Ultra.worker_threads_ s1) = Ultra.thread_count_ s).
Proof.
  assert (Hfirst : forall s0, Ultra.running_ s0 = false ->
    let s' := snd (Ultra.start s0) in
    fst (Ultra.start s0) = true /\
    Ultra.running_ s' = true /\
    Ultra.worker_threads_ s'
    = Ultra.worker_threads_ s0
      ++ seq (Sys.next_tid (Ultra.kernel s0)) (Ultra.thread_count_ s0) /\
    (forall tid, tid ∈ Sys.threads (Ultra.kernel s') <->
       tid ∈ Sys.threads (Ultra.kernel s0) \/
       (Sys.next_tid (Ultra.kernel s0) <= tid
        < Sys.next_tid (Ultra.kernel s0) + Ultra.thread_count_ s0)%nat) /\
    Sys.fds (Ultra.kernel s') = Sys.fds (Ultra.kernel s0) /\
    Sys.epolls (Ultra.kernel s') = Sys.epolls (Ultra.kernel s0) /\
    Ultra.server_socket_ s' = Ultra.server_socket_ s0 /\
    Ultra.epoll_fd_ s' = Ultra.epoll_fd_ s0 /\
    Ultra.connections_ s' = Ultra.connections_ s0 /\
    Ultra.stats_ s' = Ultra.stats_ s0 /\
    Ultra.trace s' = Ultra.trace s0).
  { intros s0 Hr s'. subst s'. unfold Ultra.start. rewrite Hr. cbn [fst snd].
    destruct (ultra_spawn_workers_spec (Ultra.thread_count_ s0)
                (Ultra.set_running true s0))
      as (H1 & H2 & H3 & H4 & H5 & H6 & H7 & H8).
    destruct (Ultra.spawn_workers_core (Ultra.thread_count_ s0)
                (Ultra.set_running true s0)) as (G1 & G2 & G3 & G4).
    cbn zeta in *. simpl in *. auto 20. }
  assert (Hsecond : forall s0, Ultra.running_ s0 = true ->
            Ultra.start s0 = (false, Ultra.emit (Sys.Ecerr "Server already running") s0)).
  { intros s0 Hr. unfold Ultra.start. rewrite Hr. reflexivity. }
  split; [apply Hfirst|]. split; [apply Hsecond|]. split.
  - destruct (Ultra.running_ s) eqn:Hr.
    + rewrite (Hsecond s Hr). cbn [snd]. rewrite Hsecond; [reflexivity | exact Hr].
    + destruct (Hfirst s Hr) as (_ & Hrun & _). cbn zeta in Hrun.
      rewrite (Hsecond _ Hrun). reflexivity.
  - intros Hr Hep Hsock s1.
    destruct (Ultra.stop_when_running s Hr) as (Hstop & H2 & H3 & H4 & _).
    cbn zeta in *.
    destruct (H2 Hsock) as [H2' _]. destruct (H3 Hep) as [H3' _].
    destruct (Hfirst (Ultra.stop s) Hstop) as (G1 & G2 & G3 & _ & _ & _ & G7 & G8 & _).
    fold s1 in G2, G3, G7, G8.
    assert (Htc : Ultra.thread_count_ (Ultra.stop s) = Ultra.thread_count_ s).
    { unfold Ultra.stop. rewrite Hr. cbn -[Sys.close Sys.join_all Z.leb].
      destruct (0 <=? Ultra.epoll_fd_ s); cbn -[Sys.close Sys.join_all Z.leb];
        destruct (0 <=? Ultra.server_socket_ s); reflexivity. }
    split; [exact G1|]. split; [exact G2|].
    split; [congruence|]. split; [congruence|].
    rewrite G3, H4, Htc. simpl. apply length_seq.
Qed.

Lemma ultra_start_outcome_witness :
  Ultra.running_ ultra_initialized = false /\
  fst (Ultra.start ultra_initialized) = true /\
  Ultra.worker_threads_ ultra_running = [0; 1; 2; 3]%nat /\
  fst (Ultra.start ultra_running) = false /\
  Ultra.running_ ultra_running = true /\
  Ultra.epoll_fd_ (snd (Ultra.start (Ultra.stop ultra_running))) = -1.
Proof.
  assert (Hr : Ultra.running_ ultra_initialized = false) by reflexivity.
  assert (Hr' : Ultra.running_ ultra_running = true) by reflexivity.
  destruct (ultra_start_outcome ultra_initialized) as (H1 & _ & H3 & _).
  destruct (ultra_start_outcome ultra_running) as (_ & _ & _ & H4).
  destruct (H1 Hr) as (Ha & _ & Hb & _).
  assert (He : 0 <= Ultra.epoll_fd_ ultra_running) by (vm_compute; discriminate).
  assert (Hs : 0 <= Ultra.server_socket_ ultra_running) by (vm_compute; discriminate).
  destruct (H4 Hr' He Hs) as (_ & _ & Hc & _).
  split; [exact Hr|]. split; [exact Ha|]. split; [exact Hb|].
  split; [exact H3|]. split; [exact Hr' | exact Hc].
Defined.

(** *** One record from a client *)

Lemma next_recv_slot (s : Ultra.server) :
  Ultra.pool_wf s ->
  Ultra.get_next_recv_buffer s
  = (Z.to_nat (Ultra.recv_buffer_index_ s mod 1024),
     Ultra.set_recv_buffer_index (u64 (Ultra.recv_buffer_index_ s + 1)) s) /\
  (Z.to_nat (Ultra.recv_buffer_index_ s mod 1024) < 1024)%nat.
Proof.
  intros (Hs & Hr & _ & _). unfold Ultra.get_next_recv_buffer. simpl.
  rewrite Hr. split; [reflexivity|].
  pose proof (Z.mod_pos_bound (Ultra.recv_buffer_index_ s) 1024). lia.
Qed.

Lemma next_send_slot (s : Ultra.server) :
  length (Ultra.send_buffer_ s) = 1024%nat ->
  Ultra.get_next_send_buffer s
  = (Z.to_nat (Ultra.send_buffer_index_ s mod 1024),
     Ultra.set_send_buffer_index (u64 (Ultra.send_buffer_index_ s + 1)) s) /\
  (Z.to_nat (Ultra.send_buffer_index_ s mod 1024) < 1024)%nat.
Proof.
  intros Hs. unfold Ultra.get_next_send_buffer. simpl.
  rewrite Hs. split; [reflexivity|].
  pose proof (Z.mod_pos_bound (Ultra.send_buffer_index_ s) 1024). lia.
Qed.

(** The reply to the request [m]: the slot [r] with the identifier of the
    request, the time of the reply and the type of the acknowledgement. *)
Definition reply_in (r m : Ultra.UltraMessage) (io : Ultra.io_env) : Ultra.UltraMessage :=
  Ultra.mkMessage (Ultra.message_id m) (Ultra.io_response_time io)
    (Ultra.message_type m + 2) (Ultra.payload_size r) (Ultra.payload r).

Section data.

Context {layout : Layout}.

(** What sending an acknowledgement does: the next send slot is filled in
    and, if the connection is active, handed to [send]. *)
Lemma acknowledge_effect ack_type io slot i c m r s :
  length (Ultra.send_buffer_ s) = 1024%nat ->
  Ultra.recv_buffer_ s !! slot = Some m ->
  Ultra.connections_ s !! i = Some c ->
  Ultra.send_buffer_ s !! Z.to_nat (Ultra.send_buffer_index_ s mod 1024) = Some r ->
  Ultra.acknowledge ack_type io slot (Some i) s
  = let s1 :=
      Ultra.set_send_buffer
        (<[Z.to_nat (Ultra.send_buffer_index_ s mod 1024) :=
             Ultra.mkMessage (Ultra.message_id m) (Ultra.io_response_time io)
               ack_type (Ultra.payload_size r) (Ultra.payload r)]>
           (Ultra.send_buffer_ s))
        (Ultra.set_send_buffer_index (u64 (Ultra.send_buffer_index_ s + 1)) s) in
    if Ultra.is_active c
    then Ultra.emit (Sys.Esend (Ultra.fd c) (Ultra.message_id m) ack_type) s1
    else s1.
Proof.
  intros Hsl Hm Hi Hr.
  destruct (next_send_slot s Hsl) as [Hnext Hreply].
  unfold Ultra.acknowledge. rewrite Hm, Hnext.
  cbn [Ultra.send_buffer_ Ultra.set_send_buffer_index]. rewrite Hr.
  unfold Ultra.send_response.
  cbn [Ultra.connections_ Ultra.send_buffer_ Ultra.set_send_buffer
       Ultra.set_send_buffer_index].
  rewrite Hi, list_lookup_insert_eq by lia.
  cbn zeta. destruct (Ultra.is_active c); reflexivity.
Qed.

(** The state in which [handle_client_events] leaves the server after a
    record of full length. *)
Lemma complete_record_path client_fd io n m i c s :
  Ultra.pool_wf s ->
  list_find (fun c => Ultra.fd c = client_fd) (Ultra.connections_ s) = Some (i, c) ->
  Ultra.io_recv io = Ultra.RecvData n m ->
  sizeof_UltraMessage <= n ->
  let s' := Ultra.handle_client_events client_fd io s in
  let slot := Z.to_nat (Ultra.recv_buffer_index_ s mod 1024) in
  let reply := Z.to_nat (Ultra.send_buffer_index_ s mod 1024) in
  let handled := (Ultra.message_type m =? 1) || (Ultra.message_type m =? 2) in
  Ultra.recv_buffer_ s' = <[slot := m]> (Ultra.recv_buffer_ s) /\
  Ultra.recv_buffer_index_ s' = u64 (Ultra.recv_buffer_index_ s + 1) /\
  Ultra.kernel s' = Ultra.kernel s /\
  Ultra.connections_ s' = Ultra.connections_ s /\
  Ultra.stats_ s'
  = Ultra.mkStats (u64 (Ultra.total_messages (Ultra.stats_ s) + 1))
      (Ultra.active_connections (Ultra.stats_ s))
      (Ultra.peak_connections (Ultra.stats_ s))
      (u64 (Ultra.total_latency (Ultra.stats_ s)
            + u64 (Ultra.io_receive_time io - Ultra.timestamp m)))
      (u64 (Ultra.message_count (Ultra.stats_ s) + 1)) /\
  Ultra.send_buffer_index_ s'
  = (if handled then u64 (Ultra.send_buffer_index_ s + 1)
     else Ultra.send_buffer_index_ s) /\
  (exists r, Ultra.send_buffer_ s !! reply = Some r /\
     Ultra.send_buffer_ s'
     = if handled then <[reply := reply_in r m io]> (Ultra.send_buffer_ s)
       else Ultra.send_buffer_ s) /\
  Ultra.trace s'
  = Ultra.trace s
    ++ (if handled && Ultra.is_active c
        then [Sys.Esend client_fd (Ultra.message_id m) (Ultra.message_type m + 2)]
        else []).
Proof.
  intros Hwf Hfind Hio Hn s' slot reply handled.
  destruct (next_recv_slot s Hwf) as [Hnext Hslot].
  destruct Hwf as (Hsl & Hrl & _ & _).
  destruct (next_send_slot s Hsl) as [_ Hreply].
  fold slot in Hnext, Hslot. fold reply in Hreply.
  pose proof Hfind as Hf. apply list_find_Some in Hf as (Hi & Hfd & _).
  assert (Hr : exists r, Ultra.send_buffer_ s !! reply = Some r)
    by (apply lookup_lt_is_Some; lia).
  destruct Hr as [r Hr].
  assert (Hm : <[slot := m]> (Ultra.recv_buffer_ s) !! slot = Some m)
    by (apply list_lookup_insert_eq; lia).
  subst s'. unfold Ultra.handle_client_events. rewrite Hfind, Hnext, Hio.
  destruct (Z.ltb_spec n sizeof_UltraMessage) as [Hlt|_]; [lia|].
  unfold Ultra.process_message, Ultra.process_order_message,
    Ultra.process_market_data_message.
  cbn [Ultra.recv_buffer_ Ultra.update_stats Ultra.set_stats Ultra.set_recv_buffer
       Ultra.set_recv_buffer_index].
  rewrite Hm. cbn [fmap option_fmap option_map default id].
  set (s2 := Ultra.update_stats _ (Ultra.set_recv_buffer _ _)).
  assert (Hack : forall ack_type,
    Ultra.acknowledge ack_type io slot (Some i) s2
    = let s1 :=
        Ultra.set_send_buffer
          (<[reply := Ultra.mkMessage (Ultra.message_id m)
                        (Ultra.io_response_time io) ack_type
                        (Ultra.payload_size r) (Ultra.payload r)]>
             (Ultra.send_buffer_ s))
          (Ultra.set_send_buffer_index (u64 (Ultra.send_buffer_index_ s + 1)) s2) in
      if Ultra.is_active c
      then Ultra.emit (Sys.Esend (Ultra.fd c) (Ultra.message_id m) ack_type) s1
      else s1).
  { intros ack_type.
    apply (acknowledge_effect ack_type io slot i c m r s2);
      [exact Hsl | exact Hm | exact Hi | exact Hr]. }
  subst handled.
  destruct (Z.eqb_spec (Ultra.message_type m) 1) as [H1|H1].
  - rewrite Hack. cbn zeta. rewrite <- Hfd.
    unfold reply_in. rewrite H1.
    destruct (Ultra.is_active c); cbn;
      (split; [reflexivity|]); (split; [reflexivity|]); (split; [reflexivity|]);
      (split; [reflexivity|]); (split; [reflexivity|]); (split; [reflexivity|]);
      (split; [exists r; split; [exact Hr | reflexivity]
              | first [reflexivity | by rewrite app_nil_r]]).
  - destruct (Z.eqb_spec (Ultra.message_type m) 2) as [H2|H2].
    + rewrite Hack. cbn zeta. rewrite <- Hfd.
      unfold reply_in. rewrite H2.
      destruct (Ultra.is_active c); cbn;
        (split; [reflexivity|]); (split; [reflexivity|]); (split; [reflexivity|]);
        (split; [reflexivity|]); (split; [reflexivity|]); (split; [reflexivity|]);
        (split; [exists r; split; [exact Hr | reflexivity]
              | first [reflexivity | by rewrite app_nil_r]]).
    + cbn.
      (split; [reflexivity|]); (split; [reflexivity|]); (split; [reflexivity|]);
      (split; [reflexivity|]); (split; [reflexivity|]); (split; [reflexivity|]);
      (split; [exists r; split; [exact Hr | reflexivity]
              | by rewrite app_nil_r]).
Qed.

End data.

Section replies.

Context {layout : Layout}.

(** A record that is shorter than an [UltraMessage] only uses up a receive
    slot. *)
Lemma short_record_path client_fd io n m i c s :
  Ultra.pool_wf s ->
  list_find (fun c => Ultra.fd c = client_fd) (Ultra.connections_ s) = Some (i, c) ->
  Ultra.io_recv io = Ultra.RecvData n m ->
  n < sizeof_UltraMessage ->
  Ultra.handle_client_events client_fd io s
  = Ultra.set_recv_buffer
      (<[Z.to_nat (Ultra.recv_buffer_index_ s mod 1024) := m]> (Ultra.recv_buffer_ s))
      (Ultra.set_recv_buffer_index (u64 (Ultra.recv_buffer_index_ s + 1)) s).
Proof.
  intros Hwf Hfind Hio Hn.
  destruct (next_recv_slot s Hwf) as [Hnext _].
  unfold Ultra.handle_client_events. rewrite Hfind, Hnext, Hio.
  destruct (Z.ltb_spec n sizeof_UltraMessage) as [_|Hge]; [reflexivity | lia].
Qed.

(** X15. One record from an active client of the low-latency server.  The
    record is written to the next receive slot, whatever its length.  If it
    is shorter than an [UltraMessage] nothing else happens: no statistic
    changes and nothing is sent.  Otherwise it is counted
    ([total_messages] and [message_count] grow by one) and its latency, the
    receive time minus the time stamp the client wrote, as a 64-bit
    difference, is added to [total_latency]; a record of type 1 or 2 is
    answered by exactly one message, sent on the client's descriptor from the
    next send slot, that carries the identifier of the request and the type 3
    or 4, whatever [send] returns; a record of any other type is answered
    by nothing.  The descriptors and the connections are left alone. *)
Theorem ultra_request_acknowledged client_fd io n m i c s :
  Ultra.pool_wf s ->
  list_find (fun c => Ultra.fd c = client_fd) (Ultra.connections_ s) = Some (i, c) ->
  Ultra.is_active c = true ->
  Ultra.io_recv io = Ultra.RecvData n m ->
  let s' := Ultra.handle_client_events client_fd io s in
  let slot := Z.to_nat (Ultra.recv_buffer_index_ s mod 1024) in
  let reply := Z.to_nat (Ultra.send_buffer_index_ s mod 1024) in
  Ultra.recv_buffer_ s' = <[slot := m]> (Ultra.recv_buffer_ s) /\
  Ultra.recv_buffer_index_ s' = u64 (Ultra.recv_buffer_index_ s + 1) /\
  Ultra.kernel s' = Ultra.kernel s /\
  Ultra.connections_ s' = Ultra.connections_ s /\
  (n < sizeof_UltraMessage ->
   Ultra.stats_ s' = Ultra.stats_ s /\ Ultra.trace s' = Ultra.trace s /\
   Ultra.send_buffer_ s' = Ultra.send_buffer_ s /\
   Ultra.send_buffer_index_ s' = Ultra.send_buffer_index_ s) /\
  (sizeof_UltraMessage <= n ->
   Ultra.stats_ s'
   = Ultra.mkStats (u64 (Ultra.total_messages (Ultra.stats_ s) + 1))
       (Ultra.active_connections (Ultra.stats_ s))
       (Ultra.peak_connections (Ultra.stats_ s))
       (u64 (Ultra.total_latency (Ultra.stats_ s)
             + u64 (Ultra.io_receive_time io - Ultra.timestamp m)))
       (u64 (Ultra.message_count (Ultra.stats_ s) + 1)) /\
   (Ultra.message_type m = 1 \/ Ultra.message_type m = 2 ->
    Ultra.trace s'
    = Ultra.trace s
      ++ [Sys.Esend client_fd (Ultra.message_id m) (Ultra.message_type m + 2)] /\
    Ultra.send_buffer_index_ s' = u64 (Ultra.send_buffer_index_ s + 1) /\
    exists r, Ultra.send_buffer_ s !! reply = Some r /\
      Ultra.send_buffer_ s' = <[reply := reply_in r m io]> (Ultra.send_buffer_ s)) /\
   (Ultra.message_type m <> 1 -> Ultra.message_type m <> 2 ->
    Ultra.trace s' = Ultra.trace s /\
    Ultra.send_buffer_ s' = Ultra.send_buffer_ s /\
    Ultra.send_buffer_index_ s' = Ultra.send_buffer_index_ s)).
Proof.
  intros Hwf Hfind Hact Hio s' slot reply.
  destruct (Z.lt_ge_cases n sizeof_UltraMessage) as [Hlt|Hge].
  - subst s'. rewrite (short_record_path client_fd io n m i c s Hwf Hfind Hio Hlt).
    fold slot. repeat (split; [reflexivity|]).
    split; [intros _; repeat split | intros; lia].
  - destruct (complete_record_path client_fd io n m i c s Hwf Hfind Hio Hge)
      as (H1 & H2 & H3 & H4 & H5 & H6 & (r & Hr & H7) & H8).
    fold s' in H1, H2, H3, H4, H5, H6, H7, H8. fold slot in H1. fold reply in Hr, H7.
    rewrite Hact, andb_true_r in H8.
    split; [exact H1|]. split; [exact H2|]. split; [exact H3|]. split; [exact H4|].
    split; [intros; lia|]. intros _. split; [exact H5|]. split.
    + intros Hty.
      assert (Hh : (Ultra.message_type m =? 1) || (Ultra.message_type m =? 2) = true).
      { destruct Hty as [-> | ->]; reflexivity. }
      rewrite Hh in H6, H7, H8.
      split; [exact H8|]. split; [exact H6|]. exists r. auto.
    + intros Hn1 Hn2.
      assert (Hh : (Ultra.message_type m =? 1) || (Ultra.message_type m =? 2) = false).
      { apply orb_false_iff. split; by apply Z.eqb_neq. }
      rewrite Hh in H6, H7, H8. rewrite app_nil_r in H8. auto.
Qed.

(** X16. A descriptor number that is used again is served through the
    record of the connection that had it before.  [handle_client_events]
    looks the connection up by descriptor and takes the first record with
    that number, also when it is a record that was closed.  So when an
    event comes for an active connection whose descriptor an earlier, closed
    connection had: a request is counted but never answered, because the
    reply is addressed to the closed record; and at the end of file the
    descriptor is closed and counted out while the record of the active
    connection itself stays marked active. *)
Theorem ultra_reused_descriptor_shadowed j b i a io backlog s :
  Ultra.pool_wf s ->
  Ultra.connections_ s !! j = Some b ->
  Ultra.is_active b = true ->
  list_find (fun c => Ultra.fd c = Ultra.fd b) (Ultra.connections_ s) = Some (i, a) ->
  Ultra.is_active a = false ->
  let s' := Ultra.state_of (Ultra.on_event (Some j) backlog io s) in
  (i < j)%nat /\
  Ultra.on_event (Some j) backlog io s
  = Ultra.Returned (Ultra.handle_client_events (Ultra.fd b) io s) /\
  (forall n m, Ultra.io_recv io = Ultra.RecvData n m ->
     Ultra.trace s' = Ultra.trace s /\
     Ultra.kernel s' = Ultra.kernel s /\
     Ultra.connections_ s' = Ultra.connections_ s /\
     (sizeof_UltraMessage <= n ->
      Ultra.total_messages (Ultra.stats_ s')
      = u64 (Ultra.total_messages (Ultra.stats_ s) + 1))) /\
  (Ultra.io_recv io = Ultra.RecvEOF ->
   Ultra.connections_ s' !! j = Some b /\
   (Ultra.fd b ∉ Sys.fds (Ultra.kernel s')) /\
   ~ Sys.registered (Ultra.epoll_fd_ s') (Ultra.fd b) (Ultra.kernel s') /\
   Ultra.active_connections (Ultra.stats_ s')
   = u64 (Ultra.active_connections (Ultra.stats_ s) - 1)).
Proof.
  intros Hwf Hj Hactb Hfind Hacta s'.
  pose proof Hfind as Hf. apply list_find_Some in Hf as (Hi & Hfd & Hfirst).
  assert (Hij : (i < j)%nat).
  { destruct (Nat.lt_trichotomy i j) as [Hlt|[Heq|Hgt]]; [exact Hlt| |].
    - subst j. assert (a = b) by congruence. subst a. congruence.
    - exfalso. by apply (Hfirst j b Hj Hgt). }
  assert (Hev : Ultra.on_event (Some j) backlog io s
                = Ultra.Returned (Ultra.handle_client_events (Ultra.fd b) io s)).
  { unfold Ultra.on_event. rewrite Hj, Hactb. reflexivity. }
  split; [exact Hij|]. split; [exact Hev|].
  subst s'. rewrite Hev. cbn [Ultra.state_of]. split.
  - intros n m Hio.
    destruct (Z.lt_ge_cases n sizeof_UltraMessage) as [Hlt|Hge].
    + rewrite (short_record_path _ io n m i a s Hwf Hfind Hio Hlt).
      repeat (split; [reflexivity|]). intros; lia.
    + destruct (complete_record_path _ io n m i a s Hwf Hfind Hio Hge)
        as (_ & _ & H3 & H4 & H5 & _ & _ & H8).
      rewrite Hacta, andb_false_r, app_nil_r in H8.
      split; [exact H8|]. split; [exact H3|]. split; [exact H4|].
      intros _. rewrite H5. reflexivity.
  - intros Hio.
    rewrite (Ultra.handle_client_events_closes _ io i a s Hfind (or_introl Hio)).
    assert (Hi' : Ultra.connections_ (snd (Ultra.get_next_recv_buffer s)) !! i = Some a)
      by exact Hi.
    destruct (Ultra.close_connection_effect i a _ Hi')
      as (H1 & H2 & H3 & _ & _ & H6 & _).
    cbn zeta in *. rewrite Hfd in H1, H2.
    split; [|split; [exact H1|split; [exact H2 | exact H6]]].
    rewrite H3. rewrite list_lookup_insert_ne by lia. exact Hj.
Qed.

(** X17. Once [close_connection] has run for a connection, the record
    stays in [connections_], at its place and marked inactive, and the
    server neither writes to it nor listens to it: [send_response] returns
    false without calling [send], and a worker that is handed an event
    carrying the record does not call the handler. *)
Theorem ultra_closed_connection_inert i c sent msg backlog io s :
  Ultra.connections_ s !! i = Some c ->
  let s' := Ultra.close_connection (Some i) s in
  Ultra.send_response sent (Some i) msg s' = (false, s') /\
  Ultra.on_event (Some i) backlog io s' = Ultra.Returned s' /\
  length (Ultra.connections_ s') = length (Ultra.connections_ s) /\
  (exists c', Ultra.connections_ s' !! i = Some c' /\
              Ultra.is_active c' = false /\ Ultra.fd c' = Ultra.fd c) /\
  (forall j, j <> i -> Ultra.connections_ s' !! j = Ultra.connections_ s !! j).
Proof.
  intros Hi s'.
  destruct (Ultra.close_connection_effect i c s Hi)
    as (_ & _ & H3 & (c' & Hc' & Hina & Hfd) & H5 & _).
  fold s' in H3, Hc', H5.
  split; [|split; [|split; [exact H5|split]]].
  - unfold Ultra.send_response. destruct msg as [k|]; [|reflexivity].
    rewrite Hc'. destruct (Ultra.send_buffer_ s' !! k); [|reflexivity].
    rewrite Hina. reflexivity.
  - unfold Ultra.on_event. rewrite Hc', Hina. reflexivity.
  - exists c'. auto.
  - intros j Hne. rewrite H3. by apply list_lookup_insert_ne.
Qed.

End replies.

(** *** The average latency *)

(** The sum of a list of latencies. *)
Definition total (latencies : list Z) : Z := foldr Z.add 0 latencies.

(** [update_stats] called once for each latency of the list, in order. *)
Definition record_all (latencies : list Z) (s : Ultra.server) : Ultra.server :=
  foldl (fun s latency => Ultra.update_stats latency s) s latencies.

Lemma u64_add_l a b : u64 (u64 a + b) = u64 (a + b).
Proof. unfold u64. apply Zplus_mod_idemp_l. Qed.

Lemma record_all_counters latencies : forall s,
  0 <= Ultra.message_count (Ultra.stats_ s) < two64 ->
  0 <= Ultra.total_latency (Ultra.stats_ s) < two64 ->
  Ultra.message_count (Ultra.stats_ (record_all latencies s))
  = u64 (Ultra.message_count (Ultra.stats_ s) + Z.of_nat (length latencies)) /\
  Ultra.total_latency (Ultra.stats_ (record_all latencies s))
  = u64 (Ultra.total_latency (Ultra.stats_ s) + total latencies) /\
  Ultra.total_messages (Ultra.stats_ (record_all latencies s))
  = Ultra.total_messages (Ultra.stats_ s) /\
  Ultra.active_connections (Ultra.stats_ (record_all latencies s))
  = Ultra.active_connections (Ultra.stats_ s) /\
  Ultra.peak_connections (Ultra.stats_ (record_all latencies s))
  = Ultra.peak_connections (Ultra.stats_ s).
Proof.
  induction latencies as [|l latencies IH]; intros s Hc Ht.
  - simpl. rewrite !Z.add_0_r, !u64_small by assumption. auto.
  - unfold record_all. cbn [foldl]. fold (record_all latencies (Ultra.update_stats l s)).
    destruct (IH (Ultra.update_stats l s)) as (H1 & H2 & H3 & H4 & H5);
      [apply u64_range | apply u64_range|].
    rewrite H1, H2, H3, H4, H5. cbn [Ultra.stats_ Ultra.update_stats Ultra.set_stats
      Ultra.message_count Ultra.total_latency Ultra.total_messages
      Ultra.active_connections Ultra.peak_connections].
    rewrite !u64_add_l. cbn [length total foldr].
    repeat split; f_equal; [lia | unfold total; lia].
Qed.

(** X18. The average the low-latency server reports is the mean of the
    latencies it has recorded.  [update_stats] adds one to [message_count]
    and the latency to [total_latency], both as 64-bit counters, and touches
    nothing else; so after a non-empty series of latencies recorded from
    zero, neither counter having wrapped, [get_average_latency] is the
    quotient of their sum by their number.  Should [message_count] wrap to
    zero, the average reported is 0. *)
Theorem ultra_average_is_mean (latencies : list Z) (s : Ultra.server) :
  0 <= Ultra.message_count (Ultra.stats_ s) < two64 ->
  0 <= Ultra.total_latency (Ultra.stats_ s) < two64 ->
  let st' := Ultra.stats_ (record_all latencies s) in
  Ultra.message_count st'
  = u64 (Ultra.message_count (Ultra.stats_ s) + Z.of_nat (length latencies)) /\
  Ultra.total_latency st'
  = u64 (Ultra.total_latency (Ultra.stats_ s) + total latencies) /\
  Ultra.total_messages st' = Ultra.total_messages (Ultra.stats_ s) /\
  Ultra.active_connections st' = Ultra.active_connections (Ultra.stats_ s) /\
  Ultra.peak_connections st' = Ultra.peak_connections (Ultra.stats_ s) /\
  (Ultra.message_count (Ultra.stats_ s) = 0 ->
   Ultra.total_latency (Ultra.stats_ s) = 0 ->
   latencies <> [] ->
   Z.of_nat (length latencies) < two64 ->
   0 <= total latencies < two64 ->
   Ultra.get_average_latency st'
   = Some (Ultra.DQuot (total latencies) (Z.of_nat (length latencies)))) /\
  (u64 (Ultra.message_count (Ultra.stats_ s) + Z.of_nat (length latencies)) = 0 ->
   Ultra.get_average_latency st' = Some Ultra.DZero).
Proof.
  intros Hc Ht st'.
  destruct (record_all_counters latencies s Hc Ht) as (H1 & H2 & H3 & H4 & H5).
  fold st' in H1, H2, H3, H4, H5.
  do 5 (split; [assumption|]). split.
  - intros Hc0 Ht0 Hne Hlen Hsum.
    unfold Ultra.get_average_latency, Ultra.double_div.
    rewrite H1, H2, Hc0, Ht0, !Z.add_0_l.
    rewrite !u64_small by (split; [lia | assumption]).
    rewrite (u64_small (total latencies)) by assumption.
    assert (Hpos : Z.of_nat (length latencies) <> 0)
      by (destruct latencies; [congruence | simpl; lia]).
    apply Z.eqb_neq in Hpos. rewrite Hpos. reflexivity.
  - intros Hzero. unfold Ultra.get_average_latency. rewrite H1, Hzero. reflexivity.
Qed.

(** *** Worked examples *)

(** A new order with identifier 77, stamped 500, and what the environment
    answers while it is handled: the whole record is read, the clock shows
    1000 at reception and 1200 when the reply is written. *)
Definition request : Ultra.UltraMessage := Ultra.mkMessage 77 500 1 0 [].

Definition order_arrives : Ultra.io_env :=
  Ultra.mkIo (Ultra.RecvData 1088 request) 1000 1200 1088.

(** The client on descriptor 5 has left and another one has been given the
    same descriptor number. *)
Definition client5_again : Sys.accepted :=
  Sys.mkAccepted 5 0x7f000001 true true true 2000 0x6000.

Definition ultra_shadowed : Ultra.server :=
  Ultra.state_of
    (fst (Ultra.accept_connections [Sys.AcceptOk client5_again]
            (Ultra.handle_client_events (layout := lp64) 5 end_of_file
               ultra_serving))).

Lemma ultra_serving_pool : Ultra.pool_wf ultra_serving.
Proof. repeat split; vm_compute; congruence. Qed.

Lemma ultra_shadowed_pool : Ultra.pool_wf ultra_shadowed.
Proof. repeat split; vm_compute; congruence. Qed.

Lemma ultra_request_acknowledged_witness :
  Ultra.trace (Ultra.handle_client_events (layout := lp64) 5 order_arrives ultra_serving)
  = Ultra.trace ultra_serving
    ++ [Sys.Esend 5 (Ultra.message_id request) (Ultra.message_type request + 2)].
Proof.
  assert (Hfind :
    list_find (fun c => Ultra.fd c = 5) (Ultra.connections_ ultra_serving)
    = Some (0%nat, Ultra.mkConnection 5 0x7f000001 1000 0 true true))
    by (vm_compute; reflexivity).
  destruct (ultra_request_acknowledged (layout := lp64) 5 order_arrives 1088 request
              0%nat _ ultra_serving ultra_serving_pool Hfind eq_refl eq_refl)
    as (_ & _ & _ & _ & _ & H).
  assert (Hlen : @sizeof_UltraMessage lp64 <= 1088) by (simpl; lia).
  destruct (H Hlen) as (_ & Hack & _).
  exact (proj1 (Hack (or_introl eq_refl))).
Defined.

Lemma ultra_reused_descriptor_shadowed_witness :
  Ultra.connections_ ultra_shadowed !! 1%nat
  = Some (Ultra.mkConnection 5 0x7f000001 2000 1 true true) /\
  Ultra.trace
    (Ultra.state_of (Ultra.on_event (layout := lp64) (Some 1%nat) [] order_arrives
                       ultra_shadowed))
  = Ultra.trace ultra_shadowed.
Proof.
  assert (Hj : Ultra.connections_ ultra_shadowed !! 1%nat
               = Some (Ultra.mkConnection 5 0x7f000001 2000 1 true true))
    by (vm_compute; reflexivity).
  assert (Hfind :
    list_find (fun c => Ultra.fd c
                        = Ultra.fd (Ultra.mkConnection 5 0x7f000001 2000 1 true true))
      (Ultra.connections_ ultra_shadowed)
    = Some (0%nat, Ultra.mkConnection 5 0x7f000001 1000 0 true false))
    by (vm_compute; reflexivity).
  split; [exact Hj|].
  destruct (ultra_reused_descriptor_shadowed (layout := lp64) 1%nat _ 0%nat _
              order_arrives [] ultra_shadowed ultra_shadowed_pool Hj eq_refl Hfind
              eq_refl) as (_ & _ & H & _).
  exact (proj1 (H 1088 request eq_refl)).
Defined.

Lemma ultra_closed_connection_inert_witness :
  Ultra.connections_ ultra_serving !! 0%nat
  = Some (Ultra.mkConnection 5 0x7f000001 1000 0 true true) /\
  Ultra.send_response (layout := lp64) 1088 (Some 0%nat) (Some 0%nat)
    (Ultra.close_connection (Some 0%nat) ultra_serving)
  = (false, Ultra.close_connection (Some 0%nat) ultra_serving).
Proof.
  assert (Hi : Ultra.connections_ ultra_serving !! 0%nat
               = Some (Ultra.mkConnection 5 0x7f000001 1000 0 true true))
    by (vm_compute; reflexivity).
  split; [exact Hi|].
  destruct (ultra_closed_connection_inert (layout := lp64) 0%nat _ 1088 (Some 0%nat)
              [] order_arrives ultra_serving Hi) as (H & _).
  exact H.
Defined.

Lemma ultra_average_is_mean_witness :
  Ultra.get_average_latency
    (Ultra.stats_ (record_all [2000; 3000; 4000] ultra_serving))
  = Some (Ultra.DQuot (total [2000; 3000; 4000])
            (Z.of_nat (length [2000; 3000; 4000]))) /\
  (Ultra.value (Ultra.DQuot 9000 3) == 3000)%Q.
Proof.
  assert (Hc : 0 <= Ultra.message_count (Ultra.stats_ ultra_serving) < two64)
    by (vm_compute; split; [discriminate | reflexivity]).
  assert (Ht : 0 <= Ultra.total_latency (Ultra.stats_ ultra_serving) < two64)
    by (vm_compute; split; [discriminate | reflexivity]).
  destruct (ultra_average_is_mean [2000; 3000; 4000] ultra_serving Hc Ht)
    as (_ & _ & _ & _ & _ & H & _).
  split; [|reflexivity].
  apply H.
  - vm_compute. reflexivity.
  - vm_compute. reflexivity.
  - discriminate.
  - reflexivity.
  - split; [discriminate | reflexivity].
Defined.
End UltraProps.

(** * The queues of the low-latency server

    [message_queue_] and [connection_queue_] are ring buffers of
    [QUEUE_SIZE] slots that hold pointers; [process_message_queue], which
    every worker calls after it has served its events, empties both. *)

Module UltraQueues.
























End UltraQueues.

(** * The metrics of the low-latency test client *)

Module UltraTestClient.

(** [struct PerformanceMetrics] of [UltraTestClient]: six 64-bit counters. *)
Record PerformanceMetrics : Type := mkMetrics {
  total_messages : Z;
  successful_messages : Z;
  failed_messages : Z;
  total_latency : Z;
  min_latency : Z;
  max_latency : Z
}.

Definition UINT64_MAX : Z := two64 - 1.

(** The member initialisers. *)
Definition fresh : PerformanceMetrics := mkMetrics 0 0 0 0 UINT64_MAX 0.

(** [void update_latency(uint64_t latency)]: two [fetch_add]s, then the
    compare-and-exchange loops, which store [latency] when it is below the
    minimum, respectively above the maximum. *)
Definition update_latency (latency : Z) (m : PerformanceMetrics)
  : PerformanceMetrics :=
  let total_latency' := u64 (total_latency m + latency) in
  let total_messages' := u64 (total_messages m + 1) in
  let current_min := min_latency m in
  let min_latency' := if latency <? current_min then latency else current_min in
  let current_max := max_latency m in
  let max_latency' := if current_max <? latency then latency else current_max in
  mkMetrics total_messages' (successful_messages m) (failed_messages m)
    total_latency' min_latency' max_latency'.

(** [double get_average_latency() const] *)
Definition get_average_latency (m : PerformanceMetrics) : option Ultra.double :=
  let count := total_messages m in
  if count =? 0 then Some Ultra.DZero
  else Ultra.double_div (total_latency m) count.

(** [void reset()] *)
Definition reset (m : PerformanceMetrics) : PerformanceMetrics :=
  mkMetrics 0 0 0 0 UINT64_MAX 0.

(** The latencies of a test are recorded one after the other. *)
Definition record_all (latencies : list Z) (m : PerformanceMetrics)
  : PerformanceMetrics :=
  foldl (fun m latency => update_latency latency m) m latencies.

Definition total (latencies : list Z) : Z := foldr Z.add 0 latencies.

Definition uint64_t (x : Z) : Prop := 0 <= x < two64.

Lemma record_all_snoc latencies latency m :
  record_all (latencies ++ [latency]) m
  = update_latency latency (record_all latencies m).
Proof. unfold record_all. by rewrite foldl_app. Qed.

Lemma total_snoc latencies latency :
  total (latencies ++ [latency]) = total latencies + latency.
Proof.
  unfold total. induction latencies as [|x xs IH]; simpl; [lia|]. rewrite IH. lia.
Qed.

Lemma u64_add_u64 a b : u64 (u64 a + b) = u64 (a + b).
Proof. unfold u64. by rewrite Zplus_mod_idemp_l. Qed.

(** What the counters hold after a series of latencies, from any start. *)
Lemma metrics_count latencies m :
  let m' := record_all latencies m in
  total_messages m' = u64 (total_messages m + Z.of_nat (length latencies)) \/
  latencies = [] /\ m' = m.
Proof.
  induction latencies as [|latency latencies IH] using rev_ind; [by right|]. left.
  rewrite record_all_snoc, length_app. cbn [update_latency total_messages length].
  destruct IH as [-> | [-> ->]].
  - rewrite u64_add_u64. f_equal. lia.
  - simpl. f_equal.
Qed.

Lemma metrics_sum latencies m :
  let m' := record_all latencies m in
  total_latency m' = u64 (total_latency m + total latencies) \/
  latencies = [] /\ m' = m.
Proof.
  induction latencies as [|latency latencies IH] using rev_ind; [by right|]. left.
  rewrite record_all_snoc, total_snoc. cbn [update_latency total_latency].
  destruct IH as [-> | [-> ->]].
  - rewrite u64_add_u64. f_equal. lia.
  - simpl. f_equal.
Qed.

Lemma metrics_outcomes latencies m :
  successful_messages (record_all latencies m) = successful_messages m /\
  failed_messages (record_all latencies m) = failed_messages m.
Proof.
  induction latencies as [|latency latencies IH] using rev_ind; [by split|].
  rewrite record_all_snoc. exact IH.
Qed.

(** The extremes after a series recorded from fresh metrics. *)
Lemma metrics_extremes latencies :
  Forall uint64_t latencies ->
  let m' := record_all latencies fresh in
  (forall latency, latency ∈ latencies ->
                   min_latency m' <= latency <= max_latency m') /\
  (latencies <> [] -> min_latency m' ∈ latencies /\ max_latency m' ∈ latencies) /\
  (latencies = [] -> min_latency m' = UINT64_MAX /\ max_latency m' = 0).
Proof.
  induction latencies as [|x latencies IH] using rev_ind; intros Hall m'.
  - split; [intros latency Hin; by apply elem_of_nil in Hin|].
    split; [done|]. intros _. by split.
  - apply Forall_app in Hall as [Hall Hx]. apply (proj1 (Forall_singleton _ _)) in Hx.
    destruct (IH Hall) as (Hbounds & Hin & Hnone). clear IH.
    unfold m'. rewrite record_all_snoc.
    set (m := record_all latencies fresh) in *.
    cbn [update_latency min_latency max_latency].
    assert (Hmin : (if x <? min_latency m then x else min_latency m) <= x
                   /\ (if x <? min_latency m then x else min_latency m)
                      <= min_latency m)
      by (destruct (x <? min_latency m) eqn:H;
          [apply Z.ltb_lt in H | apply Z.ltb_ge in H]; lia).
    assert (Hmax : x <= (if max_latency m <? x then x else max_latency m)
                   /\ max_latency m
                      <= (if max_latency m <? x then x else max_latency m))
      by (destruct (max_latency m <? x) eqn:H;
          [apply Z.ltb_lt in H | apply Z.ltb_ge in H]; lia).
    split; [|split].
    + intros latency Hl. apply elem_of_app in Hl as [Hl | Hl].
      * specialize (Hbounds latency Hl). lia.
      * apply list_elem_of_singleton in Hl as ->. lia.
    + intros _. destruct latencies as [|y ys].
      * destruct (Hnone eq_refl) as [-> ->]. unfold uint64_t, UINT64_MAX in *.
        split; apply elem_of_app; right; apply list_elem_of_singleton.
        -- destruct (x <? two64 - 1) eqn:H;
             [reflexivity | apply Z.ltb_ge in H; lia].
        -- destruct (0 <? x) eqn:H; [reflexivity | apply Z.ltb_ge in H; lia].
      * destruct (Hin ltac:(discriminate)) as [Hmn Hmx].
        split; apply elem_of_app.
        -- destruct (x <? min_latency m);
             [right; by apply list_elem_of_singleton | by left].
        -- destruct (max_latency m <? x);
             [right; by apply list_elem_of_singleton | by left].
    + intros Hnil. by destruct latencies.
Qed.

(** X20. The metrics of the low-latency test client after a test.  From
    [reset()], which brings the counters back to what the member
    initialisers give, and a series of calls of [update_latency]:
    [total_messages] is the number of calls and [total_latency] the sum of
    the latencies, both as 64-bit values, and the two outcome counters are
    still 0; every latency recorded lies between [min_latency] and
    [max_latency], and both extremes are latencies that were recorded.
    With no call at all the minimum is [UINT64_MAX] and the maximum 0, so
    that the minimum is above the maximum, and the average is 0.  When
    neither counter has wrapped, [get_average_latency] is the sum divided by
    the number of calls. *)
Theorem client_metrics_after_test (latencies : list Z) (m0 : PerformanceMetrics) :
  Forall uint64_t latencies ->
  let m := record_all latencies (reset m0) in
  reset m0 = fresh /\
  total_messages m = u64 (Z.of_nat (length latencies)) /\
  total_latency m = u64 (total latencies) /\
  successful_messages m = 0 /\ failed_messages m = 0 /\
  (forall latency, latency ∈ latencies ->
                   min_latency m <= latency <= max_latency m) /\
  (latencies <> [] ->
   min_latency m ∈ latencies /\ max_latency m ∈ latencies /\
   min_latency m <= max_latency m) /\
  (latencies = [] ->
   min_latency m = UINT64_MAX /\ max_latency m = 0 /\
   max_latency m < min_latency m /\
   get_average_latency m = Some Ultra.DZero) /\
  (latencies <> [] ->
   Z.of_nat (length latencies) < two64 -> total latencies < two64 ->
   get_average_latency m
   = Some (Ultra.DQuot (total latencies) (Z.of_nat (length latencies)))).
Proof.
  intros Hall m. change (reset m0) with fresh in m.
  destruct (metrics_extremes latencies Hall) as (Hbounds & Hin & Hnone).
  fold m in Hbounds, Hin, Hnone.
  assert (Hcount : total_messages m = u64 (Z.of_nat (length latencies))).
  { destruct (metrics_count latencies fresh) as [H | [-> H]].
    - exact H.
    - unfold m. rewrite H. reflexivity. }
  assert (Hsum : total_latency m = u64 (total latencies)).
  { destruct (metrics_sum latencies fresh) as [H | [-> H]].
    - exact H.
    - unfold m. rewrite H. reflexivity. }
  assert (Hpos : 0 <= total latencies).
  { clear -Hall.
    induction Hall as [|x xs Hx _ IH]; unfold total, uint64_t in *; simpl; lia. }
  split; [reflexivity|]. split; [exact Hcount|]. split; [exact Hsum|].
  split; [exact (proj1 (metrics_outcomes latencies fresh))|].
  split; [exact (proj2 (metrics_outcomes latencies fresh))|].
  split; [exact Hbounds|]. split; [|split].
  - intros Hne. destruct (Hin Hne) as [Hmn Hmx].
    split; [exact Hmn|]. split; [exact Hmx|].
    specialize (Hbounds _ Hmn). lia.
  - intros Hnil. destruct (Hnone Hnil) as [Hmn Hmx].
    split; [exact Hmn|]. split; [exact Hmx|].
    split; [rewrite Hmn, Hmx; reflexivity|].
    unfold get_average_latency. rewrite Hcount, Hnil. reflexivity.
  - intros Hne Hlen Htotal. unfold get_average_latency.
    rewrite Hcount, Hsum. unfold u64.
    rewrite !Z.mod_small by lia.
    destruct latencies as [|x xs]; [done|].
    unfold Ultra.double_div.
    destruct (Z.of_nat (length (x :: xs)) =? 0) eqn:H;
      [apply Z.eqb_eq in H; simpl in H; lia | reflexivity].
Qed.

Lemma client_metrics_after_test_witness :
  let m := record_all [700; 300; 500] (reset (mkMetrics 9 9 9 9 9 9)) in
  Forall uint64_t [700; 300; 500] /\
  total_messages m = 3 /\ total_latency m = 1500 /\
  min_latency m = 300 /\ max_latency m = 700 /\
  get_average_latency m = Some (Ultra.DQuot 1500 3).
Proof.
  assert (Hall : Forall uint64_t [700; 300; 500])
    by (repeat constructor; unfold two64; lia).
  destruct (client_metrics_after_test [700; 300; 500] (mkMetrics 9 9 9 9 9 9) Hall)
    as (_ & Hcount & Hsum & _ & _ & _ & _ & _ & Havg).
  split; [exact Hall|].
  split; [exact Hcount|]. split; [exact Hsum|].
  split; [reflexivity|]. split; [reflexivity|].
  apply Havg; [discriminate | reflexivity | reflexivity].
Defined.

End UltraTestClient.
